(** * Shadow-mapped forward renderer: shaders, frame driver, initialisation

    A shallow embedding of the HLSL pixel shaders (ShadowMapping_ps,
    CellShading_ps, Scrolling_ps) and of the C++ scene code (InitGeometry,
    RenderDepthBufferFromLight, RenderSceneFromCamera, RenderScene), with the
    properties of the design document stated over them. *)

From Stdlib Require Import ZArith QArith Qminmax Bool List String Lia Btauto DecimalString.
From Stdlib Require Import Floats.SpecFloat.
Import ListNotations.

Set Implicit Arguments.

(** ** Shader arithmetic

    HLSL [float] arithmetic is kept abstract: the shaders are written once
    over the interface [Scalar] and read at two instances, exact rationals
    and IEEE binary32. [a > b] of the source is [fltb b a]. *)

Class Scalar (F : Type) : Type := {
  lit  : Q -> F;
  fadd : F -> F -> F;
  fsub : F -> F -> F;
  fmul : F -> F -> F;
  fdiv : F -> F -> F;
  fneg : F -> F;
  fmax : F -> F -> F;
  fltb : F -> F -> bool;
  fleb : F -> F -> bool
}.

(** The two facts about comparison that the lighting properties rest on;
    both hold for IEEE floats (NaN compares false either way). *)
Class ScalarLaws (F : Type) {S : Scalar F} : Prop := {
  fltb_irrefl : forall a : F, fltb a a = false;
  fleb_not_gtb : forall a b : F, fleb a b = true -> fltb b a = false
}.
Arguments ScalarLaws F {S}.

Declare Scope hlsl_scope.
Delimit Scope hlsl_scope with hlsl.
Infix "+" := fadd : hlsl_scope.
Infix "-" := fsub : hlsl_scope.
Infix "*" := fmul : hlsl_scope.
Infix "/" := fdiv : hlsl_scope.
Notation "- a" := (fneg a) : hlsl_scope.
Notation "a <? b" := (fltb a b) : hlsl_scope.
Notation "a >? b" := (fltb b a) : hlsl_scope.

(** *** Exact rationals *)

Module ExactQ.

Definition Qltb (a b : Q) : bool := negb (Qle_bool b a).

#[export] Instance Q_Scalar : Scalar Q := {|
  lit := fun q => q;
  fadd := Qplus; fsub := Qminus; fmul := Qmult; fdiv := Qdiv;
  fneg := Qopp; fmax := Qmax;
  fltb := Qltb; fleb := Qle_bool
|}.

End ExactQ.

(** *** IEEE binary32, the format of an HLSL [float] *)

Module Binary32.

Definition prec : Z := 24.
Definition emax : Z := 128.

Definition binary32 : Type := spec_float.

Definition ofZ (n : Z) : binary32 := binary_normalize prec emax n 0 false.

(** A decimal literal [n/d] is the correctly rounded quotient of the two
    integers (both exactly representable for the literals of the shaders). *)
Definition ofQ (q : Q) : binary32 :=
  SFdiv prec emax (ofZ (Qnum q)) (ofZ (Zpos (Qden q))).

Definition isNaN (a : binary32) : bool :=
  match a with S754_nan => true | _ => false end.

(** HLSL [max]: the operand that is not NaN when one is. *)
Definition max32 (a b : binary32) : binary32 :=
  if isNaN a then b
  else if isNaN b then a
  else if SFltb a b then b else a.

#[export] Instance binary32_Scalar : Scalar binary32 := {|
  lit := ofQ;
  fadd := SFadd prec emax; fsub := SFsub prec emax;
  fmul := SFmul prec emax; fdiv := SFdiv prec emax;
  fneg := SFopp; fmax := max32;
  fltb := SFltb; fleb := SFleb
|}.

End Binary32.

(** ** HLSL vectors, matrices and textures *)

Module Hlsl.

Section Ops.

Context {F : Type} `{Scalar F}.
Local Open Scope hlsl_scope.

Record float2 : Type := mkFloat2 { f2x : F; f2y : F }.
Record float3 : Type := mkFloat3 { f3x : F; f3y : F; f3z : F }.
Record float4 : Type := mkFloat4 { f4x : F; f4y : F; f4z : F; f4w : F }.

(** Rows of a 4x4 matrix. *)
Record float4x4 : Type :=
  mkFloat4x4 { row0 : float4; row1 : float4; row2 : float4; row3 : float4 }.

(** Swizzles. *)
Definition xy (p : float4) : float2 := mkFloat2 (f4x p) (f4y p).
Definition rgb (c : float4) : float3 := mkFloat3 (f4x c) (f4y c) (f4z c).
Definition chan_r (c : float4) : F := f4x c.
Definition chan_a (c : float4) : F := f4w c.

(** A scalar used where a vector is expected is replicated. *)
Definition splat2 (s : F) : float2 := mkFloat2 s s.
Definition splat3 (s : F) : float3 := mkFloat3 s s s.

(** [float4(v, w)] *)
Definition float4_of (p : float3) (w : F) : float4 :=
  mkFloat4 (f3x p) (f3y p) (f3z p) w.

Definition map3 (f : F -> F) (a : float3) : float3 :=
  mkFloat3 (f (f3x a)) (f (f3y a)) (f (f3z a)).
Definition zip3 (f : F -> F -> F) (a b : float3) : float3 :=
  mkFloat3 (f (f3x a) (f3x b)) (f (f3y a) (f3y b)) (f (f3z a) (f3z b)).

Definition add2 (a b : float2) : float2 :=
  mkFloat2 (f2x a + f2x b) (f2y a + f2y b).
Definition smul2 (s : F) (a : float2) : float2 :=
  mkFloat2 (s * f2x a) (s * f2y a).
Definition divs2 (a : float2) (s : F) : float2 :=
  mkFloat2 (f2x a / s) (f2y a / s).

Definition vadd : float3 -> float3 -> float3 := zip3 fadd.
Definition vsub : float3 -> float3 -> float3 := zip3 fsub.
Definition vmul : float3 -> float3 -> float3 := zip3 fmul.
Definition vdiv : float3 -> float3 -> float3 := zip3 fdiv.
Definition vneg : float3 -> float3 := map3 fneg.
Definition vscale (a : float3) (s : F) : float3 := map3 (fun c => c * s) a.
Definition vdivs (a : float3) (s : F) : float3 := map3 (fun c => c / s) a.

Definition dot (a b : float3) : F :=
  f3x a * f3x b + f3y a * f3y b + f3z a * f3z b.
Definition dot4 (a b : float4) : F :=
  f4x a * f4x b + f4y a * f4y b + f4z a * f4z b + f4w a * f4w b.

(** [mul(M, v)]: the vector is a column. *)
Definition mul (M : float4x4) (p : float4) : float4 :=
  mkFloat4 (dot4 (row0 M) p) (dot4 (row1 M) p) (dot4 (row2 M) p) (dot4 (row3 M) p).

(** The intrinsics [sqrt] and [pow] are not fixed by the interface: the
    shaders take them as given. *)
Variable sqrt : F -> F.
Variable pow : F -> F -> F.

Definition length (a : float3) : F := sqrt (dot a a).
Definition normalize (a : float3) : float3 := vdivs a (length a).

(** A texture with its [Sample] method: sampler and location to colour. *)
Variable SamplerState : Type.
Definition Texture2D : Type := SamplerState -> float2 -> float4.
Definition Sample (t : Texture2D) (s : SamplerState) (loc : float2) : float4 :=
  t s loc.

End Ops.

Arguments float2 F : clear implicits.
Arguments float3 F : clear implicits.
Arguments float4 F : clear implicits.
Arguments float4x4 F : clear implicits.
Arguments Texture2D F SamplerState : clear implicits.

End Hlsl.
Import Hlsl.

(** ** Common.hlsli / Common.h

    The shader-side include file is not among the sources. The per-frame
    constants follow [struct PerFrameConstants] of Common.h, under the names
    the shader bodies use, and the pixel-shader inputs keep the fields that
    the bodies read. *)

Module Common.

Record PerFrameConstants (F : Type) : Type := {
  gLight1Position : float3 F;
  gLight1Colour : float3 F;
  gLight1Facing : float3 F;
  gLight1CosHalfAngle : F;
  gLight1ViewMatrix : float4x4 F;
  gLight1ProjectionMatrix : float4x4 F;
  gLight2Position : float3 F;
  gLight2Colour : float3 F;
  gLight2Facing : float3 F;
  gLight2CosHalfAngle : F;
  gLight2ViewMatrix : float4x4 F;
  gLight2ProjectionMatrix : float4x4 F;
  gAmbientColour : float3 F;
  gSpecularPower : F;
  gCameraPosition : float3 F;
  wiggle : F;
  shift : F;
  fading : F
}.

Record LightingPixelShaderInput (F : Type) : Type := {
  worldPosition : float3 F;
  worldNormal : float3 F;
  uv : float2 F
}.

Record SimplePixelShaderInput (F : Type) : Type := {
  simple_uv : float2 F
}.

End Common.
Import Common.

(** ** ShadowMapping_ps.hlsl: per-pixel lighting with two shadow maps *)

Module ShadowMapping_ps.

Section Shader.

Context {F : Type} `{Scalar F}.
Local Open Scope hlsl_scope.

Variable sqrt : F -> F.
Variable pow : F -> F -> F.
Variable SamplerState : Type.

(** Registers t0, s0, t1, t2, s1. *)
Variable DiffuseSpecularMap : Texture2D F SamplerState.
Variable TexSampler : SamplerState.
Variable ShadowMapLight1 : Texture2D F SamplerState.
Variable ShadowMapLight2 : Texture2D F SamplerState.
Variable PointClamp : SamplerState.

(** The constant buffer. *)
Variable cb : PerFrameConstants F.

(** [shadowMapUV = 0.5f * proj.xy / proj.w + float2(0.5f, 0.5f);
     shadowMapUV.y = 1.0f - shadowMapUV.y;] *)
Definition shadowMapUV (lightProjection : float4 F) : float2 F :=
  let shadowMapUV :=
    add2 (divs2 (smul2 (lit 0.5) (xy lightProjection)) (f4w lightProjection))
         (mkFloat2 (lit 0.5) (lit 0.5)) in
  mkFloat2 (f2x shadowMapUV) (lit 1 - f2y shadowMapUV).

(** [depthFromLight = proj.z / proj.w] (the depth adjustment is commented
    out in the source). *)
Definition depthFromLight (lightProjection : float4 F) : F :=
  f4z lightProjection / f4w lightProjection.

(** The block the source writes once for LIGHT 1 and once, identically up
    to the constants and the shadow map it names, for LIGHT 2. It yields
    the locals [diffuseLightN] and [specularLightN]. *)
Definition spotLight
    (worldPosition worldNormal cameraDirection : float3 F)
    (gLightPosition gLightFacing : float3 F) (gLightCosHalfAngle : F)
    (gLightViewMatrix gLightProjectionMatrix : float4x4 F)
    (gLightColour : float3 F) (ShadowMapLight : Texture2D F SamplerState)
    : float3 F * float3 F :=
  let diffuseLight := splat3 (lit 0) in
  let specularLight := splat3 (lit 0) in
  let lightDirection := normalize sqrt (vsub gLightPosition worldPosition) in
  if dot lightDirection (vneg gLightFacing) >? gLightCosHalfAngle then
    let lightViewPosition := mul gLightViewMatrix (float4_of worldPosition (lit 1)) in
    let lightProjection := mul gLightProjectionMatrix lightViewPosition in
    let shadowMapUV := shadowMapUV lightProjection in
    let depthFromLight := depthFromLight lightProjection in
    if depthFromLight <? chan_r (Sample ShadowMapLight PointClamp shadowMapUV) then
      let lightDist := splat3 (length sqrt (vsub gLightPosition worldPosition)) in
      let diffuseLight :=
        vdiv (vscale gLightColour (fmax (dot worldNormal lightDirection) (lit 0))) lightDist in
      let halfway := normalize sqrt (vadd lightDirection cameraDirection) in
      let specularLight :=
        vscale diffuseLight (pow (fmax (dot worldNormal halfway) (lit 0)) (gSpecularPower cb)) in
      (diffuseLight, specularLight)
    else (diffuseLight, specularLight)
  else (diffuseLight, specularLight).

(** [input.worldNormal = normalize(input.worldNormal)] *)
Definition renormalised (input : LightingPixelShaderInput F) : float3 F :=
  normalize sqrt (worldNormal input).

Definition cameraDirection (input : LightingPixelShaderInput F) : float3 F :=
  normalize sqrt (vsub (gCameraPosition cb) (worldPosition input)).

Definition light1 (input : LightingPixelShaderInput F) : float3 F * float3 F :=
  spotLight (worldPosition input) (renormalised input) (cameraDirection input)
    (gLight1Position cb) (gLight1Facing cb) (gLight1CosHalfAngle cb)
    (gLight1ViewMatrix cb) (gLight1ProjectionMatrix cb) (gLight1Colour cb)
    ShadowMapLight1.

Definition light2 (input : LightingPixelShaderInput F) : float3 F * float3 F :=
  spotLight (worldPosition input) (renormalised input) (cameraDirection input)
    (gLight2Position cb) (gLight2Facing cb) (gLight2CosHalfAngle cb)
    (gLight2ViewMatrix cb) (gLight2ProjectionMatrix cb) (gLight2Colour cb)
    ShadowMapLight2.

Definition main (input : LightingPixelShaderInput F) : float4 F :=
  let '(diffuseLight1, specularLight1) := light1 input in
  let '(diffuseLight2, specularLight2) := light2 input in
  let diffuseLight := vadd (vadd (gAmbientColour cb) diffuseLight1) diffuseLight2 in
  let specularLight := vadd specularLight1 specularLight2 in
  let textureColour := Sample DiffuseSpecularMap TexSampler (uv input) in
  let diffuseMaterialColour := rgb textureColour in
  let specularMaterialColour := chan_a textureColour in
  let finalColour :=
    vadd (vmul diffuseLight diffuseMaterialColour)
         (vscale specularLight specularMaterialColour) in
  float4_of finalColour (lit 1).

End Shader.

End ShadowMapping_ps.

(** ** CellShading_ps.hlsl: two lights, diffuse level banded by a cell map *)

Module CellShading_ps.

Section Shader.

Context {F : Type} `{Scalar F}.
Local Open Scope hlsl_scope.

Variable sqrt : F -> F.
Variable pow : F -> F -> F.
Variable SamplerState : Type.

(** Registers t0, t1, s0, s1. *)
Variable DiffuseMap : Texture2D F SamplerState.
Variable CellMap : Texture2D F SamplerState.
Variable TexSampler : SamplerState.
Variable PointSampleClamp : SamplerState.

Variable cb : PerFrameConstants F.

Definition renormalised (input : LightingPixelShaderInput F) : float3 F :=
  normalize sqrt (worldNormal input).

Definition cameraDirection (input : LightingPixelShaderInput F) : float3 F :=
  normalize sqrt (vsub (gCameraPosition cb) (worldPosition input)).

(** The block written for "Light 1" and again for "Light 2". The scalar
    [diffuseLevel] is the location handed to [CellMap.Sample]. *)
Definition cellLight
    (worldPosition worldNormal cameraDirection : float3 F)
    (gLightPosition gLightColour : float3 F) : float3 F * float3 F :=
  let lightVector := vsub gLightPosition worldPosition in
  let lightDistance := length sqrt lightVector in
  let lightDirection := vdivs lightVector lightDistance in
  let diffuseLevel := fmax (dot worldNormal lightDirection) (lit 0) in
  let cellDiffuseLevel := chan_r (Sample CellMap PointSampleClamp (splat2 diffuseLevel)) in
  let diffuseLight := vdivs (vscale gLightColour cellDiffuseLevel) lightDistance in
  let halfway := normalize sqrt (vadd lightDirection cameraDirection) in
  let specularLight :=
    vscale diffuseLight (pow (fmax (dot worldNormal halfway) (lit 0)) (gSpecularPower cb)) in
  (diffuseLight, specularLight).

Definition light1 (input : LightingPixelShaderInput F) : float3 F * float3 F :=
  cellLight (worldPosition input) (renormalised input) (cameraDirection input)
    (gLight1Position cb) (gLight1Colour cb).

Definition light2 (input : LightingPixelShaderInput F) : float3 F * float3 F :=
  cellLight (worldPosition input) (renormalised input) (cameraDirection input)
    (gLight2Position cb) (gLight2Colour cb).

Definition main (input : LightingPixelShaderInput F) : float4 F :=
  let '(diffuseLight1, specularLight1) := light1 input in
  let '(diffuseLight2, specularLight2) := light2 input in
  let textureColour := Sample DiffuseMap TexSampler (uv input) in
  let diffuseMaterialColour := rgb textureColour in
  let specularMaterialColour := chan_a textureColour in
  let finalColour :=
    vadd (vmul (vadd (vadd (gAmbientColour cb) diffuseLight1) diffuseLight2)
               diffuseMaterialColour)
         (vscale (vadd specularLight1 specularLight2) specularMaterialColour) in
  float4_of finalColour (lit 1).

End Shader.

End CellShading_ps.

(** ** Scrolling_ps.hlsl *)

Module Scrolling_ps.

Section Shader.

Context {F : Type} `{Scalar F}.
Local Open Scope hlsl_scope.

Variable SamplerState : Type.

(** Registers t0, s0. *)
Variable DiffuseMap : Texture2D F SamplerState.
Variable Bilinear : SamplerState.

Variable cb : PerFrameConstants F.

(** Assignments to the components of the local [colour]. *)
Definition set_rgb (c : float4 F) (t : float3 F) : float4 F :=
  mkFloat4 (f3x t) (f3y t) (f3z t) (f4w c).
Definition set_r (c : float4 F) (r : F) : float4 F := mkFloat4 r (f4y c) (f4z c) (f4w c).
Definition set_g (c : float4 F) (g : F) : float4 F := mkFloat4 (f4x c) g (f4z c) (f4w c).
Definition set_b (c : float4 F) (b : F) : float4 F := mkFloat4 (f4x c) (f4y c) b (f4w c).
Definition set_a (c : float4 F) (a : F) : float4 F := mkFloat4 (f4x c) (f4y c) (f4z c) a.

(** [input.uv.y += shift] *)
Definition scrolled (input : SimplePixelShaderInput F) : SimplePixelShaderInput F :=
  {| simple_uv := mkFloat2 (f2x (simple_uv input)) (f2y (simple_uv input) + shift cb) |}.

(** [colour0] is the content of the local [float4 colour] at its
    declaration, which the source leaves uninitialised. *)
Definition main (colour0 : float4 F) (input : SimplePixelShaderInput F) : float4 F :=
  let input := scrolled input in
  let textureColour := rgb (Sample DiffuseMap Bilinear (simple_uv input)) in
  let colour := colour0 in
  let colour := set_rgb colour textureColour in
  let colour := set_r colour (f4x colour * lit 0.3) in
  let colour := set_g colour (f4y colour * lit 0.7) in
  let colour := set_b colour (f4z colour * lit 0.2) in
  let colour := set_a colour (lit 1) in
  colour.

End Shader.

End Scrolling_ps.

(** ** Scene.cpp: the frame driver

    The render functions are straight-line sequences of calls on the device
    context; each is embedded as the list of calls it makes, in program
    order, and run on an explicit model of the context. Assignments to the
    CPU-side structures [gPerFrameConstants] and [gPerModelConstants] are
    not calls on the context and do not appear. *)

Module Scene.

Definition NUM_LIGHTS : nat := 2.

Inductive Model : Type :=
  | gTeapot | gSphere | gCube | gFloor | gTroll
  | gLights_model (i : nat).

Inductive RenderTargetView : Type := gBackBufferRenderTarget.

Inductive DepthStencilView : Type :=
  | gShadowMap1DepthStencil | gShadowMap2DepthStencil | gDepthStencil.

Inductive ShaderResourceView : Type :=
  | gShadowMap1SRV | gShadowMap2SRV | gCellMapSRV
  | gTeapotDiffuseSpecularMapSRV | gSphereDiffuseSpecularMapSRV
  | gCubeDiffuseSpecularMapSRV | gFloorDiffuseSpecularMapSRV
  | gLightDiffuseMapSRV | gTrollDiffuseMapSRV.

(** The two shadow-map textures, each viewed by one depth-stencil view and
    one shader-resource view (created in [InitGeometry]). *)
Inductive ShadowTexture : Type := gShadowMap1Texture | gShadowMap2Texture.

Definition dsvTexture (v : DepthStencilView) : option ShadowTexture :=
  match v with
  | gShadowMap1DepthStencil => Some gShadowMap1Texture
  | gShadowMap2DepthStencil => Some gShadowMap2Texture
  | gDepthStencil => None
  end.

Definition srvTexture (v : ShaderResourceView) : option ShadowTexture :=
  match v with
  | gShadowMap1SRV => Some gShadowMap1Texture
  | gShadowMap2SRV => Some gShadowMap2Texture
  | _ => None
  end.

Inductive VertexShader : Type :=
  | gPixelLightingVertexShader | gBasicTransformVertexShader
  | gWigglingVertexShader | gCellShadingVertexShader
  | gCellShadingOutlineVertexShader.

Inductive PixelShader : Type :=
  | gPixelLightingPixelShader | gLightModelPixelShader | gDepthOnlyPixelShader
  | gScrollingPixelShader | gMixingTexturesPixelShader
  | gCellShadingPixelShader | gCellShadingOutlinePixelShader.

Inductive BlendState : Type := gNoBlendingState | gAdditiveBlendingState.
Inductive DepthStencilState : Type := gUseDepthBufferState | gDepthReadOnlyState.
Inductive RasterizerState : Type := gCullBackState | gCullFrontState | gCullNoneState.
Inductive SamplerState : Type := gAnisotropic4xSampler | gPointSampler.

Inductive Dim : Type := gShadowMapSize | gViewportWidth | gViewportHeight.

(** Whose matrices [UpdateConstantBuffer] uploads with the per-frame data. *)
Inductive ViewSource : Type := LightView (lightIndex : nat) | CameraView.

Inductive Cmd : Type :=
  | RSSetViewports (Width Height : Dim)
  | OMSetRenderTargets (rtv : option RenderTargetView) (dsv : option DepthStencilView)
  | ClearDepthStencilView (dsv : DepthStencilView) (Depth : Q)
  | ClearRenderTargetView (rtv : RenderTargetView)
  | UpdateConstantBuffer_PerFrame (view : ViewSource)
  | VSSetConstantBuffers (StartSlot : nat)
  | PSSetConstantBuffers (StartSlot : nat)
  | VSSetShader (s : VertexShader)
  | PSSetShader (s : PixelShader)
  | OMSetBlendState (s : BlendState)
  | OMSetDepthStencilState (s : DepthStencilState)
  | RSSetState (s : RasterizerState)
  | PSSetShaderResources (StartSlot : nat) (srv : option ShaderResourceView)
  | PSSetSamplers (StartSlot : nat) (s : SamplerState)
  | Render (m : Model)
  | Present (SyncInterval : nat).

(** Render the scene from the given light's point of view. *)
Definition RenderDepthBufferFromLight (lightIndex : nat) : list Cmd :=
  [ UpdateConstantBuffer_PerFrame (LightView lightIndex);
    VSSetConstantBuffers 0;
    PSSetConstantBuffers 0;
    VSSetShader gBasicTransformVertexShader;
    PSSetShader gDepthOnlyPixelShader;
    OMSetBlendState gNoBlendingState;
    OMSetDepthStencilState gUseDepthBufferState;
    RSSetState gCullFrontState;
    Render gFloor;
    Render gTeapot;
    Render gSphere;
    Render gCube;
    Render gTroll ].

(** Render everything in the scene from the camera. *)
Definition RenderSceneFromCamera : list Cmd :=
  [ UpdateConstantBuffer_PerFrame CameraView;
    VSSetConstantBuffers 0;
    PSSetConstantBuffers 0;
    (* lit models *)
    VSSetShader gPixelLightingVertexShader;
    PSSetShader gPixelLightingPixelShader;
    OMSetBlendState gNoBlendingState;
    OMSetDepthStencilState gUseDepthBufferState;
    RSSetState gCullBackState;
    PSSetShaderResources 0 (Some gFloorDiffuseSpecularMapSRV);
    PSSetSamplers 0 gAnisotropic4xSampler;
    Render gFloor;
    PSSetShaderResources 0 (Some gTeapotDiffuseSpecularMapSRV);
    Render gTeapot;
    PSSetShader gMixingTexturesPixelShader;
    PSSetShaderResources 0 (Some gCubeDiffuseSpecularMapSRV);
    PSSetShaderResources 3 (Some gFloorDiffuseSpecularMapSRV);
    Render gCube;
    PSSetShader gScrollingPixelShader;
    VSSetShader gWigglingVertexShader;
    PSSetShaderResources 0 (Some gSphereDiffuseSpecularMapSRV);
    Render gSphere;
    (* troll, first pass: outline *)
    VSSetShader gCellShadingOutlineVertexShader;
    PSSetShader gCellShadingOutlinePixelShader;
    OMSetBlendState gNoBlendingState;
    OMSetDepthStencilState gUseDepthBufferState;
    RSSetState gCullFrontState;
    Render gTroll;
    (* troll, second pass: cell shading *)
    VSSetShader gCellShadingVertexShader;
    PSSetShader gCellShadingPixelShader;
    RSSetState gCullBackState;
    PSSetShaderResources 0 (Some gTrollDiffuseMapSRV);
    PSSetSamplers 0 gAnisotropic4xSampler;
    PSSetShaderResources 1 (Some gCellMapSRV);
    PSSetSamplers 1 gPointSampler;
    Render gTroll;
    (* lights *)
    VSSetShader gBasicTransformVertexShader;
    PSSetShader gLightModelPixelShader;
    PSSetShaderResources 0 (Some gLightDiffuseMapSRV);
    PSSetSamplers 0 gAnisotropic4xSampler;
    OMSetBlendState gAdditiveBlendingState;
    OMSetDepthStencilState gDepthReadOnlyState;
    RSSetState gCullNoneState ]
  ++ map (fun i => Render (gLights_model i)) (seq 0 NUM_LIGHTS).

Definition RenderScene (lockFPS : bool) : list Cmd :=
  [ RSSetViewports gShadowMapSize gShadowMapSize;
    OMSetRenderTargets None (Some gShadowMap1DepthStencil);
    ClearDepthStencilView gShadowMap1DepthStencil 1.0 ]
  ++ RenderDepthBufferFromLight 0
  ++ [ OMSetRenderTargets None (Some gShadowMap2DepthStencil);
       ClearDepthStencilView gShadowMap2DepthStencil 1.0 ]
  ++ RenderDepthBufferFromLight 1
  ++ [ OMSetRenderTargets (Some gBackBufferRenderTarget) (Some gDepthStencil);
       ClearRenderTargetView gBackBufferRenderTarget;
       ClearDepthStencilView gDepthStencil 1.0;
       RSSetViewports gViewportWidth gViewportHeight;
       PSSetShaderResources 1 (Some gShadowMap1SRV);
       PSSetShaderResources 2 (Some gShadowMap2SRV);
       PSSetSamplers 1 gPointSampler ]
  ++ RenderSceneFromCamera
  ++ [ PSSetShaderResources 1 None;
       PSSetShaderResources 2 None;
       Present (if lockFPS then 1 else 0) ].

(** The frame loop: [RenderScene] called once per frame, [lockFPS] being
    whatever [UpdateScene] left it at before each call. *)
Definition RenderFrames (locks : list bool) : list Cmd :=
  flat_map RenderScene locks.

(** *** The device context *)

Record Context : Type := mkContext {
  renderTarget : option RenderTargetView;
  depthStencil : option DepthStencilView;
  viewport : option (Dim * Dim);
  vertexShader : option VertexShader;
  pixelShader : option PixelShader;
  blendState : option BlendState;
  depthStencilState : option DepthStencilState;
  rasterizerState : option RasterizerState;
  psResources : nat -> option ShaderResourceView;
  psSamplers : nat -> option SamplerState
}.

(** A context on which nothing has been bound yet. *)
Definition freshContext : Context :=
  mkContext None None None None None None None None (fun _ => None) (fun _ => None).

Definition upd {A : Type} (f : nat -> A) (slot : nat) (a : A) : nat -> A :=
  fun s => if Nat.eqb s slot then a else f s.

Definition exec (c : Cmd) (ctx : Context) : Context :=
  match ctx with
  | mkContext rt ds vp vs ps bs dss rs res smp =>
    match c with
    | RSSetViewports w h => mkContext rt ds (Some (w, h)) vs ps bs dss rs res smp
    | OMSetRenderTargets rtv dsv => mkContext rtv dsv vp vs ps bs dss rs res smp
    | VSSetShader s => mkContext rt ds vp (Some s) ps bs dss rs res smp
    | PSSetShader s => mkContext rt ds vp vs (Some s) bs dss rs res smp
    | OMSetBlendState s => mkContext rt ds vp vs ps (Some s) dss rs res smp
    | OMSetDepthStencilState s => mkContext rt ds vp vs ps bs (Some s) rs res smp
    | RSSetState s => mkContext rt ds vp vs ps bs dss (Some s) res smp
    | PSSetShaderResources slot srv => mkContext rt ds vp vs ps bs dss rs (upd res slot srv) smp
    | PSSetSamplers slot s => mkContext rt ds vp vs ps bs dss rs res (upd smp slot (Some s))
    | ClearDepthStencilView _ _ | ClearRenderTargetView _
    | UpdateConstantBuffer_PerFrame _
    | VSSetConstantBuffers _ | PSSetConstantBuffers _
    | Render _ | Present _ => ctx
    end
  end.

Definition execAll (cmds : list Cmd) (ctx : Context) : Context :=
  fold_left (fun ctx c => exec c ctx) cmds ctx.

(** The contexts reached after each call, in order. *)
Fixpoint contexts (cmds : list Cmd) (ctx : Context) : list Context :=
  match cmds with
  | [] => []
  | c :: cmds => exec c ctx :: contexts cmds (exec c ctx)
  end.

(** The work submitted to the GPU: clears, draws (with the context they are
    issued under) and presents. *)
Inductive Entry : Type :=
  | LClearDepth (dsv : DepthStencilView) (Depth : Q)
  | LClearTarget (rtv : RenderTargetView)
  | LDraw (m : Model) (ctx : Context)
  | LPresent (SyncInterval : nat).

Definition submitted (c : Cmd) (ctx : Context) : list Entry :=
  match c with
  | ClearDepthStencilView dsv d => [LClearDepth dsv d]
  | ClearRenderTargetView rtv => [LClearTarget rtv]
  | Render m => [LDraw m ctx]
  | Present n => [LPresent n]
  | _ => []
  end.

Fixpoint gpuLog (cmds : list Cmd) (ctx : Context) : list Entry :=
  match cmds with
  | [] => []
  | c :: cmds => submitted c ctx ++ gpuLog cmds (exec c ctx)
  end.

End Scene.

(** ** Initialisation: Shader.cpp [LoadShaders] and Scene.cpp [InitGeometry]

    C++ statements are run in a small monad over the globals, with early
    [return] and exceptions. The file system and the Direct3D device are
    an explicit [World] that answers each creation call. *)

Module Cpp.

Inductive Resource : Type :=
  | MeshPtr (file : string)
  | VS (s : Scene.VertexShader)
  | PS (s : Scene.PixelShader)
  | gPerFrameConstantBuffer
  | gPerModelConstantBuffer
  | TextureOf (srv : Scene.ShaderResourceView)
  | SRV (srv : Scene.ShaderResourceView)
  | ShadowMapTexture (t : Scene.ShadowTexture)
  | DSV (dsv : Scene.DepthStencilView)
  | States.

Record Globals : Type := mkGlobals {
  gLastError : string;
  (** The resources created so far (the globals known to be non-null). *)
  created : list Resource
}.

Record World : Type := {
  (** [new Mesh(file)]: [None] when the mesh is constructed, [Some what]
      when the constructor throws [std::runtime_error(what)]. *)
  newMesh : string -> option string;
  (** Whether the call yields a shader rather than [nullptr]. *)
  LoadVertexShader : string -> bool;
  LoadPixelShader : string -> bool;
  (** Whether [CreateConstantBuffer] yields a buffer for this global. *)
  CreateConstantBuffer : Resource -> bool;
  (** [LoadTexture(file, &resource, &srv)], keyed by file and view. *)
  LoadTexture : string -> Scene.ShaderResourceView -> bool;
  (** Whether the device call succeeds (not [FAILED]). *)
  CreateTexture2D : Scene.ShadowTexture -> bool;
  CreateDepthStencilView : Scene.DepthStencilView -> bool;
  CreateShaderResourceView : Scene.ShaderResourceView -> bool;
  CreateStates : bool
}.

Inductive Outcome (A : Type) : Type :=
  | Normal (a : A)
  | Returned (b : bool)
  | Thrown (what : string).
Arguments Normal {A} a.
Arguments Returned {A} b.
Arguments Thrown {A} what.

Definition Stmt (A : Type) : Type := Globals -> Outcome A * Globals.

Definition ret {A : Type} (a : A) : Stmt A := fun g => (Normal a, g).

Definition bind {A B : Type} (m : Stmt A) (k : A -> Stmt B) : Stmt B :=
  fun g =>
    match m g with
    | (Normal a, g') => k a g'
    | (Returned b, g') => (Returned b, g')
    | (Thrown what, g') => (Thrown what, g')
    end.

Declare Scope cpp_scope.
Delimit Scope cpp_scope with cpp.
Notation "x <- m ;; k" := (bind m (fun x => k))
  (at level 61, m at next level, right associativity) : cpp_scope.
Notation "m ;; k" := (bind m (fun _ => k))
  (at level 61, right associativity) : cpp_scope.
Local Open Scope cpp_scope.

Definition return_ {A : Type} (b : bool) : Stmt A := fun g => (Returned b, g).
Definition throw {A : Type} (what : string) : Stmt A := fun g => (Thrown what, g).

(** [try { body } catch (std::runtime_error e) { handler(e.what()) }] *)
Definition try_catch (body : Stmt unit) (handler : string -> Stmt unit) : Stmt unit :=
  fun g =>
    match body g with
    | (Thrown what, g') => handler what g'
    | r => r
    end.

Definition set_gLastError (msg : string) : Stmt unit :=
  fun g => (Normal tt, mkGlobals msg (created g)).

Definition Resource_eq_dec (a b : Resource) : {a = b} + {a <> b}.
Proof. decide equality; try apply string_dec; decide equality. Defined.

(** The non-null globals after [global = value;]: the global holds what
    the call returned, whatever it held before; a call that fails returns
    [nullptr]. *)
Definition stored (r : Resource) (ok : bool) (globals : list Resource) : list Resource :=
  (if ok then [r] else []) ++ remove Resource_eq_dec r globals.

(** [global = Create...(...);]: the result is whether the global is now
    non-null. *)
Definition assign (r : Resource) (ok : bool) : Stmt bool :=
  fun g => (Normal ok, mkGlobals (gLastError g) (stored r ok (created g))).

(** [Create...(..., &global)]: a call that succeeds fills the global in.
    What a call that fails leaves in it is the callee's doing; the global
    is taken to keep what it held. *)
Definition fill (r : Resource) (ok : bool) : Stmt bool :=
  fun g => (Normal ok, mkGlobals (gLastError g) ((if ok then [r] else []) ++ created g)).

Definition isShader (r : Resource) : bool :=
  match r with VS _ | PS _ => true | _ => false end.

(** What a call of a [bool] function yields: its result, or nothing when
    an exception escapes it. *)
Definition call (body : Stmt bool) (g : Globals) : option bool * Globals :=
  match body g with
  | (Normal b, g') => (Some b, g')
  | (Returned b, g') => (Some b, g')
  | (Thrown _, g') => (None, g')
  end.

Section Init.

Variable w : World.

Import Scene.

Definition loadVS (s : VertexShader) (shaderName : string) : Stmt bool :=
  assign (VS s) (LoadVertexShader w shaderName).
Definition loadPS (s : PixelShader) (shaderName : string) : Stmt bool :=
  assign (PS s) (LoadPixelShader w shaderName).

(** Shader.cpp *)
Definition LoadShaders : Stmt bool :=
  pixelLightingVS <- loadVS gPixelLightingVertexShader "ShadowMapping_vs" ;;
  pixelLightingPS <- loadPS gPixelLightingPixelShader "ShadowMapping_ps" ;;
  basicTransformVS <- loadVS gBasicTransformVertexShader "BasicTransform_vs" ;;
  lightModelPS <- loadPS gLightModelPixelShader "LightModel_ps" ;;
  depthOnlyPS <- loadPS gDepthOnlyPixelShader "DepthOnly_ps" ;;
  wigglingVS <- loadVS gWigglingVertexShader "Wiggling_vs" ;;
  scrollingPS <- loadPS gScrollingPixelShader "Scrolling_ps" ;;
  mixingTexturesPS <- loadPS gMixingTexturesPixelShader "MixingTextures_ps" ;;
  cellShadingVS <- loadVS gCellShadingVertexShader "CellShading_vs" ;;
  cellShadingPS <- loadPS gCellShadingPixelShader "CellShading_ps" ;;
  cellShadingOutlineVS <- loadVS gCellShadingOutlineVertexShader "CellShadingOutline_vs" ;;
  cellShadingOutlinePS <- loadPS gCellShadingOutlinePixelShader "CellShadingOutline_ps" ;;
  if negb pixelLightingVS || negb pixelLightingPS || negb wigglingVS ||
     negb basicTransformVS || negb lightModelPS || negb depthOnlyPS ||
     negb scrollingPS || negb mixingTexturesPS || negb cellShadingVS ||
     negb cellShadingPS || negb cellShadingOutlineVS ||
     negb cellShadingOutlinePS
  then set_gLastError "Error loading shaders" ;; ret false
  else ret true.

Definition new_Mesh (file : string) : Stmt unit :=
  match newMesh w file with
  | None => assign (MeshPtr file) true ;; ret tt
  | Some what => throw what
  end.

Definition loadTexture (file : string) (srv : ShaderResourceView) : Stmt bool :=
  fun g =>
    (Normal (LoadTexture w file srv),
     mkGlobals (gLastError g)
       ((if LoadTexture w file srv then [SRV srv; TextureOf srv] else [])
        ++ created g)).

(** [a || b] on calls: the right operand runs only when the left is false. *)
Definition or_else (a b : Stmt bool) : Stmt bool :=
  x <- a ;; if x then ret true else b.

Definition failed (m : Stmt bool) : Stmt bool :=
  ok <- m ;; ret (negb ok).

(** [if (cond) { gLastError = msg; return false; }] *)
Definition fail_if (cond : Stmt bool) (msg : string) : Stmt unit :=
  c <- cond ;; if c then set_gLastError msg ;; return_ false else ret tt.

(** Scene.cpp *)
Definition InitGeometry : Stmt bool :=
  try_catch
    (new_Mesh "Models/Teapot.x" ;;
     new_Mesh "Models/Sphere.x" ;;
     new_Mesh "Models/Cube.x" ;;
     new_Mesh "Models/Floor.x" ;;
     new_Mesh "Models/Light.x" ;;
     new_Mesh "Models/troll.x")
    (fun what => set_gLastError what ;; return_ false) ;;
  fail_if (failed LoadShaders) "Error loading shaders" ;;
  perFrame <- assign gPerFrameConstantBuffer (CreateConstantBuffer w gPerFrameConstantBuffer) ;;
  perModel <- assign gPerModelConstantBuffer (CreateConstantBuffer w gPerModelConstantBuffer) ;;
  fail_if (ret (negb perFrame || negb perModel)) "Error creating constant buffers" ;;
  fail_if
    (or_else (failed (loadTexture "Textures/PatternDiffuseSpecular.dds" gTeapotDiffuseSpecularMapSRV))
    (or_else (failed (loadTexture "Textures/PatternDiffuseSpecular.dds" gSphereDiffuseSpecularMapSRV))
    (or_else (failed (loadTexture "Textures/StoneDiffuseSpecular.dds" gCubeDiffuseSpecularMapSRV))
    (or_else (failed (loadTexture "Textures/WoodDiffuseSpecular.dds" gFloorDiffuseSpecularMapSRV))
    (or_else (failed (loadTexture "Textures/Flare.jpg" gLightDiffuseMapSRV))
    (or_else (failed (loadTexture "Textures/Green.png" gTrollDiffuseMapSRV))
             (failed (loadTexture "Textures/CellGradient.png" gCellMapSRV))))))))
    "Error loading textures" ;;
  fail_if (failed (fill (ShadowMapTexture gShadowMap1Texture) (CreateTexture2D w gShadowMap1Texture)))
    "Error creating shadow map texture" ;;
  fail_if (failed (fill (DSV gShadowMap1DepthStencil) (CreateDepthStencilView w gShadowMap1DepthStencil)))
    "Error creating shadow map depth stencil view" ;;
  fail_if (failed (fill (SRV gShadowMap1SRV) (CreateShaderResourceView w gShadowMap1SRV)))
    "Error creating shadow map shader resource view" ;;
  fail_if (failed (fill (ShadowMapTexture gShadowMap2Texture) (CreateTexture2D w gShadowMap2Texture)))
    "Error creating shadow map texture" ;;
  fail_if (failed (fill (DSV gShadowMap2DepthStencil) (CreateDepthStencilView w gShadowMap2DepthStencil)))
    "Error creating shadow map depth stencil view" ;;
  fail_if (failed (fill (SRV gShadowMap2SRV) (CreateShaderResourceView w gShadowMap2SRV)))
    "Error creating shadow map shader resource view" ;;
  fail_if (failed (fill States (CreateStates w))) "Error creating states" ;;
  return_ true.

End Init.

(** *** The steps of initialisation, as the design document lists them *)

Section Steps.

Variable w : World.

Import Scene.

Definition meshFiles : list string :=
  [ "Models/Teapot.x"; "Models/Sphere.x"; "Models/Cube.x";
    "Models/Floor.x"; "Models/Light.x"; "Models/troll.x" ]%string.

Definition vertexShaders : list (VertexShader * string) :=
  [ (gPixelLightingVertexShader, "ShadowMapping_vs");
    (gBasicTransformVertexShader, "BasicTransform_vs");
    (gWigglingVertexShader, "Wiggling_vs");
    (gCellShadingVertexShader, "CellShading_vs");
    (gCellShadingOutlineVertexShader, "CellShadingOutline_vs") ]%string.

Definition pixelShaders : list (PixelShader * string) :=
  [ (gPixelLightingPixelShader, "ShadowMapping_ps");
    (gLightModelPixelShader, "LightModel_ps");
    (gDepthOnlyPixelShader, "DepthOnly_ps");
    (gScrollingPixelShader, "Scrolling_ps");
    (gMixingTexturesPixelShader, "MixingTextures_ps");
    (gCellShadingPixelShader, "CellShading_ps");
    (gCellShadingOutlinePixelShader, "CellShadingOutline_ps") ]%string.

Definition textures : list (string * ShaderResourceView) :=
  [ ("Textures/PatternDiffuseSpecular.dds", gTeapotDiffuseSpecularMapSRV);
    ("Textures/PatternDiffuseSpecular.dds", gSphereDiffuseSpecularMapSRV);
    ("Textures/StoneDiffuseSpecular.dds", gCubeDiffuseSpecularMapSRV);
    ("Textures/WoodDiffuseSpecular.dds", gFloorDiffuseSpecularMapSRV);
    ("Textures/Flare.jpg", gLightDiffuseMapSRV);
    ("Textures/Green.png", gTrollDiffuseMapSRV);
    ("Textures/CellGradient.png", gCellMapSRV) ]%string.

Definition shadersLoad : bool :=
  forallb (fun s => LoadVertexShader w (snd s)) vertexShaders &&
  forallb (fun s => LoadPixelShader w (snd s)) pixelShaders.

Definition buffersCreated : bool :=
  CreateConstantBuffer w gPerFrameConstantBuffer &&
  CreateConstantBuffer w gPerModelConstantBuffer.

Definition texturesLoad : bool :=
  forallb (fun t => LoadTexture w (fst t) (snd t)) textures.

(** The non-null globals after the twelve assignments of [LoadShaders]. *)
Definition storedShaders (globals : list Resource) : list Resource :=
  stored (PS gCellShadingOutlinePixelShader) (LoadPixelShader w "CellShadingOutline_ps")
  (stored (VS gCellShadingOutlineVertexShader) (LoadVertexShader w "CellShadingOutline_vs")
  (stored (PS gCellShadingPixelShader) (LoadPixelShader w "CellShading_ps")
  (stored (VS gCellShadingVertexShader) (LoadVertexShader w "CellShading_vs")
  (stored (PS gMixingTexturesPixelShader) (LoadPixelShader w "MixingTextures_ps")
  (stored (PS gScrollingPixelShader) (LoadPixelShader w "Scrolling_ps")
  (stored (VS gWigglingVertexShader) (LoadVertexShader w "Wiggling_vs")
  (stored (PS gDepthOnlyPixelShader) (LoadPixelShader w "DepthOnly_ps")
  (stored (PS gLightModelPixelShader) (LoadPixelShader w "LightModel_ps")
  (stored (VS gBasicTransformVertexShader) (LoadVertexShader w "BasicTransform_vs")
  (stored (PS gPixelLightingPixelShader) (LoadPixelShader w "ShadowMapping_ps")
  (stored (VS gPixelLightingVertexShader) (LoadVertexShader w "ShadowMapping_vs")
     globals))))))))))).

(** [None] when the step succeeds, the message it reports when it fails. *)
Definition step (ok : bool) (msg : string) : option string :=
  if ok then None else Some msg.

Definition initSteps : list (option string) :=
  map (newMesh w) meshFiles ++
  [ step shadersLoad "Error loading shaders";
    step buffersCreated "Error creating constant buffers";
    step texturesLoad "Error loading textures";
    step (CreateTexture2D w gShadowMap1Texture) "Error creating shadow map texture";
    step (CreateDepthStencilView w gShadowMap1DepthStencil)
      "Error creating shadow map depth stencil view";
    step (CreateShaderResourceView w gShadowMap1SRV)
      "Error creating shadow map shader resource view";
    step (CreateTexture2D w gShadowMap2Texture) "Error creating shadow map texture";
    step (CreateDepthStencilView w gShadowMap2DepthStencil)
      "Error creating shadow map depth stencil view";
    step (CreateShaderResourceView w gShadowMap2SRV)
      "Error creating shadow map shader resource view";
    step (CreateStates w) "Error creating states" ]%string.

(** The message of the first step that fails, if any does. *)
Definition firstFailure : option string :=
  fold_right (fun s rest => match s with Some msg => Some msg | None => rest end)
    None initSteps.

Definition everyStepSucceeds : bool :=
  forallb (fun s => match s with None => true | Some _ => false end) initSteps.

(** Everything [InitGeometry] is to create. *)
Definition allResources : list Resource :=
  map MeshPtr meshFiles
  ++ map (fun s => VS (fst s)) vertexShaders
  ++ map (fun s => PS (fst s)) pixelShaders
  ++ [gPerFrameConstantBuffer; gPerModelConstantBuffer]
  ++ flat_map (fun t => [TextureOf (snd t); SRV (snd t)]) textures
  ++ [ ShadowMapTexture gShadowMap1Texture; DSV gShadowMap1DepthStencil;
       SRV gShadowMap1SRV;
       ShadowMapTexture gShadowMap2Texture; DSV gShadowMap2DepthStencil;
       SRV gShadowMap2SRV;
       States ].

End Steps.

End Cpp.

(** ** Vocabulary of the frame properties *)

Module FrameTerms.
Import Scene.

(** The models [RenderDepthBufferFromLight] draws, in its order. *)
Definition shadowCasters : list Model := [gFloor; gTeapot; gSphere; gCube; gTroll].

(** A draw of [m] into the depth target [dsv] alone, no colour target. *)
Definition drawnInto (dsv : DepthStencilView) (m : Model) (e : Entry) : Prop :=
  exists ctx, e = LDraw m ctx /\
              renderTarget ctx = None /\ depthStencil ctx = Some dsv.

(** The log of one shadow pass: the depth target cleared to 1.0, then
    every shadow caster drawn into it. *)
Definition shadowPassLog (dsv : DepthStencilView) (log : list Entry) : Prop :=
  exists draws, log = LClearDepth dsv 1.0 :: draws /\
                Forall2 (drawnInto dsv) shadowCasters draws.

(** What the camera pass submits: work on the back buffer and the main
    depth buffer, and no present. *)
Definition cameraEntry (e : Entry) : Prop :=
  match e with
  | LDraw _ ctx => renderTarget ctx = Some gBackBufferRenderTarget /\
                   depthStencil ctx = Some gDepthStencil
  | LClearDepth dsv _ => dsv = gDepthStencil
  | LClearTarget rtv => rtv = gBackBufferRenderTarget
  | LPresent _ => False
  end.

Definition isDraw (e : Entry) : bool :=
  match e with LDraw _ _ => true | _ => false end.

(** Idle -> ShadowPass(light0) -> ShadowPass(light1) -> CameraPass ->
    Present -> Idle, as a shape of the log of one frame. *)
Definition frameLog (log : list Entry) : Prop :=
  exists shadow1 shadow2 camera sync,
    log = shadow1 ++ shadow2 ++ camera ++ [LPresent sync] /\
    shadowPassLog gShadowMap1DepthStencil shadow1 /\
    shadowPassLog gShadowMap2DepthStencil shadow2 /\
    Forall cameraEntry camera /\
    existsb isDraw camera = true.

(** A shadow-map texture bound as the depth target while one of its
    shader-resource views is bound to a pixel-shader slot. *)
Definition hazard (ctx : Context) : Prop :=
  exists slot srv dsv t,
    psResources ctx slot = Some srv /\ depthStencil ctx = Some dsv /\
    srvTexture srv = Some t /\ dsvTexture dsv = Some t.

(** No pixel-shader slot holds a shadow-map view. *)
Definition shadowMapsUnbound (ctx : Context) : Prop :=
  forall slot srv, psResources ctx slot = Some srv -> srvTexture srv = None.

(** Shadow-map views are bound as shader inputs only while the depth
    target is the main depth buffer. *)
Definition readPhaseOnly (ctx : Context) : Prop :=
  forall slot srv,
    psResources ctx slot = Some srv -> srvTexture srv <> None ->
    depthStencil ctx = Some gDepthStencil.

(** The draws of a log, and the pairs of consecutive elements of a list. *)
Definition drawsOf (log : list Entry) : list (Model * Context) :=
  flat_map (fun e => match e with LDraw m ctx => [(m, ctx)] | _ => [] end) log.

Definition adjacent {A : Type} (l : list A) : list (A * A) := combine l (tl l).

(** The pipeline state a draw is issued under. *)
Definition PipelineState : Type :=
  (option BlendState * option DepthStencilState * option RasterizerState)%type.

Definition statesAt (ctx : Context) : PipelineState :=
  (blendState ctx, depthStencilState ctx, rasterizerState ctx).

Definition defaults : PipelineState :=
  (Some gNoBlendingState, Some gUseDepthBufferState, Some gCullBackState).

Definition shadowPassStates : PipelineState :=
  (Some gNoBlendingState, Some gUseDepthBufferState, Some gCullFrontState).

(** A render group is told by the shader pair bound when it draws. *)
Definition group (ctx : Context) : option VertexShader * option PixelShader :=
  (vertexShader ctx, pixelShader ctx).

(** The two groups that alter the default states: the cell-shading
    outline and the light markers. *)
Definition alteringGroup (ctx : Context) : Prop :=
  pixelShader ctx = Some gCellShadingOutlinePixelShader \/
  pixelShader ctx = Some gLightModelPixelShader.

(** The camera-pass groups that expect the default states. *)
Definition defaultGroup (ctx : Context) : Prop :=
  pixelShader ctx = Some gPixelLightingPixelShader \/
  pixelShader ctx = Some gMixingTexturesPixelShader \/
  pixelShader ctx = Some gScrollingPixelShader \/
  pixelShader ctx = Some gCellShadingPixelShader.

(** The contexts the draws of a call sequence are issued under. *)
Definition drawContexts (cmds : list Cmd) (ctx0 : Context) : list Context :=
  map snd (drawsOf (gpuLog cmds ctx0)).

(** A draw seen through its render group and its pipeline state. *)
Definition Stamp : Type :=
  (option VertexShader * option PixelShader * PipelineState)%type.

Definition stamp (ctx : Context) : Stamp := (group ctx, statesAt ctx).

Definition lightMarkerStates : PipelineState :=
  (Some gAdditiveBlendingState, Some gDepthReadOnlyState, Some gCullNoneState).

(** The eighteen draws of a frame: five per shadow pass, then floor,
    teapot, cube, sphere, troll outline, troll, and the two light models. *)
Definition frameStamps : list Stamp :=
  repeat (Some gBasicTransformVertexShader, Some gDepthOnlyPixelShader, shadowPassStates) 10
  ++ [ (Some gPixelLightingVertexShader, Some gPixelLightingPixelShader, defaults);
       (Some gPixelLightingVertexShader, Some gPixelLightingPixelShader, defaults);
       (Some gPixelLightingVertexShader, Some gMixingTexturesPixelShader, defaults);
       (Some gWigglingVertexShader, Some gScrollingPixelShader, defaults);
       (Some gCellShadingOutlineVertexShader, Some gCellShadingOutlinePixelShader,
        shadowPassStates);
       (Some gCellShadingVertexShader, Some gCellShadingPixelShader, defaults);
       (Some gBasicTransformVertexShader, Some gLightModelPixelShader, lightMarkerStates);
       (Some gBasicTransformVertexShader, Some gLightModelPixelShader, lightMarkerStates) ].

(** What holds of two consecutive draws, read off their stamps. *)
Definition restored (s1 s2 : Stamp) : Prop :=
  (snd (fst s1) = Some gCellShadingOutlinePixelShader -> snd s2 = defaults) /\
  (snd (fst s1) = Some gLightModelPixelShader -> fst s2 <> fst s1 ->
   snd (fst s2) = Some gDepthOnlyPixelShader /\ snd s2 = shadowPassStates).

End FrameTerms.

(** ** Vocabulary of the lighting properties *)

Module LightingTerms.

Section Terms.

Context {F : Type} `{Scalar F}.

Variable sqrt : F -> F.

(** What a light adds when it does not reach the pixel: zero diffuse and
    zero specular. *)
Definition noLight : float3 F * float3 F := (splat3 (lit 0), splat3 (lit 0)).

(** The light-clip-space position of a world position. *)
Definition lightClip (V P : float4x4 F) (wp : float3 F) : float4 F :=
  mul P (mul V (float4_of wp (lit 1))).

(** The direction from the pixel to the light. *)
Definition Ldir (lp wp : float3 F) : float3 F := normalize sqrt (vsub lp wp).

End Terms.

End LightingTerms.

(** ** Concrete data for evaluating the shaders in binary32 *)

Module Fixtures.
Import Binary32.

Definition sqrt32 : binary32 -> binary32 := SFsqrt prec emax.

(** The value of a float that is a non-negative integer. *)
Definition naturalValue (a : binary32) : option N :=
  match a with
  | S754_zero _ => Some 0%N
  | S754_finite false m (Zpos e) => Some (N.shiftl (Npos m) (Npos e))
  | S754_finite false m Z0 => Some (Npos m)
  | S754_finite false m (Zneg e) =>
      if N.eqb (N.land (Npos m) (N.ones (Npos e))) 0
      then Some (N.shiftr (Npos m) (Npos e)) else None
  | _ => None
  end.

(** [pow] for the exponents the scene uses (gSpecularPower is 256): a
    non-negative integer exponent, by repeated multiplication; NaN for any
    other exponent. *)
Definition pow32 (a b : binary32) : binary32 :=
  match naturalValue b with
  | Some n => N.iter n (fun acc => fmul acc a) (lit 1)
  | None => S754_nan
  end.

Definition vec (a b c : Q) : float3 binary32 := mkFloat3 (lit a) (lit b) (lit c).

Definition identity : float4x4 binary32 :=
  mkFloat4x4 (mkFloat4 (lit 1) (lit 0) (lit 0) (lit 0))
             (mkFloat4 (lit 0) (lit 1) (lit 0) (lit 0))
             (mkFloat4 (lit 0) (lit 0) (lit 1) (lit 0))
             (mkFloat4 (lit 0) (lit 0) (lit 0) (lit 1)).

(** Both lights hang at (0, 10, 0). Light 1 faces straight up, away from
    the scene below it; light 2 faces straight down. The cone half-angle
    is 45 degrees, as [gSpotlightConeAngle = 90] gives. *)
Definition constants : PerFrameConstants binary32 := {|
  gLight1Position := vec 0 10 0;
  gLight1Colour := vec 1 1 1;
  gLight1Facing := vec 0 1 0;
  gLight1CosHalfAngle := lit 0.7071;
  gLight1ViewMatrix := identity;
  gLight1ProjectionMatrix := identity;
  gLight2Position := vec 0 10 0;
  gLight2Colour := vec 1 1 1;
  gLight2Facing := vec 0 (-1) 0;
  gLight2CosHalfAngle := lit 0.7071;
  gLight2ViewMatrix := identity;
  gLight2ProjectionMatrix := identity;
  gAmbientColour := vec 0.2 0.2 0.3;
  gSpecularPower := lit 256;
  gCameraPosition := vec 0 5 (-5);
  wiggle := lit 0;
  shift := lit 0.25;
  fading := lit 0
|}.

(** The same scene with light 2 turned to face up as well: no light
    reaches anything below. *)
Definition constantsAway : PerFrameConstants binary32 := {|
  gLight1Position := gLight1Position constants;
  gLight1Colour := gLight1Colour constants;
  gLight1Facing := gLight1Facing constants;
  gLight1CosHalfAngle := gLight1CosHalfAngle constants;
  gLight1ViewMatrix := gLight1ViewMatrix constants;
  gLight1ProjectionMatrix := gLight1ProjectionMatrix constants;
  gLight2Position := gLight2Position constants;
  gLight2Colour := gLight2Colour constants;
  gLight2Facing := vec 0 1 0;
  gLight2CosHalfAngle := gLight2CosHalfAngle constants;
  gLight2ViewMatrix := gLight2ViewMatrix constants;
  gLight2ProjectionMatrix := gLight2ProjectionMatrix constants;
  gAmbientColour := gAmbientColour constants;
  gSpecularPower := gSpecularPower constants;
  gCameraPosition := gCameraPosition constants;
  wiggle := wiggle constants;
  shift := shift constants;
  fading := fading constants
|}.

(** A pixel of a floor facing up, below the lights, at light depth 1/2. *)
Definition pixel : LightingPixelShaderInput binary32 := {|
  worldPosition := vec 0 0 0.5;
  worldNormal := vec 0 1 0;
  uv := mkFloat2 (lit 0.5) (lit 0.5)
|}.

(** A texture of one colour. *)
Definition flat (r g b a : Q) : Texture2D binary32 Scene.SamplerState :=
  fun _ _ => mkFloat4 (lit r) (lit g) (lit b) (lit a).

(** A point at the top of the view of a light, projected y = +1, and one
    at the bottom, projected y = -1. *)
Definition topPoint : float4 Q := mkFloat4 0 3 (1 # 2) 3.
Definition bottomPoint : float4 Q := mkFloat4 0 (-1) (1 # 2) 1.

(** A world with no files and a device that creates nothing. *)
Definition barrenWorld : Cpp.World := {|
  Cpp.newMesh := fun file => Some ("Cannot open " ++ file)%string;
  Cpp.LoadVertexShader := fun _ => false;
  Cpp.LoadPixelShader := fun _ => false;
  Cpp.CreateConstantBuffer := fun _ => false;
  Cpp.LoadTexture := fun _ _ => false;
  Cpp.CreateTexture2D := fun _ => false;
  Cpp.CreateDepthStencilView := fun _ => false;
  Cpp.CreateShaderResourceView := fun _ => false;
  Cpp.CreateStates := false
|}.

(** A pixel of the scrolling sphere, a texture that is white on the row
    v = 3/4 and black elsewhere, and an arbitrary content for the local
    the shader leaves uninitialised. *)
Definition simplePixel : SimplePixelShaderInput binary32 :=
  {| simple_uv := mkFloat2 (lit 0.5) (lit 0.5) |}.

Definition stripe : Texture2D binary32 Scene.SamplerState :=
  fun _ loc =>
    if SFeqb (f2y loc) (lit 0.75)
    then mkFloat4 (lit 1) (lit 1) (lit 1) (lit 1)
    else mkFloat4 (lit 0) (lit 0) (lit 0) (lit 1).

Definition garbage : float4 binary32 :=
  mkFloat4 S754_nan S754_nan S754_nan S754_nan.

End Fixtures.

(** ** Shader.cpp: constant buffers and vertex-layout signatures *)

Module ShaderCpp.

(** *** CreateConstantBuffer *)

(** C++ [int] and [UINT] values, as integers reduced to their 32 bits. *)
Definition int32 (z : Z) : Z := ((z + 2147483648) mod 4294967296 - 2147483648)%Z.
Definition uint32 (z : Z) : Z := (z mod 4294967296)%Z.

Inductive BindFlag : Type := D3D11_BIND_CONSTANT_BUFFER.
Inductive UsageFlag : Type := D3D11_USAGE_DYNAMIC.
Inductive CpuAccessFlag : Type := D3D11_CPU_ACCESS_WRITE.

Record D3D11_BUFFER_DESC : Type := {
  BindFlags : BindFlag;
  ByteWidth : Z;
  Usage : UsageFlag;
  CPUAccessFlags : CpuAccessFlag;
  MiscFlags : Z
}.

(** [cbDesc], as [CreateConstantBuffer] fills it in for [size]:
    [ByteWidth = 16 * ((size + 15) / 16)], in [int] arithmetic, stored in a
    [UINT]. *)
Definition cbDesc (size : Z) : D3D11_BUFFER_DESC := {|
  BindFlags := D3D11_BIND_CONSTANT_BUFFER;
  ByteWidth := uint32 (int32 (16 * Z.quot (int32 (size + 15)) 16));
  Usage := D3D11_USAGE_DYNAMIC;
  CPUAccessFlags := D3D11_CPU_ACCESS_WRITE;
  MiscFlags := 0
|}.

(** [CreateBuffer] is the device: the buffer it makes for a description,
    or nothing when the call fails. *)
Definition CreateConstantBuffer {Buffer : Type}
    (CreateBuffer : D3D11_BUFFER_DESC -> option Buffer) (size : Z) : option Buffer :=
  match CreateBuffer (cbDesc size) with
  | None => None
  | Some constantBuffer => Some constantBuffer
  end.

(** *** CreateSignatureForVertexLayout *)

Inductive DXGI_FORMAT : Type :=
  | DXGI_FORMAT_R32G32B32A32_FLOAT
  | DXGI_FORMAT_R32G32B32_FLOAT
  | DXGI_FORMAT_R32G32_FLOAT
  | DXGI_FORMAT_R32_FLOAT
  | DXGI_FORMAT_other (code : N).

(** The fields of an input element that the function reads. *)
Record D3D11_INPUT_ELEMENT_DESC : Type := {
  SemanticName : string;
  SemanticIndex : N;
  Format : DXGI_FORMAT
}.

(** The chain of [if (format == ...)]: the HLSL type, or the early
    [return nullptr]. *)
Definition formatType (format : DXGI_FORMAT) : option string :=
  match format with
  | DXGI_FORMAT_R32G32B32A32_FLOAT => Some "float4"
  | DXGI_FORMAT_R32G32B32_FLOAT => Some "float3"
  | DXGI_FORMAT_R32G32_FLOAT => Some "float2"
  | DXGI_FORMAT_R32_FLOAT => Some "float"
  | DXGI_FORMAT_other _ => None
  end%string.

(** [uint8_t index = static_cast<uint8_t>(SemanticIndex);
     semanticName += ('0' + index);] : the sum is an [int], appended as
    one [char]. *)
Definition indexChar (SemanticIndex : N) : Ascii.ascii :=
  Ascii.ascii_of_N ((48 + SemanticIndex mod 256) mod 256).

Definition semanticName (e : D3D11_INPUT_ELEMENT_DESC) : string :=
  (SemanticName e ++ String (indexChar (SemanticIndex e)) EmptyString)%string.

(** The body of the [for] loop from element [elt] on; [rest] is
    [vertexLayout[elt ..]]. *)
Fixpoint forElements (numElements elt : nat) (rest : list D3D11_INPUT_ELEMENT_DESC)
    (shaderSource : string) : option string :=
  match rest with
  | [] => Some shaderSource
  | e :: rest =>
      match formatType (Format e) with
      | None => None
      | Some type =>
          let shaderSource := (shaderSource ++ type)%string in
          let shaderSource := (shaderSource ++ " ")%string in
          let shaderSource := (shaderSource ++ semanticName e)%string in
          let shaderSource := (shaderSource ++ " : ")%string in
          let shaderSource := (shaderSource ++ semanticName e)%string in
          let shaderSource :=
            if negb (Nat.eqb elt (numElements - 1))
            then (shaderSource ++ " , ")%string else shaderSource in
          forElements numElements (S elt) rest shaderSource
      end
  end.

(** [D3DCompile] is the compiler: the blob for a source, or nothing when
    it fails. [numElements] is the length of [vertexLayout]. *)
Definition CreateSignatureForVertexLayout {Blob : Type}
    (D3DCompile : string -> option Blob)
    (vertexLayout : list D3D11_INPUT_ELEMENT_DESC) : option Blob :=
  match forElements (Datatypes.length vertexLayout) 0 vertexLayout "float4 main(" with
  | None => None
  | Some shaderSource =>
      let shaderSource := (shaderSource ++ ") : SV_Position {return 0;}")%string in
      match D3DCompile shaderSource with
      | None => None
      | Some compiledShader => Some compiledShader
      end
  end.

(** One parameter of the generated [main], and the whole source, said
    directly. *)
Definition parameter (e : D3D11_INPUT_ELEMENT_DESC) : option string :=
  match formatType (Format e) with
  | None => None
  | Some type => Some (type ++ " " ++ semanticName e ++ " : " ++ semanticName e)%string
  end.

Definition supported (e : D3D11_INPUT_ELEMENT_DESC) : bool :=
  match formatType (Format e) with Some _ => true | None => false end.

Definition parameterText (e : D3D11_INPUT_ELEMENT_DESC) : string :=
  match parameter e with Some p => p | None => EmptyString end.

Definition signatureSource (vertexLayout : list D3D11_INPUT_ELEMENT_DESC) : string :=
  ("float4 main(" ++ String.concat " , " (map parameterText vertexLayout)
   ++ ") : SV_Position {return 0;}")%string.

(** *** Vertex layouts to run the function on *)

(** Position, normal and texture coordinate. *)
Definition texturedLayout : list D3D11_INPUT_ELEMENT_DESC :=
  [ {| SemanticName := "position"; SemanticIndex := 0;
       Format := DXGI_FORMAT_R32G32B32_FLOAT |};
    {| SemanticName := "normal"; SemanticIndex := 0;
       Format := DXGI_FORMAT_R32G32B32_FLOAT |};
    {| SemanticName := "uv"; SemanticIndex := 0;
       Format := DXGI_FORMAT_R32G32_FLOAT |} ]%string.

(** Position and a colour of four bytes (DXGI_FORMAT_R8G8B8A8_UNORM is
    format 28). *)
Definition colouredLayout : list D3D11_INPUT_ELEMENT_DESC :=
  [ {| SemanticName := "position"; SemanticIndex := 0;
       Format := DXGI_FORMAT_R32G32B32_FLOAT |};
    {| SemanticName := "colour"; SemanticIndex := 0;
       Format := DXGI_FORMAT_other 28 |} ]%string.

(** A compiler that accepts every source and hands it back. *)
Definition echo (shaderSource : string) : option string := Some shaderSource.

End ShaderCpp.

(** ** Scene.cpp: InitScene, ReleaseResources; Shader.cpp: ReleaseShaders *)

Module Cleanup.
Import Scene Cpp.

Definition Model_eq_dec (a b : Model) : {a = b} + {a <> b}.
Proof. decide equality. apply Nat.eq_dec. Defined.

(** The pointers the scene owns: the globals of [InitGeometry], the models
    that are not null, and whether [gCamera] is not null. *)
Record Pointers : Type := mkPointers {
  d3d : Globals;
  models : list Model;
  camera : bool
}.

Definition nonNull (p : Pointers) (r : Resource) : bool :=
  if in_dec Resource_eq_dec r (created (d3d p)) then true else false.

Definition hasModel (p : Pointers) (m : Model) : bool :=
  if in_dec Model_eq_dec m (models p) then true else false.

(** *** InitScene *)

(** Arguments of the scene set-up calls, kept as written. *)
Inductive Num : Type :=
  | Lit (q : Q)
  | ToRadians (degrees : Q)
  | PowStrength (lightIndex : nat) (exponent : Q).

Inductive Vec : Type :=
  | V3 (x y z : Num)
  | PositionOf (m : Model).

Inductive SceneStmt : Type :=
  | NewModel (m : Model) (mesh : string)
  | SetPosition (m : Model) (v : Vec)
  | SetRotation (m : Model) (v : Vec)
  | SetScale (m : Model) (s : Num)
  | FaceTarget (m : Model) (target : Vec)
  | SetLightColour (i : nat) (v : Vec)
  | SetLightStrength (i : nat) (s : Num)
  | NewCamera
  | CameraSetPosition (v : Vec)
  | CameraSetRotation (v : Vec).

Definition InitScene : list SceneStmt :=
  [ NewModel gTeapot "Models/Teapot.x";
    NewModel gSphere "Models/Sphere.x";
    NewModel gCube "Models/Cube.x";
    NewModel gFloor "Models/Floor.x";
    NewModel gTroll "Models/troll.x";
    SetPosition gTeapot (V3 (Lit 15) (Lit 0) (Lit 0));
    SetRotation gTeapot (V3 (Lit 0) (ToRadians 215) (Lit 0));
    SetPosition gSphere (V3 (Lit 40) (Lit 10) (Lit 30));
    SetRotation gSphere (V3 (Lit 0) (ToRadians (-20)) (Lit 0));
    SetPosition gCube (V3 (Lit (-15)) (Lit 10) (Lit 0));
    SetPosition gTroll (V3 (Lit 10) (Lit 0) (Lit 15));
    SetScale gTroll (Lit 4);
    SetRotation gTroll (V3 (Lit 0) (ToRadians 180) (Lit 0)) ]
  ++ map (fun i => NewModel (gLights_model i) "Models/Light.x") (seq 0 NUM_LIGHTS)
  ++ [ SetLightColour 0 (V3 (Lit 0.8) (Lit 0.8) (Lit 1));
       SetLightStrength 0 (Lit 10);
       SetPosition (gLights_model 0) (V3 (Lit 30) (Lit 20) (Lit 0));
       SetScale (gLights_model 0) (PowStrength 0 0.7);
       FaceTarget (gLights_model 0) (PositionOf gTeapot);
       SetLightColour 1 (V3 (Lit 1) (Lit 0.8) (Lit 0.2));
       SetLightStrength 1 (Lit 40);
       SetPosition (gLights_model 1) (V3 (Lit (-20)) (Lit 30) (Lit 20));
       SetScale (gLights_model 1) (PowStrength 1 0.7);
       FaceTarget (gLights_model 1) (V3 (Lit 0) (Lit 0) (Lit 0));
       NewCamera;
       CameraSetPosition (V3 (Lit 15) (Lit 30) (Lit (-70)));
       CameraSetRotation (V3 (ToRadians 13) (Lit 0) (Lit 0)) ].

(** What a statement of [InitScene] does to the pointers. *)
Definition initStep (s : SceneStmt) (p : Pointers) : Pointers :=
  match s with
  | NewModel m _ =>
      mkPointers (d3d p) (if hasModel p m then models p else m :: models p) (camera p)
  | NewCamera => mkPointers (d3d p) (models p) true
  | _ => p
  end.

Definition runInitScene (p : Pointers) : Pointers :=
  fold_left (fun p s => initStep s p) InitScene p.

(** The models a statement needs to exist, and the mesh it needs loaded. *)
Definition usesModels (s : SceneStmt) : list Model :=
  match s with
  | SetPosition m v | SetRotation m v | FaceTarget m v =>
      m :: match v with PositionOf m' => [m'] | V3 _ _ _ => [] end
  | SetScale m _ => [m]
  | SetLightColour _ _ | SetLightStrength _ _ | NewModel _ _
  | NewCamera | CameraSetPosition _ | CameraSetRotation _ => []
  end.

(** *** ReleaseShaders and ReleaseResources *)

Inductive ReleaseStmt : Type :=
  | CallReleaseStates
  | ReleaseIfSet (r : Resource)
  | DeleteModel (m : Model)
  | DeleteCamera
  | DeleteMesh (file : string).

(** Shader.cpp *)
Definition ReleaseShaders : list ReleaseStmt :=
  [ ReleaseIfSet (PS gDepthOnlyPixelShader);
    ReleaseIfSet (PS gLightModelPixelShader);
    ReleaseIfSet (VS gBasicTransformVertexShader);
    ReleaseIfSet (PS gPixelLightingPixelShader);
    ReleaseIfSet (VS gPixelLightingVertexShader);
    ReleaseIfSet (VS gWigglingVertexShader);
    ReleaseIfSet (PS gScrollingPixelShader);
    ReleaseIfSet (PS gMixingTexturesPixelShader);
    ReleaseIfSet (VS gCellShadingVertexShader);
    ReleaseIfSet (PS gCellShadingPixelShader);
    ReleaseIfSet (VS gCellShadingOutlineVertexShader);
    ReleaseIfSet (PS gCellShadingOutlinePixelShader) ].

(** Scene.cpp *)
Definition ReleaseResources : list ReleaseStmt :=
  [ CallReleaseStates;
    ReleaseIfSet (DSV gShadowMap1DepthStencil);
    ReleaseIfSet (SRV gShadowMap1SRV);
    ReleaseIfSet (ShadowMapTexture gShadowMap1Texture);
    ReleaseIfSet (DSV gShadowMap2DepthStencil);
    ReleaseIfSet (SRV gShadowMap2SRV);
    ReleaseIfSet (ShadowMapTexture gShadowMap2Texture);
    ReleaseIfSet (SRV gCellMapSRV);
    ReleaseIfSet (TextureOf gCellMapSRV);
    ReleaseIfSet (SRV gLightDiffuseMapSRV);
    ReleaseIfSet (TextureOf gLightDiffuseMapSRV);
    ReleaseIfSet (SRV gFloorDiffuseSpecularMapSRV);
    ReleaseIfSet (TextureOf gFloorDiffuseSpecularMapSRV);
    ReleaseIfSet (SRV gSphereDiffuseSpecularMapSRV);
    ReleaseIfSet (TextureOf gSphereDiffuseSpecularMapSRV);
    ReleaseIfSet (SRV gCubeDiffuseSpecularMapSRV);
    ReleaseIfSet (TextureOf gCubeDiffuseSpecularMapSRV);
    ReleaseIfSet (SRV gTeapotDiffuseSpecularMapSRV);
    ReleaseIfSet (TextureOf gTeapotDiffuseSpecularMapSRV);
    ReleaseIfSet (SRV gTrollDiffuseMapSRV);
    ReleaseIfSet (TextureOf gTrollDiffuseMapSRV);
    ReleaseIfSet gPerModelConstantBuffer;
    ReleaseIfSet gPerFrameConstantBuffer ]
  ++ ReleaseShaders
  ++ map (fun i => DeleteModel (gLights_model i)) (seq 0 NUM_LIGHTS)
  ++ [ DeleteCamera;
       DeleteModel gFloor;
       DeleteModel gSphere;
       DeleteModel gCube;
       DeleteModel gTeapot;
       DeleteModel gTroll;
       DeleteMesh "Models/Light.x";
       DeleteMesh "Models/Floor.x";
       DeleteMesh "Models/Sphere.x";
       DeleteMesh "Models/Cube.x";
       DeleteMesh "Models/Teapot.x";
       DeleteMesh "Models/troll.x" ].

(** What reaches the outside: a [Release()] on a resource, the call of
    [ReleaseStates], the destruction of an object. A [delete] of a null
    pointer destroys nothing. *)
Inductive Action : Type :=
  | Released (r : Resource)
  | StatesReleased
  | ModelDeleted (m : Model)
  | CameraDeleted
  | MeshDeleted (file : string).

Definition Action_eq_dec (a b : Action) : {a = b} + {a <> b}.
Proof.
  decide equality;
    first [apply Resource_eq_dec | apply Model_eq_dec | apply string_dec].
Defined.

(** [if (p) p->Release();] leaves the pointer as it is;
    [delete p; p = nullptr;] nulls it. *)
Definition releaseStep (s : ReleaseStmt) (p : Pointers) : list Action * Pointers :=
  match s with
  | CallReleaseStates => ([StatesReleased], p)
  | ReleaseIfSet r => (if nonNull p r then [Released r] else [], p)
  | DeleteModel m =>
      (if hasModel p m then [ModelDeleted m] else [],
       mkPointers (d3d p) (remove Model_eq_dec m (models p)) (camera p))
  | DeleteCamera =>
      (if camera p then [CameraDeleted] else [], mkPointers (d3d p) (models p) false)
  | DeleteMesh file =>
      (if nonNull p (MeshPtr file) then [MeshDeleted file] else [],
       mkPointers
         (mkGlobals (gLastError (d3d p))
                    (remove Resource_eq_dec (MeshPtr file) (created (d3d p))))
         (models p) (camera p))
  end.

Fixpoint release (stmts : list ReleaseStmt) (p : Pointers) : list Action * Pointers :=
  match stmts with
  | [] => ([], p)
  | s :: stmts =>
      let (done, p') := releaseStep s p in
      let (rest, p'') := release stmts p' in
      (done ++ rest, p'')
  end.

(** The texture a view looks at. *)
Definition viewOf (view texture : Resource) : Prop :=
  match view, texture with
  | SRV v, TextureOf v' => v = v'
  | SRV v, ShadowMapTexture t => srvTexture v = Some t
  | DSV v, ShadowMapTexture t => dsvTexture v = Some t
  | _, _ => False
  end.

(** What the scene owns once [InitGeometry] has succeeded and [InitScene]
    has run. *)
Definition owned (a : Action) : Prop :=
  match a with
  | Released r => In r allResources /\ r <> States /\ forall file, r <> MeshPtr file
  | StatesReleased => True
  | ModelDeleted m =>
      In m [gTeapot; gSphere; gCube; gFloor; gTroll] \/
      exists i, (i < NUM_LIGHTS)%nat /\ m = gLights_model i
  | CameraDeleted => True
  | MeshDeleted file => In file meshFiles
  end.

(** The globals that are set once [InitGeometry] has succeeded, latest
    first. *)
Definition createdOnSuccess : list Resource :=
  [ States;
    SRV gShadowMap2SRV; DSV gShadowMap2DepthStencil; ShadowMapTexture gShadowMap2Texture;
    SRV gShadowMap1SRV; DSV gShadowMap1DepthStencil; ShadowMapTexture gShadowMap1Texture ]
  ++ rev (flat_map (fun t => [TextureOf (snd t); SRV (snd t)]) textures)
  ++ [ gPerModelConstantBuffer; gPerFrameConstantBuffer;
       PS gCellShadingOutlinePixelShader; VS gCellShadingOutlineVertexShader;
       PS gCellShadingPixelShader; VS gCellShadingVertexShader;
       PS gMixingTexturesPixelShader; PS gScrollingPixelShader;
       VS gWigglingVertexShader; PS gDepthOnlyPixelShader;
       PS gLightModelPixelShader; VS gBasicTransformVertexShader;
       PS gPixelLightingPixelShader; VS gPixelLightingVertexShader ]
  ++ rev (map MeshPtr meshFiles).

(** *** Vocabulary of the clean-up properties *)

(** The statements that leave the pointers as they are. *)
Definition keepsPointers (s : ReleaseStmt) : bool :=
  match s with CallReleaseStates | ReleaseIfSet _ => true | _ => false end.

(** What a statement does when it finds its pointer set. *)
Definition attempt (s : ReleaseStmt) : Action :=
  match s with
  | CallReleaseStates => StatesReleased
  | ReleaseIfSet r => Released r
  | DeleteModel m => ModelDeleted m
  | DeleteCamera => CameraDeleted
  | DeleteMesh file => MeshDeleted file
  end.

(** Whether a statement finds its pointer set. *)
Definition pending (p : Pointers) (s : ReleaseStmt) : bool :=
  match s with
  | CallReleaseStates => true
  | ReleaseIfSet r => nonNull p r
  | DeleteModel m => hasModel p m
  | DeleteCamera => camera p
  | DeleteMesh file => nonNull p (MeshPtr file)
  end.

(** How a resource of [InitGeometry] is given back. *)
Definition releaseOf (r : Resource) : Action :=
  match r with
  | MeshPtr file => MeshDeleted file
  | States => StatesReleased
  | r => Released r
  end.

(** The statement of [ReleaseResources] that gives a resource back. *)
Definition releaserOf (r : Resource) : ReleaseStmt :=
  match r with
  | MeshPtr file => DeleteMesh file
  | States => CallReleaseStates
  | r => ReleaseIfSet r
  end.

Definition ReleaseStmt_eq_dec (a b : ReleaseStmt) : {a = b} + {a <> b}.
Proof.
  decide equality;
    first [apply Resource_eq_dec | apply Model_eq_dec | apply string_dec].
Defined.

(** A texture released by a statement that precedes the release of one
    of its views. *)
Definition textureThenView (a b : Action) : Prop :=
  exists view texture, viewOf view texture /\ a = Released texture /\ b = Released view.

Definition stmtsInOrder (s1 s2 : ReleaseStmt) : Prop :=
  match s1, s2 with
  | ReleaseIfSet texture, ReleaseIfSet view => ~ viewOf view texture
  | _, _ => True
  end.

(** Two states of the globals: what is set in the second and was not in
    the first is among the listed resources. *)
Definition onlyListed (g g' : Globals) : Prop :=
  incl (created g') (allResources ++ created g).

(** A statement that sets listed resources only, whatever the globals it
    starts from. *)
Definition preserves {A : Type} (m : Stmt A) : Prop :=
  forall g, onlyListed g (snd (m g)).

(** A statement that leaves the shader globals as they are. *)
Definition keepsShaders {A : Type} (m : Stmt A) : Prop :=
  forall g r, isShader r = true ->
              In r (created (snd (m g))) <-> In r (created g).

(** Whether every mesh file loads. *)
Definition meshesLoad (w : World) : bool :=
  forallb (fun file => match newMesh w file with None => true | Some _ => false end)
          meshFiles.

(** A set-up sequence in which every statement finds the models it uses
    allocated, and every allocation names a mesh that [InitGeometry] loads
    and a model that is not allocated yet. *)
Fixpoint orderly (alive : list Model) (stmts : list SceneStmt) : Prop :=
  match stmts with
  | [] => True
  | s :: rest =>
      incl (usesModels s) alive /\
      match s with
      | NewModel m mesh =>
          In mesh meshFiles /\ ~ In m alive /\ orderly (m :: alive) rest
      | _ => orderly alive rest
      end
  end.

(** *** Worlds to run initialisation in *)

(** Every file is there and the device creates everything. *)
Definition plentifulWorld : World := {|
  newMesh := fun _ => None;
  LoadVertexShader := fun _ => true;
  LoadPixelShader := fun _ => true;
  CreateConstantBuffer := fun _ => true;
  LoadTexture := fun _ _ => true;
  CreateTexture2D := fun _ => true;
  CreateDepthStencilView := fun _ => true;
  CreateShaderResourceView := fun _ => true;
  CreateStates := true
|}.

(** The same, but the wood texture of the floor is missing. *)
Definition woodlessWorld : World := {|
  newMesh := fun _ => None;
  LoadVertexShader := fun _ => true;
  LoadPixelShader := fun _ => true;
  CreateConstantBuffer := fun _ => true;
  LoadTexture := fun file _ =>
    if string_dec file "Textures/WoodDiffuseSpecular.dds" then false else true;
  CreateTexture2D := fun _ => true;
  CreateDepthStencilView := fun _ => true;
  CreateShaderResourceView := fun _ => true;
  CreateStates := true
|}.

(** The same, but the wiggling vertex shader does not load. *)
Definition wigglelessWorld : World := {|
  newMesh := fun _ => None;
  LoadVertexShader := fun shaderName =>
    if string_dec shaderName "Wiggling_vs" then false else true;
  LoadPixelShader := fun _ => true;
  CreateConstantBuffer := fun _ => true;
  LoadTexture := fun _ _ => true;
  CreateTexture2D := fun _ => true;
  CreateDepthStencilView := fun _ => true;
  CreateShaderResourceView := fun _ => true;
  CreateStates := true
|}.

(** The pointers after a run of [InitGeometry] on fresh globals, before
    [InitScene]. *)
Definition afterInitGeometry (w : World) (err : string) : Pointers :=
  mkPointers (snd (call (InitGeometry w) (mkGlobals err []))) [] false.

End Cleanup.

(** ** More vocabulary for the frame driver *)

Module PassTerms.
Import Scene.

(** The draws of a call sequence, each with the context it is issued
    under and the view whose matrices were last uploaded with the
    per-frame constants. *)
Fixpoint drawViews (cmds : list Cmd) (ctx : Context) (view : option ViewSource)
    : list (Model * Context * option ViewSource) :=
  match cmds with
  | [] => []
  | c :: cmds =>
      let view' :=
        match c with UpdateConstantBuffer_PerFrame v => Some v | _ => view end in
      match c with
      | Render m => [(m, ctx, view)]
      | _ => []
      end ++ drawViews cmds (exec c ctx) view'
  end.

Fixpoint viewAfter (cmds : list Cmd) (view : option ViewSource) : option ViewSource :=
  match cmds with
  | [] => view
  | UpdateConstantBuffer_PerFrame v :: cmds => viewAfter cmds (Some v)
  | _ :: cmds => viewAfter cmds view
  end.

(** The view and the viewport that go with a depth target: light 0 renders
    into shadow map 1, light 1 into shadow map 2, the camera into the main
    depth buffer. *)
Definition passView (dsv : DepthStencilView) : ViewSource :=
  match dsv with
  | gShadowMap1DepthStencil => LightView 0
  | gShadowMap2DepthStencil => LightView 1
  | gDepthStencil => CameraView
  end.

Definition passViewport (dsv : DepthStencilView) : Dim * Dim :=
  match dsv with
  | gShadowMap1DepthStencil | gShadowMap2DepthStencil => (gShadowMapSize, gShadowMapSize)
  | gDepthStencil => (gViewportWidth, gViewportHeight)
  end.

Definition passConsistent (d : Model * Context * option ViewSource) : Prop :=
  let '(_, ctx, view) := d in
  exists dsv, depthStencil ctx = Some dsv /\
              view = Some (passView dsv) /\
              viewport ctx = Some (passViewport dsv).

(** The texture loaded for each model in [InitGeometry]. *)
Definition diffuseMapOf (m : Model) : ShaderResourceView :=
  match m with
  | gTeapot => gTeapotDiffuseSpecularMapSRV
  | gSphere => gSphereDiffuseSpecularMapSRV
  | gCube => gCubeDiffuseSpecularMapSRV
  | gFloor => gFloorDiffuseSpecularMapSRV
  | gTroll => gTrollDiffuseMapSRV
  | gLights_model _ => gLightDiffuseMapSRV
  end.

(** The pixel shaders that sample a diffuse map in register t0. *)
Definition textured (ps : PixelShader) : bool :=
  match ps with
  | gDepthOnlyPixelShader | gCellShadingOutlinePixelShader => false
  | _ => true
  end.

(** The registers a pixel shader declares hold what it expects: t0 the
    texture of the model drawn, under the anisotropic sampler in s0; for
    per-pixel lighting t1 and t2 the two shadow maps, for cell shading t1
    the cell map, both under the point sampler in s1; for texture mixing
    t3 the floor's texture. *)
Definition registersBound (d : Model * Context) : Prop :=
  let '(m, ctx) := d in
  forall ps, pixelShader ctx = Some ps ->
    (textured ps = true ->
     psResources ctx 0 = Some (diffuseMapOf m) /\
     psSamplers ctx 0 = Some gAnisotropic4xSampler) /\
    (ps = gPixelLightingPixelShader ->
     psResources ctx 1 = Some gShadowMap1SRV /\
     psResources ctx 2 = Some gShadowMap2SRV /\
     psSamplers ctx 1 = Some gPointSampler) /\
    (ps = gCellShadingPixelShader ->
     psResources ctx 1 = Some gCellMapSRV /\
     psSamplers ctx 1 = Some gPointSampler) /\
    (ps = gMixingTexturesPixelShader ->
     psResources ctx 3 = Some gFloorDiffuseSpecularMapSRV).

(** The sync intervals of the presents of a log. *)
Definition presents (log : list Entry) : list nat :=
  flat_map (fun e => match e with LPresent n => [n] | _ => [] end) log.

End PassTerms.

(** ** More vocabulary for the lighting shaders *)

Module ShaderTerms.
Import ExactQ Binary32 ShadowMapping_ps LightingTerms.

(** [max(a, 0)] of a negative [a] is 0. *)
Class MaxLaws (F : Type) {S : Scalar F} : Prop := {
  fmax_negative : forall a : F, fltb a (lit 0) = true -> fmax a (lit 0) = lit 0
}.
Arguments MaxLaws F {S}.

(** Rational colours that agree as numbers, component by component. *)
Definition eq3 (a b : float3 Q) : Prop :=
  f3x a == f3x b /\ f3y a == f3y b /\ f3z a == f3z b.
Definition eq4 (a b : float4 Q) : Prop :=
  f4x a == f4x b /\ f4y a == f4y b /\ f4z a == f4z b /\ f4w a == f4w b.

Section Terms.

Context {F : Type} `{Scalar F}.
Local Open Scope hlsl_scope.

Variable sqrt : F -> F.
Variable SamplerState : Type.
Variable PointClamp : SamplerState.

(** The two nested tests of the spotlight block: inside the cone, and
    nearer to the light than what the shadow map holds. *)
Definition reaches (wp lp lf : float3 F) (c : F) (V P : float4x4 F)
    (ShadowMapLight : Texture2D F SamplerState) : bool :=
  (dot (Ldir sqrt lp wp) (vneg lf) >? c) &&
  (depthFromLight (lightClip V P wp)
     <? chan_r (Sample ShadowMapLight PointClamp (shadowMapUV (lightClip V P wp)))).

End Terms.

(** *** Concrete data for evaluating the shaders in exact arithmetic *)

(** Square root, exact on the squares of rationals. *)
Definition rootQ (q : Q) : Q := Z.sqrt (Qnum q) # Pos.sqrt (Qden q).

(** [pow] for integer exponents (gSpecularPower is 256). *)
Definition powQ (a b : Q) : Q :=
  match Qden b with
  | 1%positive => Qpower a (Qnum b)
  | _ => 0
  end.

Definition identityQ : float4x4 Q :=
  mkFloat4x4 (mkFloat4 1 0 0 0) (mkFloat4 0 1 0 0)
             (mkFloat4 0 0 1 0) (mkFloat4 0 0 0 1).

(** Both lights hang at (0, 10, 0) and face straight down. *)
Definition constantsQ : PerFrameConstants Q := {|
  gLight1Position := mkFloat3 0 10 0;
  gLight1Colour := mkFloat3 8 8 10;
  gLight1Facing := mkFloat3 0 (-1) 0;
  gLight1CosHalfAngle := 7071 # 10000;
  gLight1ViewMatrix := identityQ;
  gLight1ProjectionMatrix := identityQ;
  gLight2Position := mkFloat3 0 10 0;
  gLight2Colour := mkFloat3 40 32 8;
  gLight2Facing := mkFloat3 0 (-1) 0;
  gLight2CosHalfAngle := 7071 # 10000;
  gLight2ViewMatrix := identityQ;
  gLight2ProjectionMatrix := identityQ;
  gAmbientColour := mkFloat3 (2 # 10) (2 # 10) (3 # 10);
  gSpecularPower := 256;
  gCameraPosition := mkFloat3 0 5 (-5);
  wiggle := 0;
  shift := 1 # 4;
  fading := 0
|}.

(** A pixel of a floor facing up below the lights, at light depth 1/2,
    and the same place seen from below, facing down. *)
Definition pixelQ : LightingPixelShaderInput Q := {|
  worldPosition := mkFloat3 0 0 (1 # 2);
  worldNormal := mkFloat3 0 1 0;
  uv := mkFloat2 (1 # 2) (1 # 2)
|}.

Definition undersideQ : LightingPixelShaderInput Q := {|
  worldPosition := mkFloat3 0 0 0;
  worldNormal := mkFloat3 0 (-2) 0;
  uv := mkFloat2 (1 # 2) (1 # 2)
|}.

Definition flatQ (r g b a : Q) : Texture2D Q Scene.SamplerState :=
  fun _ _ => mkFloat4 r g b a.

(** The underside in binary32. *)
Definition underside : LightingPixelShaderInput binary32 := {|
  worldPosition := Fixtures.vec 0 0 0;
  worldNormal := Fixtures.vec 0 (-2) 0;
  uv := mkFloat2 (lit (1 # 2)) (lit (1 # 2))
|}.

(** A cell map of two bands: level 1/4 below 1/2, level 1 from 1/2 on. *)
Definition twoBands : Texture2D binary32 Scene.SamplerState :=
  fun _ loc =>
    if SFltb (f2x loc) (lit (1 # 2))
    then mkFloat4 (lit (1 # 4)) (lit (1 # 4)) (lit (1 # 4)) (lit 1)
    else mkFloat4 (lit 1) (lit 1) (lit 1) (lit 1).

End ShaderTerms.

(** * Properties *)

(** ** The comparison laws at the two instances *)

Module ExactQFacts.
Import ExactQ.

Lemma Qltb_irrefl (a : Q) : Qltb a a = false.
Proof.
  unfold Qltb.
  assert (Hle : Qle_bool a a = true) by (apply Qle_bool_iff, Qle_refl).
  now rewrite Hle.
Qed.

Lemma Qleb_not_gtb (a b : Q) : Qle_bool a b = true -> Qltb b a = false.
Proof. unfold Qltb. now intros ->. Qed.

#[export] Instance Q_ScalarLaws : ScalarLaws Q.
Proof. split; [exact Qltb_irrefl | exact Qleb_not_gtb]. Qed.

End ExactQFacts.

Module Binary32Facts.
Import Binary32.

Lemma SFcompare_refl (a : binary32) :
  SFcompare a a = None \/ SFcompare a a = Some Eq.
Proof.
  destruct a as [s|s| |s m e]; simpl; auto.
  - destruct s; auto.
  - right. rewrite Z.compare_refl.
    assert (Hm : Pos.compare_cont Eq m m = Eq) by apply Pos.compare_refl.
    rewrite Hm. destruct s; reflexivity.
Qed.

Lemma SFltb_irrefl (a : binary32) : SFltb a a = false.
Proof.
  unfold SFltb. destruct (SFcompare_refl a) as [-> | ->]; reflexivity.
Qed.

Lemma compare_cont_Eq_antisym (p q : positive) :
  Pos.compare_cont Eq q p = CompOpp (Pos.compare_cont Eq p q).
Proof. apply (Pos.compare_antisym p q). Qed.

Lemma SFcompare_antisym (a b : binary32) :
  SFcompare b a = option_map CompOpp (SFcompare a b).
Proof.
  destruct a as [sa|sa| |sa ma ea], b as [sb|sb| |sb mb eb]; simpl;
    try reflexivity;
    try (destruct sa; reflexivity);
    try (destruct sb; reflexivity);
    try (destruct sa, sb; reflexivity).
  f_equal. rewrite (Z.compare_antisym ea eb), (compare_cont_Eq_antisym ma mb).
  destruct sa, sb; try reflexivity;
    destruct (ea ?= eb)%Z; simpl; try reflexivity.
Qed.

Lemma SFleb_not_gtb (a b : binary32) : SFleb a b = true -> SFltb b a = false.
Proof.
  unfold SFleb, SFltb. rewrite (SFcompare_antisym a b).
  destruct (SFcompare a b) as [[ | | ]|]; simpl; congruence.
Qed.

#[export] Instance binary32_ScalarLaws : ScalarLaws binary32.
Proof. split; [exact SFltb_irrefl | exact SFleb_not_gtb]. Qed.

End Binary32Facts.

Import ExactQ ExactQFacts Binary32 Binary32Facts.

(** ** Shadow-map coordinates (ShadowMapping_ps) *)

Module ShadowMapping_ps_Facts.
Import ShadowMapping_ps.

Section Generic.

Context {F : Type} `{Scalar F}.
Local Open Scope hlsl_scope.

(** The two statements that compute [shadowMapUV], as one expression. *)
Lemma shadowMapUV_eq (p : float4 F) :
  shadowMapUV p =
  mkFloat2 (lit 0.5 * f4x p / f4w p + lit 0.5)
           (lit 1 - (lit 0.5 * f4y p / f4w p + lit 0.5)).
Proof. reflexivity. Qed.

End Generic.

End ShadowMapping_ps_Facts.

Module C1.
Import ShadowMapping_ps ShadowMapping_ps_Facts Fixtures.

(** The lighting block reads its shadow map at one location only: the
    [shadowMapUV] of the pixel's light-clip-space position. *)
Lemma spotLight_lookup {F : Type} `{Scalar F} (sqrt : F -> F) (pow : F -> F -> F)
    (SamplerState : Type) (PointClamp : SamplerState) (cb : PerFrameConstants F)
    (wp wn cd lp lf : float3 F) (c : F) (V P : float4x4 F) (col : float3 F)
    (T T' : Texture2D F SamplerState) :
  Sample T PointClamp (shadowMapUV (mul P (mul V (float4_of wp (lit 1))))) =
  Sample T' PointClamp (shadowMapUV (mul P (mul V (float4_of wp (lit 1))))) ->
  spotLight sqrt pow PointClamp cb wp wn cd lp lf c V P col T =
  spotLight sqrt pow PointClamp cb wp wn cd lp lf c V P col T'.
Proof.
  intros Hsame. unfold spotLight. rewrite Hsame. reflexivity.
Qed.

Lemma half_div (y w : Q) : (0.5 * y / w == 0.5 * (y / w))%Q.
Proof. unfold Qdiv. ring. Qed.

(** C1 (as amended). The shadow map of a light is sampled at
    [uv = 0.5*xy/w + 0.5] with V flipped, [v = 1 - v]; in exact arithmetic
    a point with projected y = +1 (the top of the light's view) maps to
    v = 0, and a point with projected y = -1 maps to v = 1. *)
Theorem shadowMapUV_flip :
  (forall (F : Type) (S : Scalar F) (sqrt : F -> F) (pow : F -> F -> F)
          (SamplerState : Type) (PointClamp : SamplerState)
          (cb : PerFrameConstants F) (wp wn cd lp lf : float3 F) (c : F)
          (V P : float4x4 F) (col : float3 F) (T T' : Texture2D F SamplerState),
      let proj := mul P (mul V (float4_of wp (lit 1))) in
      Sample T PointClamp (shadowMapUV proj) = Sample T' PointClamp (shadowMapUV proj) ->
      spotLight sqrt pow PointClamp cb wp wn cd lp lf c V P col T =
      spotLight sqrt pow PointClamp cb wp wn cd lp lf c V P col T') /\
  (forall p : float4 Q,
      (f2x (shadowMapUV p) == 0.5 * (f4x p / f4w p) + 0.5)%Q /\
      (f2y (shadowMapUV p) == 1 - (0.5 * (f4y p / f4w p) + 0.5))%Q /\
      ((f4y p / f4w p == 1)%Q -> (f2y (shadowMapUV p) == 0)%Q) /\
      ((f4y p / f4w p == -1)%Q -> (f2y (shadowMapUV p) == 1)%Q)).
Proof.
  split.
  - intros. now apply spotLight_lookup.
  - intros [x y z w]. cbn.
    repeat split.
    + now rewrite half_div.
    + now rewrite half_div.
    + intros Htop. rewrite half_div, Htop. reflexivity.
    + intros Hbottom. rewrite half_div, Hbottom. reflexivity.
Qed.

Lemma shadowMapUV_flip_witness :
  (f4y topPoint / f4w topPoint == 1)%Q /\ (f2y (shadowMapUV topPoint) == 0)%Q.
Proof.
  split.
  - reflexivity.
  - apply (proj2 shadowMapUV_flip topPoint). reflexivity.
Defined.

(** C1 as worded, with projected y = -1 mapping to v = 0, does not hold:
    the point (0, -1, 1/2, 1) has projected y = -1 and v = 1. *)
Lemma shadowMapUV_bottom_is_not_v0 :
  ~ (forall p : float4 Q,
       (f4y p / f4w p == -1)%Q -> (f2y (shadowMapUV p) == 0)%Q).
Proof.
  intros Hclaim.
  specialize (Hclaim bottomPoint eq_refl).
  vm_compute in Hclaim. discriminate Hclaim.
Qed.

(** The same two points in binary32 arithmetic. *)
Example shadowMapUV_binary32_bottom :
  f2y (shadowMapUV (mkFloat4 (lit 0) (fneg (lit 1)) (lit 0.5) (lit 1) : float4 binary32))
  = lit 1.
Proof. vm_compute. reflexivity. Qed.

Example shadowMapUV_binary32_top :
  f2y (shadowMapUV (mkFloat4 (lit 0) (lit 1) (lit 0.5) (lit 1) : float4 binary32))
  = lit 0.
Proof. vm_compute. reflexivity. Qed.

End C1.

(** ** Cone and shadow tests (ShadowMapping_ps) *)

Module LightingFacts.
Import ShadowMapping_ps LightingTerms.

Section Generic.

Context {F : Type} `{Scalar F}.
Local Open Scope hlsl_scope.

Variable sqrt : F -> F.
Variable pow : F -> F -> F.
Variable SamplerState : Type.
Variable PointClamp : SamplerState.
Variable cb : PerFrameConstants F.

Lemma spotLight_cone_fails (wp wn cd lp lf : float3 F) (c : F)
    (V P : float4x4 F) (col : float3 F) (T : Texture2D F SamplerState) :
  (dot (Ldir sqrt lp wp) (vneg lf) >? c) = false ->
  spotLight sqrt pow PointClamp cb wp wn cd lp lf c V P col T = noLight.
Proof.
  intros Hcone. unfold spotLight. fold (Ldir sqrt lp wp). rewrite Hcone. reflexivity.
Qed.

Lemma spotLight_depth_fails (wp wn cd lp lf : float3 F) (c : F)
    (V P : float4x4 F) (col : float3 F) (T : Texture2D F SamplerState) :
  (depthFromLight (lightClip V P wp)
     <? chan_r (Sample T PointClamp (shadowMapUV (lightClip V P wp)))) = false ->
  spotLight sqrt pow PointClamp cb wp wn cd lp lf c V P col T = noLight.
Proof.
  intros Hdepth. unfold spotLight. fold (lightClip V P wp). rewrite Hdepth.
  destruct (dot _ _ >? c); reflexivity.
Qed.

End Generic.

End LightingFacts.

Module C2.
Import ShadowMapping_ps LightingTerms LightingFacts Fixtures.

(** C2 (as amended). In the per-pixel lighting pixel shader
    (ShadowMapping_ps), for each light L in {1,2} and each pixel outside
    L's cone, [dot(Ldir, -F_L) <= cos(theta_L)], the locals
    [diffuseLightL] and [specularLightL] are exactly zero. *)
Theorem outside_cone_no_light {F : Type} {S : Scalar F} {L : ScalarLaws F}
    (sqrt : F -> F) (pow : F -> F -> F) (SamplerState : Type)
    (ShadowMapLight1 ShadowMapLight2 : Texture2D F SamplerState)
    (PointClamp : SamplerState) (cb : PerFrameConstants F)
    (input : LightingPixelShaderInput F) :
  (fleb (dot (Ldir sqrt (gLight1Position cb) (worldPosition input))
             (vneg (gLight1Facing cb)))
        (gLight1CosHalfAngle cb) = true ->
   light1 sqrt pow ShadowMapLight1 PointClamp cb input = noLight) /\
  (fleb (dot (Ldir sqrt (gLight2Position cb) (worldPosition input))
             (vneg (gLight2Facing cb)))
        (gLight2CosHalfAngle cb) = true ->
   light2 sqrt pow ShadowMapLight2 PointClamp cb input = noLight).
Proof.
  split; intros Hout; apply fleb_not_gtb in Hout;
    now apply spotLight_cone_fails.
Qed.

(** Light 1 of the fixture faces away from the pixel below it. *)
Lemma outside_cone_no_light_witness :
  fleb (dot (Ldir sqrt32 (gLight1Position constants) (worldPosition pixel))
            (vneg (gLight1Facing constants)))
       (gLight1CosHalfAngle constants) = true /\
  light1 sqrt32 pow32 (flat 1 0 0 0) Scene.gPointSampler constants pixel = noLight.
Proof.
  split.
  - vm_compute. reflexivity.
  - apply (proj1 (outside_cone_no_light (L := binary32_ScalarLaws) sqrt32 pow32
                    (flat 1 0 0 0) (flat 1 0 0 0) Scene.gPointSampler
                    constants pixel)).
    vm_compute. reflexivity.
Defined.

(** With both lights outside their cones, ambient (0.2, 0.2, 0.3), a white
    diffuse texture and no specular channel, the pixel comes out in the
    ambient colour with alpha 1. *)
Example ambient_only :
  main sqrt32 pow32 (flat 1 1 1 0) Scene.gAnisotropic4xSampler
       (flat 1 0 0 0) (flat 1 0 0 0) Scene.gPointSampler constantsAway pixel
  = mkFloat4 (lit 0.2) (lit 0.2) (lit 0.3) (lit 1).
Proof. vm_compute. reflexivity. Qed.

(** C2 as worded covers every lit technique, and the cell-shading
    pixel shader is one: it has no cone test, and its light 1 reaches the
    same pixel, outside the cone, with a diffuse term that is not zero. *)
Lemma cell_shading_lights_outside_cone :
  ~ (forall (pow : binary32 -> binary32 -> binary32)
            (CellMap : Texture2D binary32 Scene.SamplerState)
            (cb : PerFrameConstants binary32)
            (input : LightingPixelShaderInput binary32),
        fleb (dot (Ldir sqrt32 (gLight1Position cb) (worldPosition input))
                  (vneg (gLight1Facing cb)))
             (gLight1CosHalfAngle cb) = true ->
        fst (CellShading_ps.light1 sqrt32 pow CellMap Scene.gPointSampler cb input)
        = splat3 (lit 0)).
Proof.
  intros Hclaim.
  specialize (Hclaim pow32 (flat 1 1 1 1) constants pixel).
  vm_compute in Hclaim. specialize (Hclaim eq_refl). discriminate Hclaim.
Qed.

End C2.

Module C3.
Import ShadowMapping_ps LightingTerms LightingFacts Fixtures.

(** C3. Shadow inclusion is strict. For each light L the pixel is lit
    only when [depthFromLight = z/w] is strictly less than the depth
    sampled from L's shadow map; when the comparison fails, and in
    particular when the two depths are equal, [diffuseLightL] and
    [specularLightL] are zero. *)
Theorem shadow_test_strict {F : Type} {S : Scalar F} {L : ScalarLaws F}
    (sqrt : F -> F) (pow : F -> F -> F) (SamplerState : Type)
    (ShadowMapLight1 ShadowMapLight2 : Texture2D F SamplerState)
    (PointClamp : SamplerState) (cb : PerFrameConstants F)
    (input : LightingPixelShaderInput F) :
  let clip1 := lightClip (gLight1ViewMatrix cb) (gLight1ProjectionMatrix cb)
                 (worldPosition input) in
  let clip2 := lightClip (gLight2ViewMatrix cb) (gLight2ProjectionMatrix cb)
                 (worldPosition input) in
  let sampled1 := chan_r (Sample ShadowMapLight1 PointClamp (shadowMapUV clip1)) in
  let sampled2 := chan_r (Sample ShadowMapLight2 PointClamp (shadowMapUV clip2)) in
  depthFromLight clip1 = fdiv (f4z clip1) (f4w clip1) /\
  depthFromLight clip2 = fdiv (f4z clip2) (f4w clip2) /\
  (light1 sqrt pow ShadowMapLight1 PointClamp cb input <> noLight ->
   fltb (depthFromLight clip1) sampled1 = true) /\
  (light2 sqrt pow ShadowMapLight2 PointClamp cb input <> noLight ->
   fltb (depthFromLight clip2) sampled2 = true) /\
  (depthFromLight clip1 = sampled1 ->
   light1 sqrt pow ShadowMapLight1 PointClamp cb input = noLight) /\
  (depthFromLight clip2 = sampled2 ->
   light2 sqrt pow ShadowMapLight2 PointClamp cb input = noLight).
Proof.
  intros clip1 clip2 sampled1 sampled2.
  assert (Hlit : forall wp wn cd lp lf c V P col (T : Texture2D F SamplerState),
             spotLight sqrt pow PointClamp cb wp wn cd lp lf c V P col T <> noLight ->
             fltb (depthFromLight (lightClip V P wp))
                  (chan_r (Sample T PointClamp (shadowMapUV (lightClip V P wp)))) = true).
  { intros wp wn cd lp lf c V P col T Hne.
    destruct (fltb (depthFromLight (lightClip V P wp)) _) eqn:Hlt; [reflexivity|].
    exfalso. apply Hne. now apply spotLight_depth_fails. }
  repeat split.
  - apply Hlit.
  - apply Hlit.
  - intros Heq. apply spotLight_depth_fails. fold clip1 sampled1.
    rewrite <- Heq. apply fltb_irrefl.
  - intros Heq. apply spotLight_depth_fails. fold clip2 sampled2.
    rewrite <- Heq. apply fltb_irrefl.
Qed.

(** Light 2 of the fixture faces the pixel, whose depth from the light is
    1/2; its shadow map holds depth 1/2 everywhere. *)
Lemma shadow_test_strict_witness :
  depthFromLight (lightClip (gLight2ViewMatrix constants)
                    (gLight2ProjectionMatrix constants) (worldPosition pixel))
  = chan_r (Sample (flat 0.5 0 0 0) Scene.gPointSampler
              (shadowMapUV (lightClip (gLight2ViewMatrix constants)
                    (gLight2ProjectionMatrix constants) (worldPosition pixel)))) /\
  light2 sqrt32 pow32 (flat 0.5 0 0 0) Scene.gPointSampler constants pixel = noLight.
Proof.
  split.
  - vm_compute. reflexivity.
  - apply (shadow_test_strict (L := binary32_ScalarLaws) sqrt32 pow32
             (flat 0.5 0 0 0) (flat 0.5 0 0 0) Scene.gPointSampler constants pixel).
    vm_compute. reflexivity.
Defined.

(** With a farther depth in the map, 1 instead of 1/2, the same pixel is
    lit by light 2: the test is not vacuous. *)
Example shadow_test_passes :
  light2 sqrt32 pow32 (flat 1 0 0 0) Scene.gPointSampler constants pixel <> noLight.
Proof. vm_compute. discriminate. Qed.

End C3.

(** ** Cell shading (CellShading_ps) *)

Module C7.
Import CellShading_ps LightingTerms Fixtures.

(** C7. In the cell-shading pixel shader the diffuse term of each light
    is [lightColour * CellMap(max(dot(N, Ldir), 0)).r / distance], the
    specular term is that diffuse term times
    [pow(max(dot(N, halfway), 0), specularPower)], and the result is
    [(ambient + diffuse1 + diffuse2) * texture.rgb
     + (specular1 + specular2) * texture.a] with alpha 1. *)
Theorem cell_shading_formula {F : Type} {S : Scalar F}
    (sqrt : F -> F) (pow : F -> F -> F) (SamplerState : Type)
    (DiffuseMap CellMap : Texture2D F SamplerState)
    (TexSampler PointSampleClamp : SamplerState) (cb : PerFrameConstants F)
    (input : LightingPixelShaderInput F) :
  let N := normalize sqrt (worldNormal input) in
  let view := normalize sqrt (vsub (gCameraPosition cb) (worldPosition input)) in
  let distance lp := length sqrt (vsub lp (worldPosition input)) in
  let Ldir lp := vdivs (vsub lp (worldPosition input)) (distance lp) in
  let banded lp :=
    chan_r (Sample CellMap PointSampleClamp (splat2 (fmax (dot N (Ldir lp)) (lit 0)))) in
  let diffuse lp colour := vdivs (vscale colour (banded lp)) (distance lp) in
  let specular lp colour :=
    vscale (diffuse lp colour)
      (pow (fmax (dot N (normalize sqrt (vadd (Ldir lp) view))) (lit 0))
           (gSpecularPower cb)) in
  let d1 := diffuse (gLight1Position cb) (gLight1Colour cb) in
  let d2 := diffuse (gLight2Position cb) (gLight2Colour cb) in
  let s1 := specular (gLight1Position cb) (gLight1Colour cb) in
  let s2 := specular (gLight2Position cb) (gLight2Colour cb) in
  let texture := Sample DiffuseMap TexSampler (uv input) in
  light1 sqrt pow CellMap PointSampleClamp cb input = (d1, s1) /\
  light2 sqrt pow CellMap PointSampleClamp cb input = (d2, s2) /\
  main sqrt pow DiffuseMap CellMap TexSampler PointSampleClamp cb input =
    float4_of
      (vadd (vmul (vadd (vadd (gAmbientColour cb) d1) d2) (rgb texture))
            (vscale (vadd s1 s2) (chan_a texture)))
      (lit 1) /\
  f4w (main sqrt pow DiffuseMap CellMap TexSampler PointSampleClamp cb input) = lit 1.
Proof.
  cbv zeta. repeat split.
Qed.

(** The banding is what separates the two lit shaders: on the fixture,
    with a cell map that holds 1 everywhere, the cell-shaded diffuse term
    of light 2 differs from the per-pixel one. *)
Example cell_map_replaces_dot :
  fst (light2 sqrt32 pow32 (flat 1 1 1 1) Scene.gPointSampler constants pixel)
  <> fst (ShadowMapping_ps.light2 sqrt32 pow32 (flat 1 0 0 0) Scene.gPointSampler
            constants pixel).
Proof. vm_compute. discriminate. Qed.

End C7.

(** ** Scrolling (Scrolling_ps) *)

Module C9.
Import Scrolling_ps Fixtures.

(** C9. The scrolling pixel shader adds [shift] to [uv.y] before the
    lookup, and the diffuse map is sampled at [(u, v + shift)]: the colour
    that comes out is made of the colour the map holds at that coordinate,
    and the map has no other part in it. *)
Theorem samples_at_shifted_uv {F : Type} {S : Scalar F} (SamplerState : Type)
    (DiffuseMap DiffuseMap' : Texture2D F SamplerState) (Bilinear : SamplerState)
    (cb : PerFrameConstants F) (colour0 : float4 F)
    (input : SimplePixelShaderInput F) :
  let shifted :=
    mkFloat2 (f2x (simple_uv input)) (fadd (f2y (simple_uv input)) (shift cb)) in
  simple_uv (scrolled cb input) = shifted /\
  rgb (main DiffuseMap Bilinear cb colour0 input)
  = vmul (rgb (Sample DiffuseMap Bilinear shifted))
         (mkFloat3 (lit 0.3) (lit 0.7) (lit 0.2)) /\
  (Sample DiffuseMap Bilinear shifted = Sample DiffuseMap' Bilinear shifted ->
   main DiffuseMap Bilinear cb colour0 input = main DiffuseMap' Bilinear cb colour0 input).
Proof.
  cbv zeta. split; [reflexivity|]. split; [reflexivity|].
  intros Hsame. unfold main. cbn [scrolled simple_uv]. rewrite Hsame. reflexivity.
Qed.

(** The fixture pixel at (1/2, 1/2) with shift 1/4 is looked up at
    (1/2, 3/4), where the striped texture and the white one agree. *)
Lemma samples_at_shifted_uv_witness :
  Sample stripe Scene.gAnisotropic4xSampler
    (mkFloat2 (f2x (simple_uv simplePixel))
              (fadd (f2y (simple_uv simplePixel)) (shift constants)))
  = Sample (flat 1 1 1 1) Scene.gAnisotropic4xSampler
      (mkFloat2 (f2x (simple_uv simplePixel))
                (fadd (f2y (simple_uv simplePixel)) (shift constants))) /\
  main stripe Scene.gAnisotropic4xSampler constants garbage simplePixel
  = main (flat 1 1 1 1) Scene.gAnisotropic4xSampler constants garbage simplePixel.
Proof.
  split.
  - vm_compute. reflexivity.
  - apply (proj2 (proj2 (samples_at_shifted_uv stripe (flat 1 1 1 1)
                           Scene.gAnisotropic4xSampler constants garbage simplePixel))).
    vm_compute. reflexivity.
Defined.

(** The lookup is not at the incoming (u, v): the striped texture and a
    black one agree there, and the results differ. *)
Example not_sampled_at_incoming_uv :
  Sample stripe Scene.gAnisotropic4xSampler (simple_uv simplePixel)
  = Sample (flat 0 0 0 1) Scene.gAnisotropic4xSampler (simple_uv simplePixel) /\
  main stripe Scene.gAnisotropic4xSampler constants garbage simplePixel
  <> main (flat 0 0 0 1) Scene.gAnisotropic4xSampler constants garbage simplePixel.
Proof. split; vm_compute; [reflexivity|discriminate]. Qed.

End C9.

Module C10.
Import Scrolling_ps Fixtures.

(** C10. The scrolling pixel shader does not return the sampled colour as
    it is: red is multiplied by 0.3, green by 0.7, blue by 0.2, and alpha
    is 1.0, whatever the texture holds and whatever the local [colour]
    held before. *)
Theorem scrolling_tint {F : Type} {S : Scalar F} (SamplerState : Type)
    (DiffuseMap : Texture2D F SamplerState) (Bilinear : SamplerState)
    (cb : PerFrameConstants F) (colour0 : float4 F)
    (input : SimplePixelShaderInput F) :
  let sampled :=
    Sample DiffuseMap Bilinear
      (mkFloat2 (f2x (simple_uv input)) (fadd (f2y (simple_uv input)) (shift cb))) in
  main DiffuseMap Bilinear cb colour0 input =
    mkFloat4 (fmul (f4x sampled) (lit 0.3)) (fmul (f4y sampled) (lit 0.7))
             (fmul (f4z sampled) (lit 0.2)) (lit 1) /\
  f4w (main DiffuseMap Bilinear cb colour0 input) = lit 1 /\
  (forall colour0' : float4 F,
      main DiffuseMap Bilinear cb colour0' input = main DiffuseMap Bilinear cb colour0 input).
Proof.
  cbv zeta. split; [reflexivity|]. split; [reflexivity|].
  intros colour0'. reflexivity.
Qed.

(** On the fixture the sampled colour is white and the result is not. *)
Example scrolling_tint_changes_colour :
  Sample stripe Scene.gAnisotropic4xSampler
    (simple_uv (scrolled constants simplePixel))
  = mkFloat4 (lit 1) (lit 1) (lit 1) (lit 1) /\
  main stripe Scene.gAnisotropic4xSampler constants garbage simplePixel
  = mkFloat4 (lit 0.3) (lit 0.7) (lit 0.2) (lit 1).
Proof. split; vm_compute; reflexivity. Qed.

End C10.

(** ** The frame driver (Scene.cpp) *)

Module SceneFacts.
Import Scene FrameTerms.

Lemma execAll_app (a b : list Cmd) (ctx : Context) :
  execAll (a ++ b) ctx = execAll b (execAll a ctx).
Proof. unfold execAll. apply fold_left_app. Qed.

Lemma gpuLog_app (a b : list Cmd) (ctx : Context) :
  gpuLog (a ++ b) ctx = gpuLog a ctx ++ gpuLog b (execAll a ctx).
Proof.
  revert ctx. induction a as [|c a IH]; intros ctx; simpl; [reflexivity|].
  rewrite IH, app_assoc. reflexivity.
Qed.

Lemma contexts_app (a b : list Cmd) (ctx : Context) :
  contexts (a ++ b) ctx = contexts a ctx ++ contexts b (execAll a ctx).
Proof.
  revert ctx. induction a as [|c a IH]; intros ctx; simpl; [reflexivity|].
  rewrite IH. reflexivity.
Qed.

(** One frame, whatever the context it starts from. *)
Lemma RenderScene_frameLog (lockFPS : bool) (ctx : Context) :
  frameLog (gpuLog (RenderScene lockFPS) ctx).
Proof.
  destruct ctx as [rt ds vp vs ps bs dss rs res smp].
  set (log := gpuLog (RenderScene lockFPS) _).
  exists (firstn 6 log), (firstn 6 (skipn 6 log)), (firstn 10 (skipn 12 log)),
         (if lockFPS then 1%nat else 0%nat).
  vm_compute in log. subst log. cbv [firstn skipn].
  split; [destruct lockFPS; reflexivity|].
  split; [|split; [|split]].
  - eexists. split; [reflexivity|].
    repeat (constructor; [eexists; split; [reflexivity|split; reflexivity]|]).
    constructor.
  - eexists. split; [reflexivity|].
    repeat (constructor; [eexists; split; [reflexivity|split; reflexivity]|]).
    constructor.
  - repeat (constructor; [cbn; auto|]). constructor.
  - reflexivity.
Qed.

End SceneFacts.

Module C4.
Import Scene FrameTerms SceneFacts.

(** C4. Over any number of frames, started from any context, the work
    submitted to the GPU is a sequence of frame logs, one per call of
    [RenderScene]; each is: light 0's depth target cleared to 1.0 and every
    shadow caster drawn into it with no colour target, the same for
    light 1, then the camera pass on the back buffer, then Present, which
    ends the frame before the next begins. *)
Theorem frames_in_order (locks : list bool) (ctx0 : Context) :
  exists logs : list (list Entry),
    gpuLog (RenderFrames locks) ctx0 = List.concat logs /\
    Datatypes.length logs = Datatypes.length locks /\
    Forall frameLog logs.
Proof.
  revert ctx0. induction locks as [|lockFPS locks IH]; intros ctx0.
  - exists []. split; [reflexivity|split; [reflexivity|constructor]].
  - change (RenderFrames (lockFPS :: locks))
      with (RenderScene lockFPS ++ RenderFrames locks).
    rewrite gpuLog_app.
    destruct (IH (execAll (RenderScene lockFPS) ctx0)) as (logs & Hlog & Hlen & Hall).
    exists (gpuLog (RenderScene lockFPS) ctx0 :: logs).
    split; [|split].
    + rewrite Hlog. reflexivity.
    + cbn [Datatypes.length]. now rewrite Hlen.
    + constructor; [apply RenderScene_frameLog | exact Hall].
Qed.

End C4.

Module C5.
Import Scene FrameTerms SceneFacts.

Lemma readPhaseOnly_no_hazard (ctx : Context) : readPhaseOnly ctx -> ~ hazard ctx.
Proof.
  intros Hread (slot & srv & dsv & t & Hres & Hds & Hsrv & Hdsv).
  assert (Hmain : depthStencil ctx = Some gDepthStencil).
  { apply (Hread slot srv Hres). congruence. }
  rewrite Hmain in Hds. injection Hds as <-. discriminate Hdsv.
Qed.

(** [RenderScene] ends by setting slots 1 and 2 to null, from any context. *)
Lemma RenderScene_unbinds (lockFPS : bool) (ctx : Context) :
  psResources (execAll (RenderScene lockFPS) ctx) 1 = None /\
  psResources (execAll (RenderScene lockFPS) ctx) 2 = None.
Proof.
  destruct ctx as [rt ds vp vs ps bs dss rs res smp].
  set (final := execAll (RenderScene lockFPS) _).
  vm_compute in final. subst final. split; reflexivity.
Qed.

(** One frame, from a context with no shadow map bound as a shader input:
    all through the frame the shadow maps are shader inputs only under the
    main depth buffer, and the frame ends with none bound. *)
Lemma RenderScene_two_phase (lockFPS : bool) (ctx : Context) :
  shadowMapsUnbound ctx ->
  Forall readPhaseOnly (contexts (RenderScene lockFPS) ctx) /\
  shadowMapsUnbound (execAll (RenderScene lockFPS) ctx).
Proof.
  intros Hunbound.
  destruct ctx as [rt ds vp vs ps bs dss rs res smp].
  unfold shadowMapsUnbound in Hunbound. cbn [psResources] in Hunbound.
  set (cs := contexts (RenderScene lockFPS) _).
  set (final := execAll (RenderScene lockFPS) _).
  vm_compute in cs. vm_compute in final. subst cs final.
  split.
  - repeat (constructor;
            [intros slot srv Hres Hshadow; cbn [psResources depthStencil] in *;
             first [reflexivity | exfalso; apply Hshadow; exact (Hunbound slot srv Hres)]|]).
    constructor.
  - intros slot srv. cbn [psResources].
    destruct slot as [|[|[|[|slot]]]];
      intros Hres; try discriminate Hres;
      try (injection Hres as <-; reflexivity).
    exact (Hunbound _ _ Hres).
Qed.

Lemma RenderFrames_cons (lockFPS : bool) (locks : list bool) :
  RenderFrames (lockFPS :: locks) = RenderScene lockFPS ++ RenderFrames locks.
Proof. reflexivity. Qed.

Lemma RenderFrames_snoc (locks : list bool) (lockFPS : bool) :
  RenderFrames (locks ++ [lockFPS]) = RenderFrames locks ++ RenderScene lockFPS.
Proof.
  unfold RenderFrames. rewrite flat_map_app.
  change (flat_map RenderScene [lockFPS]) with (RenderScene lockFPS ++ []).
  now rewrite app_nil_r.
Qed.

Lemma RenderFrames_two_phase (locks : list bool) (ctx0 : Context) :
  shadowMapsUnbound ctx0 ->
  Forall readPhaseOnly (contexts (RenderFrames locks) ctx0) /\
  shadowMapsUnbound (execAll (RenderFrames locks) ctx0).
Proof.
  revert ctx0. induction locks as [|lockFPS locks IH]; intros ctx0 Hunbound.
  - split; [constructor|exact Hunbound].
  - rewrite RenderFrames_cons, contexts_app, execAll_app.
    destruct (RenderScene_two_phase lockFPS Hunbound) as (Hframe & Hend).
    destruct (IH _ Hend) as (Hrest & Hfinal).
    split; [|exact Hfinal].
    apply Forall_app. split; [exact Hframe|exact Hrest].
Qed.

(** C5. Started from a context in which no shadow map is bound as a shader
    input, over any number of frames no shadow-map texture is ever bound
    as depth target and as shader input at once: a shadow-map view sits in
    a pixel-shader slot only while the depth target is the main depth
    buffer, and after the last frame slots 1 and 2 are null and no slot
    holds a shadow map, so the next shadow pass starts unbound. *)
Theorem shadow_maps_two_phase (locks : list bool) (ctx0 : Context) :
  shadowMapsUnbound ctx0 ->
  Forall (fun ctx => ~ hazard ctx) (contexts (RenderFrames locks) ctx0) /\
  Forall readPhaseOnly (contexts (RenderFrames locks) ctx0) /\
  shadowMapsUnbound (execAll (RenderFrames locks) ctx0) /\
  (locks <> [] ->
   psResources (execAll (RenderFrames locks) ctx0) 1 = None /\
   psResources (execAll (RenderFrames locks) ctx0) 2 = None).
Proof.
  intros Hunbound.
  destruct (RenderFrames_two_phase locks Hunbound) as (Hall & Hfinal).
  split; [|split; [exact Hall|split; [exact Hfinal|]]].
  - eapply Forall_impl; [|exact Hall].
    intros ctx. apply readPhaseOnly_no_hazard.
  - intros Hne.
    destruct (exists_last Hne) as (pre & lockFPS & ->).
    rewrite RenderFrames_snoc, execAll_app.
    apply RenderScene_unbinds.
Qed.

(** Two frames on a device on which nothing has been bound yet. *)
Lemma shadow_maps_two_phase_witness :
  shadowMapsUnbound freshContext /\
  Forall (fun ctx => ~ hazard ctx) (contexts (RenderFrames [true; false]) freshContext).
Proof.
  assert (Hfresh : shadowMapsUnbound freshContext).
  { intros slot srv Hres. discriminate Hres. }
  split.
  - exact Hfresh.
  - exact (proj1 (shadow_maps_two_phase [true; false] Hfresh)).
Defined.

(** The read phase is not empty: the first camera-pass draw of a frame
    is issued with both shadow maps bound, in slots 1 and 2. *)
Example camera_pass_reads_shadow_maps :
  exists ctx post,
    skipn 10 (drawsOf (gpuLog (RenderScene true) freshContext)) = (gFloor, ctx) :: post /\
    psResources ctx 1 = Some gShadowMap1SRV /\
    psResources ctx 2 = Some gShadowMap2SRV /\
    depthStencil ctx = Some gDepthStencil.
Proof. eexists. eexists. split; [reflexivity|]. split; [|split]; reflexivity. Qed.

End C5.

Module C6.
Import Scene FrameTerms SceneFacts.

(** *** Consecutive elements *)

Section Adjacent.

Context {A : Type}.

Lemma adjacent_cons2 (a b : A) (l : list A) :
  adjacent (a :: b :: l) = (a, b) :: adjacent (b :: l).
Proof. reflexivity. Qed.

Lemma In_adjacent_app_l (p : A * A) (l1 l2 : list A) :
  In p (adjacent l1) -> In p (adjacent (l1 ++ l2)).
Proof.
  induction l1 as [|x [|y l1] IH]; intros Hin.
  - destruct Hin.
  - destruct Hin.
  - change ((x :: y :: l1) ++ l2) with (x :: y :: (l1 ++ l2)).
    rewrite adjacent_cons2 in *. destruct Hin as [<- | Hin].
    + now left.
    + right. apply IH. exact Hin.
Qed.

Lemma In_adjacent_app_r (p : A * A) (l1 l2 : list A) :
  In p (adjacent l2) -> In p (adjacent (l1 ++ l2)).
Proof.
  intros Hin. induction l1 as [|x l1 IH]; [exact Hin|].
  change ((x :: l1) ++ l2) with (x :: (l1 ++ l2)).
  destruct (l1 ++ l2) as [|y r]; [destruct IH|].
  rewrite adjacent_cons2. now right.
Qed.

Lemma In_adjacent_boundary (a b : A) (l1 l2 : list A) :
  In (a, b) (adjacent ((l1 ++ [a]) ++ b :: l2)).
Proof.
  induction l1 as [|x l1 IH].
  - now left.
  - change (((x :: l1) ++ [a]) ++ b :: l2) with (x :: ((l1 ++ [a]) ++ b :: l2)).
    destruct ((l1 ++ [a]) ++ b :: l2) as [|y r]; [destruct IH|].
    rewrite adjacent_cons2. now right.
Qed.

(** A consecutive pair of [l1 ++ l2] lies in [l1], lies in [l2], or is
    the last element of [l1] followed by the first of [l2]. *)
Lemma In_adjacent_app (a b : A) (l1 l2 : list A) :
  In (a, b) (adjacent (l1 ++ l2)) ->
  In (a, b) (adjacent l1) \/ In (a, b) (adjacent l2) \/
  ((exists l1', l1 = l1' ++ [a]) /\ (exists l2', l2 = b :: l2')).
Proof.
  induction l1 as [|x [|y l1] IH]; intros Hin.
  - right. left. exact Hin.
  - destruct l2 as [|z l2]; [destruct Hin|].
    change ([x] ++ z :: l2) with (x :: z :: l2) in Hin.
    rewrite adjacent_cons2 in Hin. destruct Hin as [Heq | Hin].
    + injection Heq as <- <-. right. right. split; [now exists []|now exists l2].
    + right. left. exact Hin.
  - change ((x :: y :: l1) ++ l2) with (x :: y :: (l1 ++ l2)) in Hin.
    rewrite adjacent_cons2 in Hin. destruct Hin as [Heq | Hin].
    + left. rewrite adjacent_cons2. now left.
    + destruct (IH Hin) as [Hl | [Hr | ((l1' & Hl1) & Hl2)]].
      * left. rewrite adjacent_cons2. now right.
      * right. left. exact Hr.
      * right. right. split; [|exact Hl2].
        exists (x :: l1'). now rewrite Hl1.
Qed.

(** Consecutive pairs of a list repeated any number of times are
    consecutive pairs of the list repeated twice. *)
Lemma In_adjacent_repeat (a b : A) (l : list A) (n : nat) :
  In (a, b) (adjacent (List.concat (repeat l n))) ->
  In (a, b) (adjacent (l ++ l)).
Proof.
  induction n as [|n IH]; intros Hin; [destruct Hin|].
  change (List.concat (repeat l (S n))) with (l ++ List.concat (repeat l n)) in Hin.
  destruct (In_adjacent_app _ _ _ _ Hin) as [Hl | [Hr | ((l1' & Hl1) & (l2' & Hl2))]].
  - now apply In_adjacent_app_l.
  - now apply IH.
  - destruct n as [|n]; [discriminate Hl2|].
    change (List.concat (repeat l (S n))) with (l ++ List.concat (repeat l n)) in Hl2.
    destruct l as [|x l]; [now destruct l1'|].
    injection Hl2 as <- _.
    rewrite Hl1 at 1. apply In_adjacent_boundary.
Qed.

End Adjacent.

Lemma adjacent_map {A B : Type} (f : A -> B) (l : list A) :
  adjacent (map f l) = map (fun p => (f (fst p), f (snd p))) (adjacent l).
Proof.
  induction l as [|x [|y l] IH]; try reflexivity.
  change (map f (x :: y :: l)) with (f x :: f y :: map f l).
  rewrite !adjacent_cons2. cbn [map fst snd]. f_equal. exact IH.
Qed.

(** *** The draws of a frame *)

Lemma drawContexts_app (a b : list Cmd) (ctx : Context) :
  drawContexts (a ++ b) ctx = drawContexts a ctx ++ drawContexts b (execAll a ctx).
Proof.
  unfold drawContexts, drawsOf. now rewrite gpuLog_app, flat_map_app, map_app.
Qed.

(** The groups and states of the draws of a frame do not depend on the
    context the frame starts from. *)
Lemma RenderScene_stamps (lockFPS : bool) (ctx : Context) :
  map stamp (drawContexts (RenderScene lockFPS) ctx) = frameStamps.
Proof.
  destruct ctx as [rt ds vp vs ps bs dss rs res smp].
  vm_compute. reflexivity.
Qed.

Lemma RenderFrames_stamps (locks : list bool) (ctx0 : Context) :
  map stamp (drawContexts (RenderFrames locks) ctx0)
  = List.concat (repeat frameStamps (Datatypes.length locks)).
Proof.
  revert ctx0. induction locks as [|lockFPS locks IH]; intros ctx0; [reflexivity|].
  change (RenderFrames (lockFPS :: locks))
    with (RenderScene lockFPS ++ RenderFrames locks).
  rewrite drawContexts_app, map_app, RenderScene_stamps, IH. reflexivity.
Qed.

Lemma frameStamps_restored :
  Forall (fun p => restored (fst p) (snd p)) (adjacent (frameStamps ++ frameStamps)).
Proof.
  repeat (constructor;
          [split;
           [intros Hps; first [discriminate Hps | reflexivity]
           |intros Hps Hgroup;
            first [discriminate Hps | exfalso; apply Hgroup; reflexivity
                  | split; reflexivity]]|]).
  constructor.
Qed.

Lemma frameStamps_by_group :
  Forall (fun s : Stamp =>
            (snd (fst s) = Some gPixelLightingPixelShader \/
             snd (fst s) = Some gMixingTexturesPixelShader \/
             snd (fst s) = Some gScrollingPixelShader \/
             snd (fst s) = Some gCellShadingPixelShader -> snd s = defaults) /\
            (snd (fst s) = Some gDepthOnlyPixelShader -> snd s = shadowPassStates))
         frameStamps.
Proof.
  repeat (constructor;
          [split;
           [intros [Hps | [Hps | [Hps | Hps]]]; first [discriminate Hps | reflexivity]
           |intros Hps; first [discriminate Hps | reflexivity]]|]).
  constructor.
Qed.

Lemma In_concat_repeat {A : Type} (x : A) (l : list A) (n : nat) :
  In x (List.concat (repeat l n)) -> In x l.
Proof.
  induction n as [|n IH]; intros Hin; [destruct Hin|].
  change (List.concat (repeat l (S n))) with (l ++ List.concat (repeat l n)) in Hin.
  apply in_app_or in Hin. destruct Hin as [Hin | Hin]; [exact Hin|now apply IH].
Qed.

(** C6 (as amended). Over any number of frames, from any context: the
    draw that follows the cell-shading outline draw is issued under the
    default states (no blending, depth writes, back-face culling); the
    first draw after the light markers, which is the first draw of the
    next frame's shadow pass, is issued with no blending and depth writes,
    under the front-face culling of the shadow pass; and every draw of the
    lit, mixing, scrolling and cell-shading groups is issued under the
    default states, every shadow-pass draw under the shadow-pass states. *)
Theorem pipeline_states_restored (locks : list bool) (ctx0 : Context) :
  let draws := drawContexts (RenderFrames locks) ctx0 in
  (forall c1 c2, In (c1, c2) (adjacent draws) ->
     (pixelShader c1 = Some gCellShadingOutlinePixelShader -> statesAt c2 = defaults) /\
     (pixelShader c1 = Some gLightModelPixelShader -> group c2 <> group c1 ->
      pixelShader c2 = Some gDepthOnlyPixelShader /\
      blendState c2 = Some gNoBlendingState /\
      depthStencilState c2 = Some gUseDepthBufferState /\
      rasterizerState c2 = Some gCullFrontState)) /\
  (forall c, In c draws -> defaultGroup c -> statesAt c = defaults) /\
  (forall c, In c draws ->
     pixelShader c = Some gDepthOnlyPixelShader -> statesAt c = shadowPassStates).
Proof.
  intros draws.
  assert (Hstamps := RenderFrames_stamps locks ctx0). fold draws in Hstamps.
  assert (Hgroup : forall c, In c draws ->
            (defaultGroup c -> statesAt c = defaults) /\
            (pixelShader c = Some gDepthOnlyPixelShader -> statesAt c = shadowPassStates)).
  { intros c Hin. apply (in_map stamp) in Hin. rewrite Hstamps in Hin.
    apply In_concat_repeat in Hin.
    exact (proj1 (Forall_forall _ _) frameStamps_by_group _ Hin). }
  split; [|split].
  - intros c1 c2 Hin.
    apply (in_map (fun p => (stamp (fst p), stamp (snd p)))) in Hin.
    rewrite <- adjacent_map, Hstamps in Hin. cbn [fst snd] in Hin.
    apply In_adjacent_repeat in Hin.
    destruct (proj1 (Forall_forall _ _) frameStamps_restored _ Hin) as (Houtline & Hmarker).
    split; [exact Houtline|].
    intros Hps Hne. destruct (Hmarker Hps) as (Hshadow & Hstates).
    + intros Heq. apply Hne. exact Heq.
    + split; [exact Hshadow|].
      unfold statesAt, shadowPassStates in Hstates. cbn [stamp snd] in Hstates.
      injection Hstates as Hb Hd Hr. now rewrite Hb, Hd, Hr.
  - intros c Hin. apply (Hgroup c Hin).
  - intros c Hin. apply (Hgroup c Hin).
Qed.

Lemma In_adjacent_nth {A : Type} (l : list A) (i : nat) (d : A) :
  (S i < Datatypes.length l)%nat -> In (nth i l d, nth (S i) l d) (adjacent l).
Proof.
  revert i. induction l as [|x [|y l] IH]; intros i Hi; cbn [Datatypes.length] in Hi.
  - lia.
  - lia.
  - rewrite adjacent_cons2. destruct i as [|i]; [now left|].
    right. apply (IH i). cbn [Datatypes.length]. lia.
Qed.

(** Two frames on a fresh device: the troll outline is draw 14 of the
    first frame and the cell-shaded troll, draw 15, follows it under the
    default states. *)
Lemma pipeline_states_restored_witness :
  let draws := drawContexts (RenderFrames [true; true]) freshContext in
  In (nth 14 draws freshContext, nth 15 draws freshContext) (adjacent draws) /\
  pixelShader (nth 14 draws freshContext) = Some gCellShadingOutlinePixelShader /\
  statesAt (nth 15 draws freshContext) = defaults.
Proof.
  intros draws.
  assert (Hin : In (nth 14 draws freshContext, nth 15 draws freshContext)
                   (adjacent draws)).
  { apply In_adjacent_nth. vm_compute. lia. }
  split; [exact Hin|]. split; [reflexivity|].
  apply (proj1 (proj1 (pipeline_states_restored [true; true] freshContext) _ _ Hin)).
  reflexivity.
Defined.

(** C6 as worded promises back-face culling at the next draw after
    every group that alters the states. After the second light marker,
    draw 17, the next draw is the floor of the following frame's shadow
    pass, draw 18, and it is issued under front-face culling. *)
Lemma shadow_pass_follows_markers_cull_front :
  ~ (forall (locks : list bool) (ctx0 : Context) (c1 c2 : Context),
       In (c1, c2) (adjacent (drawContexts (RenderFrames locks) ctx0)) ->
       alteringGroup c1 -> group c2 <> group c1 -> statesAt c2 = defaults).
Proof.
  intros Hclaim.
  pose (draws := drawContexts (RenderFrames [true; true]) freshContext).
  specialize (Hclaim [true; true] freshContext
                (nth 17 draws freshContext) (nth 18 draws freshContext)).
  assert (Hstates : statesAt (nth 18 draws freshContext) = defaults).
  { apply Hclaim.
    - apply In_adjacent_nth. vm_compute. lia.
    - right. reflexivity.
    - vm_compute. discriminate. }
  vm_compute in Hstates. discriminate Hstates.
Qed.

End C6.

(** ** Initialisation (Shader.cpp, Scene.cpp) *)

Module CppFacts.
Import Scene Cpp.

Lemma In_stored (x r : Resource) (ok : bool) (globals : list Resource) :
  In x (stored r ok globals) <-> (ok = true /\ x = r) \/ (x <> r /\ In x globals).
Proof.
  unfold stored. rewrite in_app_iff. split.
  - intros [Hin | Hin].
    + destruct ok; [|destruct Hin]. destruct Hin as [<- | []]. left. now split.
    + apply in_remove in Hin. right. destruct Hin as [Hin Hne]. now split.
  - intros [[-> ->] | [Hne Hin]]; [left; now left|right].
    now apply in_in_remove.
Qed.

Lemma In_stored_here (r : Resource) (globals : list Resource) :
  In r (stored r true globals).
Proof. apply In_stored. left. now split. Qed.

Lemma In_stored_there (x r : Resource) (ok : bool) (globals : list Resource) :
  x <> r -> In x globals -> In x (stored r ok globals).
Proof. intros Hne Hin. apply In_stored. right. now split. Qed.

Lemma In_stored_other (x r : Resource) (ok : bool) (globals : list Resource) :
  x <> r -> In x (stored r ok globals) <-> In x globals.
Proof.
  intros Hne. rewrite In_stored. split.
  - intros [[_ Heq] | [_ Hin]]; [now elim Hne|exact Hin].
  - intros Hin. right. now split.
Qed.

Lemma In_stored_same (r : Resource) (ok : bool) (globals : list Resource) :
  In r (stored r ok globals) <-> ok = true.
Proof.
  rewrite In_stored. split.
  - intros [[Hok _] | [Hne _]]; [exact Hok|now elim Hne].
  - intros Hok. left. now split.
Qed.

(** [LoadShaders] writes the shader globals only. *)
Lemma storedShaders_keeps (w : World) (globals : list Resource) (r : Resource) :
  isShader r = false -> In r (storedShaders w globals) <-> In r globals.
Proof.
  intros Hr. unfold storedShaders.
  rewrite !In_stored_other by (intros ->; discriminate Hr). reflexivity.
Qed.

(** Each shader global is set exactly when its own load succeeded. *)
Lemma storedShaders_VS (w : World) (globals : list Resource)
    (s : VertexShader) (shaderName : string) :
  In (s, shaderName) vertexShaders ->
  In (VS s) (storedShaders w globals) <-> LoadVertexShader w shaderName = true.
Proof.
  intros Hin. cbn in Hin. unfold storedShaders.
  repeat (destruct Hin as [Heq | Hin];
          [injection Heq as <- <-;
           rewrite ?In_stored_other by discriminate; apply In_stored_same|]).
  destruct Hin.
Qed.

Lemma storedShaders_PS (w : World) (globals : list Resource)
    (s : PixelShader) (shaderName : string) :
  In (s, shaderName) pixelShaders ->
  In (PS s) (storedShaders w globals) <-> LoadPixelShader w shaderName = true.
Proof.
  intros Hin. cbn in Hin. unfold storedShaders.
  repeat (destruct Hin as [Heq | Hin];
          [injection Heq as <- <-;
           rewrite ?In_stored_other by discriminate; apply In_stored_same|]).
  destruct Hin.
Qed.

End CppFacts.

Module C8.
Import Scene Cpp CppFacts Fixtures.
Local Open Scope string_scope.

Ltac name_shader_queries w :=
  generalize (LoadVertexShader w "ShadowMapping_vs")
             (LoadPixelShader w "ShadowMapping_ps")
             (LoadVertexShader w "BasicTransform_vs")
             (LoadPixelShader w "LightModel_ps")
             (LoadPixelShader w "DepthOnly_ps")
             (LoadVertexShader w "Wiggling_vs")
             (LoadPixelShader w "Scrolling_ps")
             (LoadPixelShader w "MixingTextures_ps")
             (LoadVertexShader w "CellShading_vs")
             (LoadPixelShader w "CellShading_ps")
             (LoadVertexShader w "CellShadingOutline_vs")
             (LoadPixelShader w "CellShadingOutline_ps");
  intros v1 p1 v2 p2 p3 v3 p4 p5 v4 p6 v5 p7.

(** [LoadShaders] yields true exactly when all twelve shaders load, and
    otherwise leaves its message in [gLastError]; either way every one of
    the twelve globals holds the result of its own load. *)
Lemma LoadShaders_eq (w : World) (g : Globals) :
  LoadShaders w g =
    (Normal (shadersLoad w),
     mkGlobals (if shadersLoad w then gLastError g else "Error loading shaders")
               (storedShaders w (created g))).
Proof.
  destruct g as [err cr].
  cbv [LoadShaders shadersLoad storedShaders loadVS loadPS assign bind
       set_gLastError ret
       vertexShaders pixelShaders forallb snd fst map gLastError created].
  name_shader_queries w.
  assert (Hcheck : negb v1 || negb p1 || negb v3 || negb v2 || negb p2 || negb p3
                   || negb p4 || negb p5 || negb v4 || negb p6 || negb v5 || negb p7
                   = negb (v1 && (v2 && (v3 && (v4 && (v5 && true)))) &&
                           (p1 && (p2 && (p3 && (p4 && (p5 && (p6 && (p7 && true)))))))))
    by btauto.
  rewrite Hcheck.
  destruct (v1 && _ && _); reflexivity.
Qed.

Lemma storedShaders_all (w : World) (globals : list Resource) :
  shadersLoad w = true ->
  incl (map (fun s => VS (fst s)) vertexShaders ++ map (fun s => PS (fst s)) pixelShaders)
       (storedShaders w globals).
Proof.
  intros Hall r Hin. unfold shadersLoad in Hall.
  apply andb_prop in Hall. destruct Hall as [Hvs Hps].
  apply in_app_or in Hin. destruct Hin as [Hin | Hin];
    apply in_map_iff in Hin; destruct Hin as ([s shaderName] & <- & Hin); cbn [fst].
  - apply (storedShaders_VS w globals Hin).
    exact (proj1 (forallb_forall _ _) Hvs _ Hin).
  - apply (storedShaders_PS w globals Hin).
    exact (proj1 (forallb_forall _ _) Hps _ Hin).
Qed.

Ltac run_init :=
  cbv [call InitGeometry try_catch bind new_Mesh throw ret return_ set_gLastError
       assign fill fail_if failed or_else loadTexture gLastError created negb orb
       firstFailure everyStepSucceeds initSteps step meshFiles map app fold_right
       forallb andb fst snd buffersCreated texturesLoad textures].

(** Membership in a list written out. *)
Ltac listed := repeat (first [left; reflexivity | right]).

(** Membership in the globals after a run of assignments. *)
Ltac member :=
  solve [ repeat first
            [ left; reflexivity
            | apply In_stored_here
            | apply In_stored_there; [discriminate|]
            | apply storedShaders_keeps; [reflexivity|]
            | right ] ].

(** A branch in which a step has just failed. *)
Ltac failed_step :=
  run_init;
  split; [intros Hok; discriminate Hok
         |intros _; eexists; split; [reflexivity|split; reflexivity]].

(** C8. [InitGeometry] returns true when every initialisation step
    succeeds, with every mesh, shader, constant buffer, texture, shadow-map
    texture and view, and the states created; when a step fails it returns
    false with [gLastError] holding the message of the first step that
    failed: the text of the exception for a mesh, or the fixed message of
    the step. No exception escapes it. *)
Theorem InitGeometry_all_or_nothing (w : World) (g : Globals) :
  let result := call (InitGeometry w) g in
  (everyStepSucceeds w = true ->
   fst result = Some true /\
   gLastError (snd result) = gLastError g /\
   incl allResources (created (snd result))) /\
  (everyStepSucceeds w = false ->
   exists msg, firstFailure w = Some msg /\
               fst result = Some false /\
               gLastError (snd result) = msg).
Proof.
  destruct g as [err cr]. cbv zeta.
  run_init.
  destruct (newMesh w "Models/Teapot.x") as [what|]; [failed_step|].
  destruct (newMesh w "Models/Sphere.x") as [what|]; [failed_step|].
  destruct (newMesh w "Models/Cube.x") as [what|]; [failed_step|].
  destruct (newMesh w "Models/Floor.x") as [what|]; [failed_step|].
  destruct (newMesh w "Models/Light.x") as [what|]; [failed_step|].
  destruct (newMesh w "Models/troll.x") as [what|]; [failed_step|].
  run_init. rewrite LoadShaders_eq.
  destruct (shadersLoad w) eqn:Hshaders; [|failed_step].
  run_init.
  destruct (CreateConstantBuffer w gPerFrameConstantBuffer),
           (CreateConstantBuffer w gPerModelConstantBuffer);
    [|failed_step|failed_step|failed_step].
  destruct (LoadTexture w "Textures/PatternDiffuseSpecular.dds" gTeapotDiffuseSpecularMapSRV);
    [|failed_step].
  destruct (LoadTexture w "Textures/PatternDiffuseSpecular.dds" gSphereDiffuseSpecularMapSRV);
    [|failed_step].
  destruct (LoadTexture w "Textures/StoneDiffuseSpecular.dds" gCubeDiffuseSpecularMapSRV);
    [|failed_step].
  destruct (LoadTexture w "Textures/WoodDiffuseSpecular.dds" gFloorDiffuseSpecularMapSRV);
    [|failed_step].
  destruct (LoadTexture w "Textures/Flare.jpg" gLightDiffuseMapSRV); [|failed_step].
  destruct (LoadTexture w "Textures/Green.png" gTrollDiffuseMapSRV); [|failed_step].
  destruct (LoadTexture w "Textures/CellGradient.png" gCellMapSRV); [|failed_step].
  destruct (CreateTexture2D w gShadowMap1Texture); [|failed_step].
  destruct (CreateDepthStencilView w gShadowMap1DepthStencil); [|failed_step].
  destruct (CreateShaderResourceView w gShadowMap1SRV); [|failed_step].
  destruct (CreateTexture2D w gShadowMap2Texture); [|failed_step].
  destruct (CreateDepthStencilView w gShadowMap2DepthStencil); [|failed_step].
  destruct (CreateShaderResourceView w gShadowMap2SRV); [|failed_step].
  destruct (CreateStates w); [|failed_step].
  run_init.
  split; [intros _|intros Hno; discriminate Hno].
  split; [reflexivity|]. split; [reflexivity|].
  intros r Hin. unfold allResources in Hin. rewrite !in_app_iff in Hin.
  destruct Hin as [Hin | [Hin | [Hin | Hin]]].
  - cbn in Hin.
    repeat (destruct Hin as [<- | Hin]; [member|]). destruct Hin.
  - do 21 right. apply In_stored_there; [apply in_map_iff in Hin;
      destruct Hin as (s & <- & _); discriminate|].
    apply In_stored_there; [apply in_map_iff in Hin;
      destruct Hin as (s & <- & _); discriminate|].
    apply (storedShaders_all w _ Hshaders). apply in_or_app. now left.
  - do 21 right. apply In_stored_there; [apply in_map_iff in Hin;
      destruct Hin as (s & <- & _); discriminate|].
    apply In_stored_there; [apply in_map_iff in Hin;
      destruct Hin as (s & <- & _); discriminate|].
    apply (storedShaders_all w _ Hshaders). apply in_or_app. now right.
  - rewrite <- !in_app_iff in Hin. cbn in Hin.
    repeat (destruct Hin as [<- | Hin]; [member|]). destruct Hin.
Qed.

(** In the barren world every step fails; the first to fail is the
    teapot mesh. *)
Lemma InitGeometry_all_or_nothing_witness :
  everyStepSucceeds barrenWorld = false /\
  exists msg,
    firstFailure barrenWorld = Some msg /\
    fst (call (InitGeometry barrenWorld) (mkGlobals "" [])) = Some false /\
    gLastError (snd (call (InitGeometry barrenWorld) (mkGlobals "" []))) = msg.
Proof.
  split.
  - reflexivity.
  - apply (proj2 (InitGeometry_all_or_nothing barrenWorld (mkGlobals "" []))).
    reflexivity.
Defined.

Example InitGeometry_missing_teapot :
  call (InitGeometry barrenWorld) (mkGlobals "" [])
  = (Some false, mkGlobals "Cannot open Models/Teapot.x" []).
Proof. reflexivity. Qed.

End C8.

(** ** Shader.cpp: constant buffers and vertex-layout signatures *)

Module ShaderCppFacts.
Import ShaderCpp.
Local Open Scope Z_scope.

(** X1. The byte width asked of the device is the least multiple of 16 that
    holds [size] bytes, for every size for which [size + 15] is an [int]. *)
Theorem constant_buffer_width (size : Z) :
  0 <= size <= 2147483632 ->
  ByteWidth (cbDesc size) mod 16 = 0 /\
  size <= ByteWidth (cbDesc size) < size + 16 /\
  (forall w, w mod 16 = 0 -> size <= w -> ByteWidth (cbDesc size) <= w).
Proof.
  intros Hsize. cbn [ByteWidth cbDesc]. unfold int32, uint32.
  assert (Hq := Z.quot_div_nonneg (size + 15) 16 ltac:(lia) ltac:(lia)).
  assert (Hdm := Z.div_mod (size + 15) 16 ltac:(lia)).
  assert (Hm := Z.mod_pos_bound (size + 15) 16 ltac:(lia)).
  rewrite (Z.mod_small (size + 15 + 2147483648)) by lia.
  replace (size + 15 + 2147483648 - 2147483648) with (size + 15) by lia.
  rewrite Hq.
  rewrite (Z.mod_small (16 * ((size + 15) / 16) + 2147483648)) by lia.
  replace (16 * ((size + 15) / 16) + 2147483648 - 2147483648)
    with (16 * ((size + 15) / 16)) by lia.
  rewrite (Z.mod_small (16 * ((size + 15) / 16))) by lia.
  split; [|split].
  - rewrite Z.mul_comm. apply Z.mod_mul. lia.
  - lia.
  - intros w Hw Hle.
    assert (Hwdm := Z.div_mod w 16 ltac:(lia)). rewrite Hw in Hwdm. lia.
Qed.

Lemma constant_buffer_width_witness :
  0 <= 328 <= 2147483632 /\ ByteWidth (cbDesc 328) mod 16 = 0.
Proof.
  split; [lia|]. apply (@constant_buffer_width 328). lia.
Defined.

Local Close Scope Z_scope.
Local Open Scope string_scope.

Lemma append_nil_r (s : string) : s ++ EmptyString = s.
Proof. induction s as [|c s IH]; cbn; [reflexivity|now rewrite IH]. Qed.

Lemma append_assoc (a b c : string) : (a ++ b) ++ c = a ++ (b ++ c).
Proof. induction a as [|x a IH]; cbn; [reflexivity|now rewrite IH]. Qed.

Lemma parameterText_supported (e : D3D11_INPUT_ELEMENT_DESC) (type : string) :
  formatType (Format e) = Some type ->
  parameterText e = type ++ " " ++ semanticName e ++ " : " ++ semanticName e.
Proof. unfold parameterText, parameter. now intros ->. Qed.

(** The loop, with its test for the last element, writes the parameters
    separated by " , ". *)
Lemma forElements_join (rest : list D3D11_INPUT_ELEMENT_DESC) :
  forall (numElements elt : nat) (shaderSource : string),
    forallb supported rest = true ->
    numElements = (elt + Datatypes.length rest)%nat ->
    forElements numElements elt rest shaderSource
    = Some (shaderSource ++ String.concat " , " (map parameterText rest)).
Proof.
  induction rest as [|e rest IH]; intros n elt acc Hsup Hn.
  - cbn. now rewrite append_nil_r.
  - cbn [forallb] in Hsup. apply andb_prop in Hsup. destruct Hsup as [He Hrest].
    unfold supported in He. cbn [forElements].
    destruct (formatType (Format e)) as [type|] eqn:Htype; [|discriminate He].
    cbn [Datatypes.length] in Hn.
    destruct rest as [|e2 rest].
    + assert (Hlast : Nat.eqb elt (n - 1) = true) by (apply Nat.eqb_eq; cbn in Hn; lia).
      rewrite Hlast. cbn [negb forElements map String.concat].
      rewrite (parameterText_supported e Htype). f_equal.
      now rewrite !append_assoc.
    + assert (Hmore : Nat.eqb elt (n - 1) = false)
        by (apply Nat.eqb_neq; cbn in Hn; lia).
      rewrite Hmore. cbn [negb].
      rewrite (IH n (S elt) _ Hrest) by (cbn [Datatypes.length] in *; lia).
      f_equal. change (map parameterText (e :: e2 :: rest))
        with (parameterText e :: map parameterText (e2 :: rest)).
      cbn [String.concat map].
      rewrite (parameterText_supported e Htype). now rewrite !append_assoc.
Qed.

Lemma forElements_unsupported (rest : list D3D11_INPUT_ELEMENT_DESC) :
  forall (numElements elt : nat) (shaderSource : string),
    forallb supported rest = false ->
    forElements numElements elt rest shaderSource = None.
Proof.
  induction rest as [|e rest IH]; intros n elt acc Hsup; [discriminate Hsup|].
  cbn [forallb] in Hsup. cbn [forElements]. unfold supported in Hsup.
  destruct (formatType (Format e)) as [type|]; [|reflexivity].
  cbn [andb] in Hsup. now apply IH.
Qed.

(** X2. When every element has one of the four float formats, the source
    handed to the compiler is "float4 main(", the parameters joined by
    " , ", and ") : SV_Position {return 0;}", and the result is the
    compiler's. *)
Theorem signature_source {Blob : Type} (D3DCompile : string -> option Blob)
    (vertexLayout : list D3D11_INPUT_ELEMENT_DESC) :
  forallb supported vertexLayout = true ->
  CreateSignatureForVertexLayout D3DCompile vertexLayout
  = D3DCompile (signatureSource vertexLayout).
Proof.
  intros Hsup. unfold CreateSignatureForVertexLayout.
  rewrite (@forElements_join vertexLayout (Datatypes.length vertexLayout) 0 _ Hsup eq_refl).
  unfold signatureSource. rewrite append_assoc.
  now destruct (D3DCompile _).
Qed.

Lemma signature_source_witness :
  CreateSignatureForVertexLayout echo texturedLayout
  = Some ("float4 main(float3 position0 : position0 , float3 normal0 : normal0 , "
          ++ "float2 uv0 : uv0) : SV_Position {return 0;}").
Proof. exact (@signature_source string echo texturedLayout eq_refl). Defined.

(** X3. An element of any other format makes the function return nullptr,
    whatever the compiler would have answered. *)
Theorem signature_unsupported_format {Blob : Type} (D3DCompile : string -> option Blob)
    (vertexLayout : list D3D11_INPUT_ELEMENT_DESC) :
  forallb supported vertexLayout = false ->
  CreateSignatureForVertexLayout D3DCompile vertexLayout = None.
Proof.
  intros Hsup. unfold CreateSignatureForVertexLayout.
  now rewrite forElements_unsupported.
Qed.

Lemma signature_unsupported_format_witness :
  CreateSignatureForVertexLayout echo colouredLayout = None.
Proof. exact (@signature_unsupported_format string echo colouredLayout eq_refl). Defined.

(** X4. A semantic index below ten is written as its decimal digit; ten is
    not written in decimal but as the character after '9'; and indices 256
    apart are written alike. *)
Theorem semantic_index_suffix (e : D3D11_INPUT_ELEMENT_DESC) :
  ((SemanticIndex e < 10)%N ->
   semanticName e
   = SemanticName e ++ DecimalString.NilEmpty.string_of_uint (N.to_uint (SemanticIndex e))) /\
  (SemanticIndex e = 10%N -> semanticName e = SemanticName e ++ ":") /\
  indexChar (SemanticIndex e + 256) = indexChar (SemanticIndex e).
Proof.
  unfold semanticName. split; [|split].
  - intros Hlt. f_equal.
    destruct (SemanticIndex e) as [|p]; [reflexivity|].
    do 4 (destruct p as [p|p|]; try reflexivity; try (exfalso; lia)).
  - intros ->. reflexivity.
  - unfold indexChar. f_equal. f_equal. f_equal.
    rewrite <- (N.Div0.add_mod_idemp_r (SemanticIndex e) 256 256).
    rewrite N.Div0.mod_same, N.add_0_r. reflexivity.
Qed.

Lemma semantic_index_suffix_witness :
  semanticName {| SemanticName := "TEXCOORD"; SemanticIndex := 3;
                  Format := DXGI_FORMAT_R32G32_FLOAT |} = "TEXCOORD3".
Proof.
  exact (proj1 (semantic_index_suffix
                  {| SemanticName := "TEXCOORD"; SemanticIndex := 3;
                     Format := DXGI_FORMAT_R32G32_FLOAT |}) eq_refl).
Defined.

End ShaderCppFacts.

(** ** Initialisation and clean-up together *)

Module CleanupFacts.
Import Scene Cpp Cleanup.
Local Open Scope string_scope.

Ltac run :=
  cbv [call InitGeometry try_catch bind new_Mesh throw ret return_ set_gLastError
       assign fill fail_if failed or_else loadTexture gLastError created negb orb
       firstFailure everyStepSucceeds initSteps step meshFiles map app fold_right
       forallb andb fst snd buffersCreated texturesLoad textures].

Lemma storedShaders_on_success (w : World) (globals : list Resource) :
  shadersLoad w = true ->
  storedShaders w globals = storedShaders plentifulWorld globals.
Proof.
  cbv [shadersLoad storedShaders vertexShaders pixelShaders forallb snd fst
       plentifulWorld LoadVertexShader LoadPixelShader].
  intros Hall.
  repeat match goal with
         | H : _ && _ = true |- _ => apply andb_prop in H; destruct H
         end.
  repeat match goal with H : _ = true |- _ => rewrite H; clear H end.
  reflexivity.
Qed.

(** After a successful [InitGeometry] on globals with nothing created,
    the globals set are exactly the listed ones. *)
Lemma InitGeometry_success (w : World) (err : string) :
  everyStepSucceeds w = true ->
  call (InitGeometry w) (mkGlobals err []) = (Some true, mkGlobals err createdOnSuccess).
Proof.
  run.
  destruct (newMesh w "Models/Teapot.x"); [intros H; discriminate H|].
  destruct (newMesh w "Models/Sphere.x"); [intros H; discriminate H|].
  destruct (newMesh w "Models/Cube.x"); [intros H; discriminate H|].
  destruct (newMesh w "Models/Floor.x"); [intros H; discriminate H|].
  destruct (newMesh w "Models/Light.x"); [intros H; discriminate H|].
  destruct (newMesh w "Models/troll.x"); [intros H; discriminate H|].
  run. rewrite C8.LoadShaders_eq.
  destruct (shadersLoad w) eqn:Hshaders; [|intros H; discriminate H].
  rewrite (storedShaders_on_success w _ Hshaders).
  run.
  destruct (CreateConstantBuffer w gPerFrameConstantBuffer),
           (CreateConstantBuffer w gPerModelConstantBuffer);
    try (intros H; discriminate H).
  destruct (LoadTexture w "Textures/PatternDiffuseSpecular.dds" gTeapotDiffuseSpecularMapSRV);
    [|intros H; discriminate H].
  destruct (LoadTexture w "Textures/PatternDiffuseSpecular.dds" gSphereDiffuseSpecularMapSRV);
    [|intros H; discriminate H].
  destruct (LoadTexture w "Textures/StoneDiffuseSpecular.dds" gCubeDiffuseSpecularMapSRV);
    [|intros H; discriminate H].
  destruct (LoadTexture w "Textures/WoodDiffuseSpecular.dds" gFloorDiffuseSpecularMapSRV);
    [|intros H; discriminate H].
  destruct (LoadTexture w "Textures/Flare.jpg" gLightDiffuseMapSRV);
    [|intros H; discriminate H].
  destruct (LoadTexture w "Textures/Green.png" gTrollDiffuseMapSRV);
    [|intros H; discriminate H].
  destruct (LoadTexture w "Textures/CellGradient.png" gCellMapSRV);
    [|intros H; discriminate H].
  destruct (CreateTexture2D w gShadowMap1Texture); [|intros H; discriminate H].
  destruct (CreateDepthStencilView w gShadowMap1DepthStencil); [|intros H; discriminate H].
  destruct (CreateShaderResourceView w gShadowMap1SRV); [|intros H; discriminate H].
  destruct (CreateTexture2D w gShadowMap2Texture); [|intros H; discriminate H].
  destruct (CreateDepthStencilView w gShadowMap2DepthStencil); [|intros H; discriminate H].
  destruct (CreateShaderResourceView w gShadowMap2SRV); [|intros H; discriminate H].
  destruct (CreateStates w); [|intros H; discriminate H].
  intros _. vm_compute. reflexivity.
Qed.

Ltac listed := solve [repeat (first [left; reflexivity | right])].

(** X5. With [InitGeometry] successful and [InitScene] run, [ReleaseResources]
    releases every resource that was created, calls [ReleaseStates], and
    deletes every mesh, every model and the camera, each exactly once, and
    nothing else; it leaves no mesh, model or camera pointer set. *)
Theorem everything_released_once (w : World) (err : string) :
  everyStepSucceeds w = true ->
  let g := snd (call (InitGeometry w) (mkGlobals err [])) in
  let p := runInitScene (mkPointers g [] false) in
  let log := fst (release ReleaseResources p) in
  let p' := snd (release ReleaseResources p) in
  NoDup log /\ (forall a, In a log <-> owned a) /\
  models p' = [] /\ camera p' = false /\
  (forall file, nonNull p' (MeshPtr file) = false).
Proof.
  intros Hok. rewrite (InitGeometry_success w err Hok). cbn [snd].
  set (r := release ReleaseResources _). vm_compute in r. subst r.
  cbv zeta. cbn [fst snd models camera].
  split; [|split; [|split; [reflexivity|split; [reflexivity|]]]].
  - match goal with |- NoDup ?l =>
      assert (Hfix : nodup Action_eq_dec l = l) by (vm_compute; reflexivity)
    end.
    rewrite <- Hfix. apply NoDup_nodup.
  - intros a. split.
    + intros Hin.
      repeat (destruct Hin as [<- | Hin];
              [first [ exact I
                     | split; [listed|split; [discriminate|intros file; discriminate]]
                     | left; listed
                     | right; exists 0%nat; split; [repeat constructor|reflexivity]
                     | right; exists 1%nat; split; [repeat constructor|reflexivity]
                     | cbn; listed ]|]).
      destruct Hin.
    + destruct a as [r| |m| |file]; cbn [owned].
      * intros (Hin & Hstates & Hmesh). cbn in Hin.
        repeat (destruct Hin as [<- | Hin];
                [first [ now elim Hstates | now elim (Hmesh _ eq_refl) | listed ]|]).
        destruct Hin.
      * intros _. listed.
      * intros [Hin | (i & Hi & ->)].
        -- cbn in Hin. repeat (destruct Hin as [<- | Hin]; [listed|]). destruct Hin.
        -- unfold NUM_LIGHTS in Hi. destruct i as [|[|i]]; [listed|listed|lia].
      * intros _. listed.
      * intros Hin. cbn in Hin.
        repeat (destruct Hin as [<- | Hin]; [listed|]). destruct Hin.
  - intros file. unfold nonNull. cbn [d3d created].
    destruct (in_dec _ _ _) as [Hin|]; [|reflexivity].
    exfalso. cbn in Hin.
    repeat (destruct Hin as [Hin | Hin]; [discriminate Hin|]). destruct Hin.
Qed.

Lemma everything_released_once_witness :
  let g := snd (call (InitGeometry plentifulWorld) (mkGlobals "none" [])) in
  let p := runInitScene (mkPointers g [] false) in
  let log := fst (release ReleaseResources p) in
  let p' := snd (release ReleaseResources p) in
  NoDup log /\ (forall a, In a log <-> owned a) /\
  models p' = [] /\ camera p' = false /\
  (forall file, nonNull p' (MeshPtr file) = false).
Proof. exact (everything_released_once plentifulWorld "none" eq_refl). Defined.

Local Close Scope string_scope.

(** *** Order of the releases *)

Lemma release_app (a b : list ReleaseStmt) (p : Pointers) :
  release (a ++ b) p =
    (fst (release a p) ++ fst (release b (snd (release a p))),
     snd (release b (snd (release a p)))).
Proof.
  revert p. induction a as [|s a IH]; intros p.
  - cbn. now destruct (release b p).
  - cbn [app release]. destruct (releaseStep s p) as [done p1].
    rewrite IH. destruct (release a p1) as [rest p2]. cbn [fst snd].
    destruct (release b p2) as [rest' p3]. cbn [fst snd].
    now rewrite app_assoc.
Qed.

Lemma release_keepsPointers (stmts : list ReleaseStmt) (p : Pointers) :
  forallb keepsPointers stmts = true ->
  release stmts p = (flat_map (fun s => fst (releaseStep s p)) stmts, p).
Proof.
  induction stmts as [|s stmts IH]; intros Hkeep; [reflexivity|].
  cbn [forallb] in Hkeep. apply andb_prop in Hkeep. destruct Hkeep as [Hs Hrest].
  destruct s; try discriminate Hs; cbn [release releaseStep flat_map fst];
    rewrite (IH Hrest); reflexivity.
Qed.

(** Only [if (r) r->Release();] releases [r]. *)
Lemma released_by (s : ReleaseStmt) (p : Pointers) (r : Resource) :
  In (Released r) (fst (releaseStep s p)) -> s = ReleaseIfSet r.
Proof.
  destruct s as [|r'|m| |file]; cbn [releaseStep fst].
  - intros [H|[]]. discriminate H.
  - destruct (nonNull p r'); intros Hin; [|destruct Hin].
    destruct Hin as [H|[]]. now injection H as ->.
  - destruct (hasModel p m); intros Hin; [|destruct Hin].
    destruct Hin as [H|[]]. discriminate H.
  - destruct (camera p); intros Hin; [|destruct Hin].
    destruct Hin as [H|[]]. discriminate H.
  - destruct (nonNull p (MeshPtr file)); intros Hin; [|destruct Hin].
    destruct Hin as [H|[]]. discriminate H.
Qed.

Lemma release_cons (s : ReleaseStmt) (stmts : list ReleaseStmt) (p : Pointers) :
  release (s :: stmts) p =
    (fst (releaseStep s p) ++ fst (release stmts (snd (releaseStep s p))),
     snd (release stmts (snd (releaseStep s p)))).
Proof.
  cbn [release]. destruct (releaseStep s p) as [done p1]. cbn [fst snd].
  now destruct (release stmts p1).
Qed.

Lemma release_deletes_only (stmts : list ReleaseStmt) (p : Pointers) (r : Resource) :
  forallb (fun s => negb (keepsPointers s)) stmts = true ->
  ~ In (Released r) (fst (release stmts p)).
Proof.
  revert p. induction stmts as [|s stmts IH]; intros p Hdel Hin; [exact Hin|].
  cbn [forallb] in Hdel. apply andb_prop in Hdel. destruct Hdel as [Hs Hrest].
  rewrite release_cons in Hin. cbn [fst] in Hin.
  apply in_app_or in Hin. destruct Hin as [Hin | Hin]; [|exact (IH _ Hrest Hin)].
  apply released_by in Hin. subst s. discriminate Hs.
Qed.

(** *** Ordered pairs of a list *)

Section OrdPairs.

Context {A : Type} (R : A -> A -> Prop).

Lemma FOP_app (l1 l2 : list A) :
  ForallOrdPairs R l1 -> ForallOrdPairs R l2 ->
  (forall a b, In a l1 -> In b l2 -> R a b) ->
  ForallOrdPairs R (l1 ++ l2).
Proof.
  intros H1 H2 Hcross. induction H1 as [|a l1 Ha H1 IH]; [exact H2|].
  cbn [app]. constructor.
  - apply Forall_app. split; [exact Ha|].
    apply Forall_forall. intros b Hb. apply Hcross; [now left|exact Hb].
  - apply IH. intros x y Hx Hy. apply Hcross; [now right|exact Hy].
Qed.

Lemma FOP_after (pre post : list A) (x : A) :
  ForallOrdPairs R (pre ++ x :: post) -> Forall (R x) post.
Proof.
  induction pre as [|a pre IH]; intros H; inversion H; subst; [assumption|auto].
Qed.

Lemma FOP_flat_map {B : Type} (Q : B -> B -> Prop) (f : B -> list A) (l : list B) :
  (forall s, ForallOrdPairs R (f s)) ->
  (forall s1 s2, Q s1 s2 -> forall a b, In a (f s1) -> In b (f s2) -> R a b) ->
  ForallOrdPairs Q l -> ForallOrdPairs R (flat_map f l).
Proof.
  intros Hone Hcross Hl. induction Hl as [|s l Hs Hl IH]; [constructor|].
  cbn [flat_map]. apply FOP_app; [apply Hone|exact IH|].
  intros a b Ha Hb. apply in_flat_map in Hb. destruct Hb as (s2 & Hs2 & Hb).
  apply (Hcross s s2); [|exact Ha|exact Hb].
  exact (proj1 (Forall_forall _ _) Hs s2 Hs2).
Qed.

End OrdPairs.

Lemma ReleaseResources_stmtsInOrder :
  ForallOrdPairs stmtsInOrder (firstn 35 ReleaseResources).
Proof.
  cbv [firstn ReleaseResources ReleaseShaders app].
  repeat (constructor;
          [repeat (constructor;
                   [first [exact I | cbn; intros H; first [exact H | discriminate H]]|]);
           constructor|]).
  constructor.
Qed.

(** X6. From any state of the pointers: once a texture has been released, no
    view of it is released afterwards. *)
Theorem views_released_before_textures (p : Pointers) (view texture : Resource)
    (pre post : list Action) :
  viewOf view texture ->
  fst (release ReleaseResources p) = pre ++ Released texture :: post ->
  ~ In (Released view) post.
Proof.
  intros Hview Hlog Hin.
  assert (Hall : ForallOrdPairs (fun a b => ~ textureThenView a b)
                   (fst (release ReleaseResources p))).
  { rewrite <- (firstn_skipn 35 ReleaseResources), release_app. cbn [fst].
    rewrite (release_keepsPointers (firstn 35 ReleaseResources) p eq_refl). cbn [fst snd].
    apply FOP_app.
    - apply FOP_flat_map with (Q := stmtsInOrder).
      + intros s. destruct s as [|r|m| |file]; cbn [releaseStep fst];
          try match goal with |- context [if ?c then _ else _] => destruct c end;
          repeat first [apply FOP_nil | apply FOP_cons | apply Forall_nil].
      + intros s1 s2 Hord a b Ha Hb (v & t & Hvt & -> & ->).
        apply released_by in Ha. apply released_by in Hb. subst s1 s2.
        exact (Hord Hvt).
      + exact ReleaseResources_stmtsInOrder.
    - apply ForallPairs_ForallOrdPairs. intros a b Ha _ (v & t & _ & -> & _).
      exact (release_deletes_only (skipn 35 ReleaseResources) p t eq_refl Ha).
    - intros a b _ Hb (v & t & _ & _ & ->).
      exact (release_deletes_only (skipn 35 ReleaseResources) p v eq_refl Hb). }
  rewrite Hlog in Hall. apply FOP_after in Hall.
  apply (proj1 (Forall_forall _ _) Hall _ Hin).
  exists view, texture. split; [exact Hview|split; reflexivity].
Qed.

Lemma views_released_before_textures_witness :
  let log := fst (release ReleaseResources
                    (runInitScene (afterInitGeometry plentifulWorld "none"%string))) in
  viewOf (SRV gCellMapSRV) (TextureOf gCellMapSRV) /\
  log = firstn 8 log ++ Released (TextureOf gCellMapSRV) :: skipn 9 log /\
  ~ In (Released (SRV gCellMapSRV)) (skipn 9 log).
Proof.
  cbv zeta. split; [reflexivity|]. split; [vm_compute; reflexivity|].
  apply (@views_released_before_textures
           (runInitScene (afterInitGeometry plentifulWorld "none"%string))
           (SRV gCellMapSRV) (TextureOf gCellMapSRV)
           (firstn 8 (fst (release ReleaseResources
                             (runInitScene (afterInitGeometry plentifulWorld "none"%string)))))
           (skipn 9 (fst (release ReleaseResources
                            (runInitScene (afterInitGeometry plentifulWorld "none"%string)))))).
  - reflexivity.
  - vm_compute. reflexivity.
Defined.

End CleanupFacts.

(** ** Clean-up from any state, and after a failed initialisation *)

Module ReleaseFacts.
Import Scene Cpp Cleanup CleanupFacts.

Lemma nonNull_In (p : Pointers) (r : Resource) :
  nonNull p r = true <-> In r (created (d3d p)).
Proof.
  unfold nonNull. destruct (in_dec _ _ _) as [Hin | Hout]; split; auto; discriminate.
Qed.

Lemma hasModel_In (p : Pointers) (m : Model) :
  hasModel p m = true <-> In m (models p).
Proof.
  unfold hasModel. destruct (in_dec _ _ _) as [Hin | Hout]; split; auto; discriminate.
Qed.

Lemma In_remove_iff {A : Type} (dec : forall a b : A, {a = b} + {a <> b})
    (x y : A) (l : list A) :
  In x (remove dec y l) <-> In x l /\ x <> y.
Proof.
  split.
  - apply in_remove.
  - intros [Hin Hne]. now apply in_in_remove.
Qed.

Lemma step_log (s : ReleaseStmt) (p : Pointers) :
  fst (releaseStep s p) = if pending p s then [attempt s] else [].
Proof. destruct s; reflexivity. Qed.

Lemma release_log_incl (stmts : list ReleaseStmt) (p : Pointers) (a : Action) :
  In a (fst (release stmts p)) -> In a (map attempt stmts).
Proof.
  revert p. induction stmts as [|s stmts IH]; intros p Hin; [exact Hin|].
  rewrite release_cons in Hin. cbn [fst] in Hin. rewrite step_log in Hin.
  apply in_app_or in Hin. destruct Hin as [Hin | Hin].
  - destruct (pending p s); [|destruct Hin].
    destruct Hin as [<- | []]. now left.
  - right. exact (IH _ Hin).
Qed.

Lemma release_log_NoDup (stmts : list ReleaseStmt) (p : Pointers) :
  NoDup (map attempt stmts) -> NoDup (fst (release stmts p)).
Proof.
  revert p. induction stmts as [|s stmts IH]; intros p Hnodup; [constructor|].
  cbn [map] in Hnodup. inversion Hnodup as [|a l Hfresh Hrest]; subst.
  rewrite release_cons. cbn [fst]. rewrite step_log.
  destruct (pending p s); cbn [app]; [|exact (IH _ Hrest)].
  constructor; [|exact (IH _ Hrest)].
  intros Hin. apply Hfresh. exact (release_log_incl _ _ _ Hin).
Qed.

(** After a statement, a [delete] finds its pointer set when it did
    before and the statement is not that same [delete]. *)
Lemma pending_after_step (s s' : ReleaseStmt) (p : Pointers) :
  keepsPointers s' = false ->
  pending (snd (releaseStep s p)) s' = true <-> pending p s' = true /\ s' <> s.
Proof.
  intros Hdel.
  destruct s' as [|r'|m'| |file']; try discriminate Hdel;
    destruct s as [|r|m| |file]; cbn [releaseStep snd pending];
    rewrite ?hasModel_In, ?nonNull_In; cbn [models camera d3d created];
    rewrite ?In_remove_iff;
    try (split; [intros H; split; [exact H|discriminate]|intros [H _]; exact H]).
  - split; intros [Hin Hne]; (split; [exact Hin|congruence]).
  - split; [discriminate|]. intros [_ Hne]. now elim Hne.
  - split; intros [Hin Hne]; (split; [exact Hin|congruence]).
Qed.

Lemma pending_after (stmts : list ReleaseStmt) (s' : ReleaseStmt) (p : Pointers) :
  keepsPointers s' = false ->
  pending (snd (release stmts p)) s' = true <-> pending p s' = true /\ ~ In s' stmts.
Proof.
  intros Hdel. revert p. induction stmts as [|s stmts IH]; intros p.
  - cbn. tauto.
  - rewrite release_cons. cbn [snd]. rewrite IH, (pending_after_step s s' p Hdel).
    cbn [In]. split.
    + intros [[Hp Hne] Hout]. split; [exact Hp|]. intros [Heq | Hin]; auto.
    + intros [Hp Hout]. split; [split; [exact Hp|]|]; intros H; apply Hout; auto.
Qed.

(** A [Release()] guard on anything but a mesh reads a pointer that no
    statement changes. *)
Lemma guard_unchanged (stmts : list ReleaseStmt) (r : Resource) (p : Pointers) :
  (forall file, r <> MeshPtr file) ->
  nonNull (snd (release stmts p)) r = nonNull p r.
Proof.
  intros Hr. revert p. induction stmts as [|s stmts IH]; intros p; [reflexivity|].
  rewrite release_cons. cbn [snd]. rewrite IH.
  destruct s as [|r'|m| |file]; try reflexivity.
  cbn [releaseStep snd].
  apply eq_true_iff_eq. rewrite !nonNull_In. cbn [d3d created].
  rewrite In_remove_iff. split; [tauto|]. intros Hin. split; [exact Hin|apply Hr].
Qed.

Lemma deletes_log (stmts : list ReleaseStmt) (p : Pointers) (a : Action) :
  forallb (fun s => negb (keepsPointers s)) stmts = true ->
  In a (fst (release stmts p)) <->
  exists s, In s stmts /\ attempt s = a /\ pending p s = true.
Proof.
  revert p. induction stmts as [|s stmts IH]; intros p Hdel.
  - cbn. split; [tauto|]. intros (s & [] & _).
  - cbn [forallb] in Hdel. apply andb_prop in Hdel. destruct Hdel as [Hs Hrest].
    apply negb_true_iff in Hs.
    rewrite release_cons. cbn [fst]. rewrite step_log, in_app_iff, (IH _ Hrest).
    split.
    + intros [Hin | (s' & Hin & Hatt & Hp)].
      * destruct (pending p s) eqn:Hp; [|destruct Hin].
        destruct Hin as [<- | []]. exists s. split; [now left|split; [reflexivity|exact Hp]].
      * exists s'. split; [now right|split; [exact Hatt|]].
        assert (Hs' : keepsPointers s' = false).
        { apply negb_true_iff.
          exact (proj1 (forallb_forall _ _) Hrest s' Hin). }
        exact (proj1 (proj1 (pending_after_step s s' p Hs') Hp)).
    + intros (s' & [<- | Hin] & Hatt & Hp).
      * left. rewrite Hp. now left.
      * destruct (ReleaseStmt_eq_dec s' s) as [-> | Hne].
        -- left. rewrite Hp. now left.
        -- right. exists s'. split; [exact Hin|split; [exact Hatt|]].
           assert (Hs' : keepsPointers s' = false).
           { apply negb_true_iff.
             exact (proj1 (forallb_forall _ _) Hrest s' Hin). }
           apply (pending_after_step s s' p Hs'). split; [exact Hp|exact Hne].
Qed.

Lemma keepers_log (stmts : list ReleaseStmt) (p : Pointers) (a : Action) :
  In a (flat_map (fun s => fst (releaseStep s p)) stmts) <->
  exists s, In s stmts /\ attempt s = a /\ pending p s = true.
Proof.
  rewrite in_flat_map. split; intros (s & Hin & H); exists s; (split; [exact Hin|]).
  - rewrite step_log in H. destruct (pending p s); [|destruct H].
    destruct H as [<- | []]. split; reflexivity.
  - destruct H as [<- Hp]. rewrite step_log, Hp. now left.
Qed.

Lemma ReleaseResources_split :
  ReleaseResources = firstn 35 ReleaseResources ++ skipn 35 ReleaseResources.
Proof. symmetry. apply firstn_skipn. Qed.

Lemma ReleaseResources_log (p : Pointers) (a : Action) :
  In a (fst (release ReleaseResources p)) <->
  exists s, In s ReleaseResources /\ attempt s = a /\ pending p s = true.
Proof.
  rewrite ReleaseResources_split at 1. rewrite release_app. cbn [fst].
  rewrite (release_keepsPointers (firstn 35 ReleaseResources) p eq_refl). cbn [fst snd].
  rewrite in_app_iff, keepers_log, (deletes_log (skipn 35 ReleaseResources) p a eq_refl).
  split.
  - intros [(s & Hin & H) | (s & Hin & H)]; exists s; (split; [|exact H]);
      rewrite ReleaseResources_split; apply in_or_app; [left|right]; exact Hin.
  - intros (s & Hin & H). rewrite ReleaseResources_split in Hin.
    apply in_app_or in Hin. destruct Hin as [Hin | Hin]; [left|right];
      exists s; (split; [exact Hin|exact H]).
Qed.

Lemma ReleaseResources_targets : NoDup (map attempt ReleaseResources).
Proof.
  assert (Hfix : nodup Action_eq_dec (map attempt ReleaseResources)
                 = map attempt ReleaseResources) by (vm_compute; reflexivity).
  rewrite <- Hfix. apply NoDup_nodup.
Qed.

(** X7. From any state of the pointers, also a partly initialised one:
    [ReleaseResources] acts exactly on the pointers it finds set when it
    starts, once on each: it releases or deletes nothing twice and nothing
    that is null. *)
Theorem releases_what_is_set (p : Pointers) :
  NoDup (fst (release ReleaseResources p)) /\
  forall a, In a (fst (release ReleaseResources p)) <->
            exists s, In s ReleaseResources /\ attempt s = a /\ pending p s = true.
Proof.
  split.
  - apply release_log_NoDup, ReleaseResources_targets.
  - intros a. apply ReleaseResources_log.
Qed.

Lemma no_guard_on_a_mesh :
  Forall (fun s => match s with
                   | ReleaseIfSet (MeshPtr _) => False
                   | _ => True
                   end) ReleaseResources.
Proof. repeat constructor. Qed.

(** X8. [ReleaseResources] nulls the pointers it deletes and leaves the
    others as they are: called a second time, it deletes nothing, and it
    calls [Release()] again on every resource the first call released. *)
Theorem second_call_releases_again (p : Pointers) :
  let first := release ReleaseResources p in
  let second := release ReleaseResources (snd first) in
  (forall r, In (Released r) (fst second) <-> In (Released r) (fst first)) /\
  (forall a, In a (fst second) -> a = StatesReleased \/ exists r, a = Released r).
Proof.
  cbv zeta. split.
  - intros r. rewrite !ReleaseResources_log.
    assert (Hsame : forall s, In s ReleaseResources -> attempt s = Released r ->
              pending (snd (release ReleaseResources p)) s = pending p s).
    { intros s Hin Hatt. destruct s as [|r'|m| |file]; try discriminate Hatt.
      cbn [pending]. apply guard_unchanged. intros file ->.
      exact (proj1 (Forall_forall _ _) no_guard_on_a_mesh _ Hin). }
    split; intros (s & Hin & Hatt & Hp); exists s;
      (split; [exact Hin|split; [exact Hatt|]]);
      [rewrite <- (Hsame s Hin Hatt) | rewrite (Hsame s Hin Hatt)]; exact Hp.
  - intros a Hin.
    destruct (proj1 (ReleaseResources_log _ a) Hin) as (s & Hs & <- & Hp).
    destruct s as [|r|m| |file].
    + left. reflexivity.
    + right. exists r. reflexivity.
    + exfalso.
      exact (proj2 (proj1 (pending_after ReleaseResources (DeleteModel m) p eq_refl) Hp) Hs).
    + exfalso.
      exact (proj2 (proj1 (pending_after ReleaseResources DeleteCamera p eq_refl) Hp) Hs).
    + exfalso.
      exact (proj2 (proj1 (pending_after ReleaseResources (DeleteMesh file) p eq_refl) Hp) Hs).
Qed.

(** *** What [InitGeometry] does to the globals *)

Lemma onlyListed_refl (g : Globals) : onlyListed g g.
Proof. intros r Hin. apply in_or_app. now right. Qed.

Lemma onlyListed_trans (g1 g2 g3 : Globals) :
  onlyListed g1 g2 -> onlyListed g2 g3 -> onlyListed g1 g3.
Proof.
  intros Hnew12 Hnew23 r Hin. apply Hnew23 in Hin. apply in_app_or in Hin.
  destruct Hin as [Hin | Hin]; [apply in_or_app; now left|exact (Hnew12 _ Hin)].
Qed.

Lemma preserves_ret {A : Type} (a : A) : preserves (ret a).
Proof. intros g. apply onlyListed_refl. Qed.

Lemma preserves_return {A : Type} (b : bool) : preserves (@return_ A b).
Proof. intros g. apply onlyListed_refl. Qed.

Lemma preserves_throw {A : Type} (what : string) : preserves (@throw A what).
Proof. intros g. apply onlyListed_refl. Qed.

Lemma preserves_set_gLastError (msg : string) : preserves (set_gLastError msg).
Proof.
  intros g. unfold set_gLastError, onlyListed. cbn [snd created].
  intros r Hin. apply in_or_app. now right.
Qed.

Lemma preserves_bind {A B : Type} (m : Stmt A) (k : A -> Stmt B) :
  preserves m -> (forall a, preserves (k a)) -> preserves (bind m k).
Proof.
  intros Hm Hk g. unfold bind. specialize (Hm g).
  destruct (m g) as [[a | b | what] g1]; cbn [snd] in *; [|exact Hm|exact Hm].
  exact (onlyListed_trans Hm (Hk a g1)).
Qed.

Lemma preserves_try_catch (body : Stmt unit) (handler : string -> Stmt unit) :
  preserves body -> (forall what, preserves (handler what)) ->
  preserves (try_catch body handler).
Proof.
  intros Hbody Hhandler g. unfold try_catch. specialize (Hbody g).
  destruct (body g) as [[a | b | what] g1]; cbn [snd] in *; [exact Hbody|exact Hbody|].
  exact (onlyListed_trans Hbody (Hhandler what g1)).
Qed.

Lemma preserves_assign (r : Resource) (ok : bool) :
  In r allResources -> preserves (assign r ok).
Proof.
  intros Hr g. unfold assign, onlyListed. cbn [snd created].
  intros x Hin. apply CppFacts.In_stored in Hin. apply in_or_app.
  destruct Hin as [[_ ->] | [_ Hin]]; [now left|now right].
Qed.

Lemma preserves_fill (r : Resource) (ok : bool) :
  In r allResources -> preserves (fill r ok).
Proof.
  intros Hr g. unfold fill, onlyListed. cbn [snd created].
  intros x Hin. apply in_app_or in Hin. apply in_or_app.
  destruct Hin as [Hin | Hin]; [left|now right].
  destruct ok; [|destruct Hin]. destruct Hin as [<- | []]. exact Hr.
Qed.

Lemma preserves_loadTexture (w : World) (file : string) (srv : ShaderResourceView) :
  In (SRV srv) allResources -> In (TextureOf srv) allResources ->
  preserves (loadTexture w file srv).
Proof.
  intros Hview Htexture g. unfold loadTexture, onlyListed. cbn [snd created].
  intros x Hin. apply in_app_or in Hin. apply in_or_app.
  destruct Hin as [Hin | Hin]; [left|now right].
  destruct (LoadTexture w file srv); [|destruct Hin].
  destruct Hin as [<- | [<- | []]]; assumption.
Qed.

Lemma preserves_if {A : Type} (c : bool) (a b : Stmt A) :
  preserves a -> preserves b -> preserves (if c then a else b).
Proof. now destruct c. Qed.

Lemma preserves_failed (m : Stmt bool) : preserves m -> preserves (failed m).
Proof.
  intros Hm. apply preserves_bind; [exact Hm|]. intros ok. apply preserves_ret.
Qed.

Lemma preserves_or_else (a b : Stmt bool) :
  preserves a -> preserves b -> preserves (or_else a b).
Proof.
  intros Ha Hb. apply preserves_bind; [exact Ha|].
  intros x. apply preserves_if; [apply preserves_ret|exact Hb].
Qed.

Lemma preserves_fail_if (cond : Stmt bool) (msg : string) :
  preserves cond -> preserves (fail_if cond msg).
Proof.
  intros Hcond. apply preserves_bind; [exact Hcond|].
  intros c. apply preserves_if; [|apply preserves_ret].
  apply preserves_bind; [apply preserves_set_gLastError|].
  intros _. apply preserves_return.
Qed.

Lemma preserves_new_Mesh (w : World) (file : string) :
  In (MeshPtr file) allResources -> preserves (new_Mesh w file).
Proof.
  intros Hr. unfold new_Mesh. destruct (newMesh w file).
  - apply preserves_throw.
  - apply preserves_bind; [now apply preserves_assign|].
    intros _. apply preserves_ret.
Qed.

Ltac among := vm_compute; solve [repeat (first [left; reflexivity | right])].

Lemma preserves_LoadShaders (w : World) : preserves (LoadShaders w).
Proof.
  unfold LoadShaders, loadVS, loadPS.
  repeat lazymatch goal with
         | |- forall _, _ => intro
         | |- preserves (ret _) => apply preserves_ret
         | |- preserves (set_gLastError _) => apply preserves_set_gLastError
         | |- preserves (assign _ _) => apply preserves_assign; among
         | |- preserves (if _ then _ else _) => apply preserves_if
         | |- preserves (bind _ _) => apply preserves_bind
         end.
Qed.

Ltac preserved :=
  repeat lazymatch goal with
         | |- forall _, _ => intro
         | |- preserves (ret _) => apply preserves_ret
         | |- preserves (return_ _) => apply preserves_return
         | |- preserves (throw _) => apply preserves_throw
         | |- preserves (set_gLastError _) => apply preserves_set_gLastError
         | |- preserves (new_Mesh _ _) => apply preserves_new_Mesh; among
         | |- preserves (loadTexture _ _ _) => apply preserves_loadTexture; among
         | |- preserves (assign _ _) => apply preserves_assign; among
         | |- preserves (fill _ _) => apply preserves_fill; among
         | |- preserves (LoadShaders _) => apply preserves_LoadShaders
         | |- preserves (if _ then _ else _) => apply preserves_if
         | |- preserves (failed _) => apply preserves_failed
         | |- preserves (or_else _ _) => apply preserves_or_else
         | |- preserves (fail_if _ _) => apply preserves_fail_if
         | |- preserves (try_catch _ _) => apply preserves_try_catch
         | |- preserves (bind _ _) => apply preserves_bind
         end.

Lemma preserves_InitGeometry (w : World) : preserves (InitGeometry w).
Proof. unfold InitGeometry. preserved. Qed.

Lemma snd_call (body : Stmt bool) (g : Globals) : snd (call body g) = snd (body g).
Proof. unfold call. now destruct (body g) as [[b | b | what] g']. Qed.

(** *** The shader globals *)

Lemma keepsShaders_ret {A : Type} (a : A) : keepsShaders (ret a).
Proof. intros g r _. reflexivity. Qed.

Lemma keepsShaders_return {A : Type} (b : bool) : keepsShaders (@return_ A b).
Proof. intros g r _. reflexivity. Qed.

Lemma keepsShaders_set_gLastError (msg : string) : keepsShaders (set_gLastError msg).
Proof. intros g r _. reflexivity. Qed.

Lemma keepsShaders_bind {A B : Type} (m : Stmt A) (k : A -> Stmt B) :
  keepsShaders m -> (forall a, keepsShaders (k a)) -> keepsShaders (bind m k).
Proof.
  intros Hm Hk g r Hr. unfold bind. specialize (Hm g r Hr).
  destruct (m g) as [[a | b | what] g1]; cbn [snd] in *; [|exact Hm|exact Hm].
  rewrite (Hk a g1 r Hr). exact Hm.
Qed.

Lemma keepsShaders_assign (x : Resource) (ok : bool) :
  isShader x = false -> keepsShaders (assign x ok).
Proof.
  intros Hx g r Hr. unfold assign. cbn [snd created].
  apply CppFacts.In_stored_other. intros ->. rewrite Hx in Hr. discriminate Hr.
Qed.

Lemma keepsShaders_fill (x : Resource) (ok : bool) :
  isShader x = false -> keepsShaders (fill x ok).
Proof.
  intros Hx g r Hr. unfold fill. cbn [snd created]. rewrite in_app_iff.
  split; [|now right]. intros [Hin | Hin]; [|exact Hin].
  destruct ok; [|destruct Hin]. destruct Hin as [<- | []].
  rewrite Hx in Hr. discriminate Hr.
Qed.

Lemma keepsShaders_loadTexture (w : World) (file : string) (srv : ShaderResourceView) :
  keepsShaders (loadTexture w file srv).
Proof.
  intros g r Hr. unfold loadTexture. cbn [snd created]. rewrite in_app_iff.
  split; [|now right]. intros [Hin | Hin]; [|exact Hin].
  destruct (LoadTexture w file srv); [|destruct Hin].
  destruct Hin as [<- | [<- | []]]; discriminate Hr.
Qed.

Lemma keepsShaders_if {A : Type} (c : bool) (a b : Stmt A) :
  keepsShaders a -> keepsShaders b -> keepsShaders (if c then a else b).
Proof. now destruct c. Qed.

Lemma keepsShaders_failed (m : Stmt bool) : keepsShaders m -> keepsShaders (failed m).
Proof.
  intros Hm. apply keepsShaders_bind; [exact Hm|]. intros ok. apply keepsShaders_ret.
Qed.

Lemma keepsShaders_or_else (a b : Stmt bool) :
  keepsShaders a -> keepsShaders b -> keepsShaders (or_else a b).
Proof.
  intros Ha Hb. apply keepsShaders_bind; [exact Ha|].
  intros x. apply keepsShaders_if; [apply keepsShaders_ret|exact Hb].
Qed.

Lemma keepsShaders_fail_if (cond : Stmt bool) (msg : string) :
  keepsShaders cond -> keepsShaders (fail_if cond msg).
Proof.
  intros Hcond. apply keepsShaders_bind; [exact Hcond|].
  intros c. apply keepsShaders_if; [|apply keepsShaders_ret].
  apply keepsShaders_bind; [apply keepsShaders_set_gLastError|].
  intros _. apply keepsShaders_return.
Qed.

Ltac kept :=
  repeat lazymatch goal with
         | |- forall _, _ => intro
         | |- keepsShaders (ret _) => apply keepsShaders_ret
         | |- keepsShaders (return_ _) => apply keepsShaders_return
         | |- keepsShaders (set_gLastError _) => apply keepsShaders_set_gLastError
         | |- keepsShaders (loadTexture _ _ _) => apply keepsShaders_loadTexture
         | |- keepsShaders (assign _ _) => apply keepsShaders_assign; reflexivity
         | |- keepsShaders (fill _ _) => apply keepsShaders_fill; reflexivity
         | |- keepsShaders (if _ then _ else _) => apply keepsShaders_if
         | |- keepsShaders (failed _) => apply keepsShaders_failed
         | |- keepsShaders (or_else _ _) => apply keepsShaders_or_else
         | |- keepsShaders (fail_if _ _) => apply keepsShaders_fail_if
         | |- keepsShaders (bind _ _) => apply keepsShaders_bind
         end.

(** With every mesh loaded, the [try] block completes. *)
Lemma meshes_loaded (w : World) (handler : string -> Stmt unit) (g : Globals) :
  meshesLoad w = true ->
  exists g1,
    try_catch
      (bind (new_Mesh w "Models/Teapot.x") (fun _ =>
       bind (new_Mesh w "Models/Sphere.x") (fun _ =>
       bind (new_Mesh w "Models/Cube.x") (fun _ =>
       bind (new_Mesh w "Models/Floor.x") (fun _ =>
       bind (new_Mesh w "Models/Light.x") (fun _ =>
       new_Mesh w "Models/troll.x"))))))
      handler g
    = (Normal tt, g1).
Proof.
  cbv [meshesLoad meshFiles forallb try_catch bind new_Mesh assign ret throw].
  destruct (newMesh w "Models/Teapot.x"); [intros H; discriminate H|].
  destruct (newMesh w "Models/Sphere.x"); [intros H; discriminate H|].
  destruct (newMesh w "Models/Cube.x"); [intros H; discriminate H|].
  destruct (newMesh w "Models/Floor.x"); [intros H; discriminate H|].
  destruct (newMesh w "Models/Light.x"); [intros H; discriminate H|].
  destruct (newMesh w "Models/troll.x"); [intros H; discriminate H|].
  intros _. eexists. reflexivity.
Qed.

(** After the shaders, [InitGeometry] either returns or goes on with
    statements that leave the shader globals as they are. *)
Lemma after_LoadShaders (w : World) (rest : Stmt bool) (g1 : Globals) (r : Resource) :
  keepsShaders rest -> isShader r = true ->
  In r (created (snd (bind (fail_if (failed (LoadShaders w)) "Error loading shaders")
                           (fun _ => rest) g1)))
  <-> In r (storedShaders w (created g1)).
Proof.
  intros Hrest Hr. unfold bind at 1. unfold fail_if, failed, bind.
  rewrite C8.LoadShaders_eq. cbv [ret set_gLastError return_].
  destruct (shadersLoad w); cbn [negb snd created]; [|reflexivity].
  rewrite (Hrest _ r Hr). reflexivity.
Qed.

Lemma shaders_after_InitGeometry (w : World) (g : Globals) (r : Resource) :
  meshesLoad w = true -> isShader r = true ->
  exists globals,
    In r (created (snd (call (InitGeometry w) g))) <-> In r (storedShaders w globals).
Proof.
  intros Hmeshes Hr. rewrite snd_call. unfold InitGeometry. unfold bind at 1.
  destruct (meshes_loaded w
              (fun what => bind (set_gLastError what) (fun _ => return_ false))
              g Hmeshes) as (g1 & Hg1).
  rewrite Hg1. exists (created g1).
  apply after_LoadShaders; [|exact Hr]. kept.
Qed.

(** X9. Whatever the files and the device do and whatever the globals
    held before: [InitGeometry] sets nothing but the listed resources; and
    once the meshes have loaded, each of the twelve shader globals is set
    afterwards exactly when its own load succeeded. Every load is made,
    also after one has failed, and a load that fails leaves a null pointer
    over what the global held. *)
Theorem InitGeometry_stores_every_shader (w : World) (g : Globals) :
  let g' := snd (call (InitGeometry w) g) in
  incl (created g') (allResources ++ created g) /\
  (meshesLoad w = true ->
   (forall s shaderName, In (s, shaderName) vertexShaders ->
      (In (VS s) (created g') <-> LoadVertexShader w shaderName = true)) /\
   (forall s shaderName, In (s, shaderName) pixelShaders ->
      (In (PS s) (created g') <-> LoadPixelShader w shaderName = true))).
Proof.
  cbv zeta. split.
  - rewrite snd_call. apply preserves_InitGeometry.
  - intros Hmeshes. split; intros s shaderName Hin.
    + destruct (shaders_after_InitGeometry w g (VS s) Hmeshes eq_refl)
        as (globals & Hiff).
      rewrite Hiff. exact (CppFacts.storedShaders_VS w globals Hin).
    + destruct (shaders_after_InitGeometry w g (PS s) Hmeshes eq_refl)
        as (globals & Hiff).
      rewrite Hiff. exact (CppFacts.storedShaders_PS w globals Hin).
Qed.

(** The wiggling vertex shader was set and does not load again: its
    global is null afterwards, and the shaders after it are loaded all the
    same. *)
Lemma InitGeometry_stores_every_shader_witness :
  let g' := snd (call (InitGeometry wigglelessWorld)
                      (mkGlobals "none" [VS gWigglingVertexShader])) in
  meshesLoad wigglelessWorld = true /\
  (In (VS gWigglingVertexShader) (created g')
   <-> LoadVertexShader wigglelessWorld "Wiggling_vs" = true) /\
  (In (PS gCellShadingOutlinePixelShader) (created g')
   <-> LoadPixelShader wigglelessWorld "CellShadingOutline_ps" = true).
Proof.
  cbv zeta. split; [reflexivity|]. split.
  - apply (proj1 (proj2 (InitGeometry_stores_every_shader wigglelessWorld
                           (mkGlobals "none" [VS gWigglingVertexShader])) eq_refl)).
    vm_compute. do 2 right. left. reflexivity.
  - apply (proj2 (proj2 (InitGeometry_stores_every_shader wigglelessWorld
                           (mkGlobals "none" [VS gWigglingVertexShader])) eq_refl)).
    vm_compute. do 6 right. left. reflexivity.
Defined.

Example failed_load_nulls_the_global :
  let g' := snd (call (InitGeometry wigglelessWorld)
                      (mkGlobals "none" [VS gWigglingVertexShader])) in
  fst (call (InitGeometry wigglelessWorld)
            (mkGlobals "none" [VS gWigglingVertexShader])) = Some false /\
  ~ In (VS gWigglingVertexShader) (created g') /\
  In (PS gCellShadingOutlinePixelShader) (created g').
Proof.
  cbv zeta. split; [vm_compute; reflexivity|]. split.
  - intros Hin. vm_compute in Hin.
    repeat (destruct Hin as [Hin | Hin]; [discriminate Hin|]). exact Hin.
  - vm_compute. left. reflexivity.
Qed.

Lemma attempt_releaserOf (r : Resource) : attempt (releaserOf r) = releaseOf r.
Proof. destruct r; reflexivity. Qed.

Lemma pending_releaserOf (p : Pointers) (r : Resource) :
  nonNull p r = true -> pending p (releaserOf r) = true.
Proof. destruct r; intros Hset; first [exact Hset | reflexivity]. Qed.

Lemma released_by_a_statement (r : Resource) :
  In r allResources -> In (releaserOf r) ReleaseResources.
Proof.
  intros Hin. vm_compute in Hin.
  repeat (destruct Hin as [<- | Hin]; [among|]).
  destruct Hin.
Qed.

(** X10. [InitGeometry] followed by [ReleaseResources], whatever the world
    does and wherever initialisation fails: everything [InitGeometry] left
    set is given back, exactly once, and [Release()] is called on nothing
    that it did not create. *)
Theorem partial_initialisation_released (w : World) (err : string) :
  let p := afterInitGeometry w err in
  let log := fst (release ReleaseResources p) in
  NoDup log /\
  (forall r, In r (created (d3d p)) -> In (releaseOf r) log) /\
  (forall r, In (Released r) log -> In r (created (d3d p))).
Proof.
  cbv zeta.
  assert (Hlisted : incl (created (d3d (afterInitGeometry w err))) allResources).
  { intros r Hin. unfold afterInitGeometry in Hin. cbn [d3d] in Hin.
    rewrite snd_call in Hin.
    apply (preserves_InitGeometry w (mkGlobals err [])) in Hin. cbn [created] in Hin. now rewrite app_nil_r in Hin. }
  generalize dependent (afterInitGeometry w err). intros p Hlisted.
  split; [exact (release_log_NoDup ReleaseResources p ReleaseResources_targets)|]. split.
  - intros r Hin.
    apply (proj2 (ReleaseResources_log p (releaseOf r))). exists (releaserOf r).
    split; [exact (released_by_a_statement (Hlisted r Hin))|].
    split; [apply attempt_releaserOf|].
    apply pending_releaserOf. apply (proj2 (nonNull_In p r)). exact Hin.
  - intros r Hin.
    destruct (proj1 (ReleaseResources_log p (Released r)) Hin) as (s & _ & Hatt & Hp).
    destruct s as [|r'|m| |file]; try discriminate Hatt.
    injection Hatt as ->. apply (proj1 (nonNull_In p r)). exact Hp.
Qed.

(** The wood texture is missing: initialisation fails at the textures,
    and the clean-up gives back the three textures loaded before it, the
    buffers, the shaders and the meshes. *)
Example woodless_initialisation_released :
  fst (call (InitGeometry woodlessWorld) (mkGlobals "none" [])) = Some false /\
  gLastError (d3d (afterInitGeometry woodlessWorld "none")) = "Error loading textures"%string /\
  fst (release ReleaseResources (afterInitGeometry woodlessWorld "none"))
  = [ StatesReleased;
      Released (SRV gSphereDiffuseSpecularMapSRV);
      Released (TextureOf gSphereDiffuseSpecularMapSRV);
      Released (SRV gCubeDiffuseSpecularMapSRV);
      Released (TextureOf gCubeDiffuseSpecularMapSRV);
      Released (SRV gTeapotDiffuseSpecularMapSRV);
      Released (TextureOf gTeapotDiffuseSpecularMapSRV);
      Released gPerModelConstantBuffer; Released gPerFrameConstantBuffer;
      Released (PS gDepthOnlyPixelShader);
      Released (PS gLightModelPixelShader);
      Released (VS gBasicTransformVertexShader);
      Released (PS gPixelLightingPixelShader);
      Released (VS gPixelLightingVertexShader);
      Released (VS gWigglingVertexShader);
      Released (PS gScrollingPixelShader);
      Released (PS gMixingTexturesPixelShader);
      Released (VS gCellShadingVertexShader);
      Released (PS gCellShadingPixelShader);
      Released (VS gCellShadingOutlineVertexShader);
      Released (PS gCellShadingOutlinePixelShader);
      MeshDeleted "Models/Light.x"%string; MeshDeleted "Models/Floor.x"%string;
      MeshDeleted "Models/Sphere.x"%string; MeshDeleted "Models/Cube.x"%string;
      MeshDeleted "Models/Teapot.x"%string; MeshDeleted "Models/troll.x"%string ].
Proof. split; [|split]; vm_compute; reflexivity. Qed.

End ReleaseFacts.

(** ** InitScene: the order of its statements, and the models the frames draw *)

Module InitSceneFacts.
Import Scene Cpp Cleanup.

Lemma orderly_split (pre : list SceneStmt) :
  forall (alive : list Model) (s : SceneStmt) (post : list SceneStmt),
    orderly alive (pre ++ s :: post) ->
    (forall m, In m (usesModels s) ->
               In m alive \/ exists mesh, In (NewModel m mesh) pre) /\
    (forall m mesh, s = NewModel m mesh ->
                    In mesh meshFiles /\ ~ In m alive /\
                    forall mesh', ~ In (NewModel m mesh') pre).
Proof.
  induction pre as [|a pre IH]; intros alive s post Hord.
  - cbn [app orderly] in Hord. destruct Hord as [Huses Hrest]. split.
    + intros m Hin. left. exact (Huses m Hin).
    + intros m mesh ->. destruct Hrest as (Hmesh & Hfresh & _).
      split; [exact Hmesh|split; [exact Hfresh|]]. intros mesh' [].
  - cbn [app orderly] in Hord. destruct Hord as [_ Hrest].
    assert (Hnext : exists alive',
               orderly alive' (pre ++ s :: post) /\ incl alive alive' /\
               (forall m, In m alive' ->
                          In m alive \/ exists mesh, a = NewModel m mesh) /\
               (forall m mesh, a = NewModel m mesh -> In m alive')).
    { destruct a as [m0 mesh0| | | | | | | | | ];
        try (exists alive; split; [exact Hrest|split; [apply incl_refl|]];
             split; [intros x Hin; now left|intros x mesh Heq; discriminate Heq]).
      destruct Hrest as (_ & _ & Hrest). exists (m0 :: alive).
      split; [exact Hrest|split; [apply incl_tl, incl_refl|]]. split.
      - intros x [<- | Hin]; [right; now exists mesh0|now left].
      - intros x mesh Heq. injection Heq as <- _. now left. }
    destruct Hnext as (alive' & Hord & Hincl & Hfrom & Hnew).
    destruct (IH alive' s post Hord) as [Huses Halloc]. split.
    + intros m Hin. destruct (Huses m Hin) as [Halive | (mesh & Hpre)].
      * destruct (Hfrom m Halive) as [Hold | (mesh & ->)]; [now left|].
        right. exists mesh. now left.
      * right. exists mesh. now right.
    + intros m mesh Heq. destruct (Halloc m mesh Heq) as (Hmesh & Hfresh & Hpre).
      split; [exact Hmesh|split].
      * intros Hin. exact (Hfresh (Hincl m Hin)).
      * intros mesh' [Heq' | Hin]; [|exact (Hpre mesh' Hin)].
        exact (Hfresh (Hnew m mesh' Heq')).
Qed.

Ltac among := solve [repeat (first [left; reflexivity | right])].

Lemma InitScene_orderly : orderly [] InitScene.
Proof.
  cbv [InitScene seq NUM_LIGHTS map app orderly usesModels].
  repeat (split;
          [first [ intros m Hin; cbn [In] in Hin;
                   repeat (destruct Hin as [<- | Hin]; [among|]); destruct Hin
                 | vm_compute; among
                 | intros Hin; cbn [In] in Hin;
                   repeat (destruct Hin as [Hin | Hin]; [discriminate Hin|]);
                   exact Hin ]|]).
  exact I.
Qed.

(** X11. Wherever [InitScene] is cut: the statement at the cut uses only models
    that a statement before it has allocated; and if it allocates a model,
    the mesh is one that [InitGeometry] loads and no statement before it
    allocated the same model. *)
Theorem InitScene_order (pre : list SceneStmt) (s : SceneStmt) (post : list SceneStmt) :
  InitScene = pre ++ s :: post ->
  (forall m, In m (usesModels s) -> exists mesh, In (NewModel m mesh) pre) /\
  (forall m mesh, s = NewModel m mesh ->
                  In mesh meshFiles /\ forall mesh', ~ In (NewModel m mesh') pre).
Proof.
  intros Hcut. assert (Hord := InitScene_orderly). rewrite Hcut in Hord.
  destruct (orderly_split pre [] s post Hord) as [Huses Halloc]. split.
  - intros m Hin. destruct (Huses m Hin) as [[] | Hpre]. exact Hpre.
  - intros m mesh Heq. destruct (Halloc m mesh Heq) as (Hmesh & _ & Hpre).
    split; [exact Hmesh|exact Hpre].
Qed.

Lemma InitScene_order_witness :
  InitScene = firstn 19 InitScene
              ++ FaceTarget (gLights_model 0) (PositionOf gTeapot)
              :: skipn 20 InitScene /\
  (forall m, In m [gLights_model 0; gTeapot] ->
             exists mesh, In (NewModel m mesh) (firstn 19 InitScene)).
Proof.
  split; [reflexivity|].
  apply (@InitScene_order (firstn 19 InitScene)
           (FaceTarget (gLights_model 0) (PositionOf gTeapot))
           (skipn 20 InitScene)).
  reflexivity.
Defined.

Lemma runInitScene_models (stmts : list SceneStmt) (m : Model) (mesh : string) :
  In (NewModel m mesh) stmts ->
  forall p, hasModel (fold_left (fun p s => initStep s p) stmts p) m = true.
Proof.
  assert (Hkept : forall stmts p, hasModel p m = true ->
            hasModel (fold_left (fun p s => initStep s p) stmts p) m = true).
  { clear stmts. intros stmts. induction stmts as [|s stmts IH]; intros p Hp; [exact Hp|].
    cbn [fold_left]. apply IH.
    destruct s as [m0 mesh0| | | | | | | | | ]; try exact Hp.
    cbn [initStep]. destruct (hasModel p m0) eqn:Hm0.
    - exact Hp.
    - unfold hasModel in *. cbn [models].
      destruct (in_dec Model_eq_dec m (models p)) as [Hin|]; [|discriminate Hp].
      destruct (in_dec Model_eq_dec m (m0 :: models p)) as [|Hout]; [reflexivity|].
      elim Hout. now right. }
  induction stmts as [|s stmts IH]; intros Hin p; [destruct Hin|].
  cbn [fold_left]. destruct Hin as [-> | Hin]; [|exact (IH Hin _)].
  apply Hkept. cbn [initStep]. destruct (hasModel p m) eqn:Hm.
  - exact Hm.
  - unfold hasModel. cbn [models].
    destruct (in_dec Model_eq_dec m (m :: models p)) as [|Hout]; [reflexivity|].
    elim Hout. now left.
Qed.

(** X12. Whatever the pointers were before [InitScene]: every model that a
    frame draws, in any number of frames, is one that [InitScene] has
    allocated, on a mesh that [InitGeometry] loads. *)
Theorem drawn_models_are_allocated (locks : list bool) (p : Pointers) (m : Model) :
  In (Render m) (RenderFrames locks) ->
  hasModel (runInitScene p) m = true /\
  exists mesh, In (NewModel m mesh) InitScene /\ In mesh meshFiles.
Proof.
  intros Hdraw. unfold RenderFrames in Hdraw. apply in_flat_map in Hdraw.
  destruct Hdraw as (lockFPS & _ & Hdraw).
  assert (Hnew : exists mesh, In (NewModel m mesh) InitScene /\ In mesh meshFiles).
  { destruct lockFPS; vm_compute in Hdraw;
      repeat (destruct Hdraw as [Hdraw | Hdraw];
              [first [ discriminate Hdraw
                     | injection Hdraw as <-; eexists; split; vm_compute; among ]|]);
      destruct Hdraw. }
  split; [|exact Hnew]. destruct Hnew as (mesh & Hin & _).
  exact (runInitScene_models InitScene m mesh Hin p).
Qed.

Lemma drawn_models_are_allocated_witness :
  In (Render gTroll) (RenderFrames [true]) /\
  hasModel (runInitScene (afterInitGeometry plentifulWorld "none"%string)) gTroll = true.
Proof.
  split; [vm_compute; among|].
  apply (@drawn_models_are_allocated [true]
           (afterInitGeometry plentifulWorld "none"%string) gTroll).
  vm_compute. among.
Defined.

End InitSceneFacts.

(** ** Passes, registers and presents over the frames *)

Module PassFacts.
Import Scene FrameTerms SceneFacts PassTerms.

Lemma RenderFrames_step (lockFPS : bool) (locks : list bool) :
  RenderFrames (lockFPS :: locks) = RenderScene lockFPS ++ RenderFrames locks.
Proof. reflexivity. Qed.

Lemma drawViews_app (a b : list Cmd) (ctx : Context) (view : option ViewSource) :
  drawViews (a ++ b) ctx view
  = drawViews a ctx view ++ drawViews b (execAll a ctx) (viewAfter a view).
Proof.
  revert ctx view. induction a as [|c a IH]; intros ctx view; [reflexivity|].
  cbn [app drawViews]. rewrite IH, app_assoc.
  destruct c; reflexivity.
Qed.

Lemma RenderScene_passConsistent (lockFPS : bool) (ctx : Context)
    (view : option ViewSource) :
  Forall passConsistent (drawViews (RenderScene lockFPS) ctx view).
Proof.
  destruct ctx as [rt ds vp vs ps bs dss rs res smp].
  set (draws := drawViews (RenderScene lockFPS) _ view).
  vm_compute in draws. subst draws.
  repeat (constructor;
          [eexists; split; [reflexivity|split; reflexivity]|]).
  constructor.
Qed.

(** X13. Over any number of frames, from any context: every draw is issued
    with the viewport of the target it draws into and after the upload of
    the view that goes with that target: the light's for its shadow map,
    the camera's for the back buffer. *)
Theorem draws_match_their_pass (locks : list bool) (ctx0 : Context)
    (view0 : option ViewSource) :
  Forall passConsistent (drawViews (RenderFrames locks) ctx0 view0).
Proof.
  revert ctx0 view0. induction locks as [|lockFPS locks IH]; intros ctx0 view0.
  - constructor.
  - rewrite RenderFrames_step, drawViews_app. apply Forall_app. split.
    + apply RenderScene_passConsistent.
    + apply IH.
Qed.

Lemma drawsOf_app (a b : list Entry) : drawsOf (a ++ b) = drawsOf a ++ drawsOf b.
Proof. unfold drawsOf. apply flat_map_app. Qed.

Lemma RenderScene_registersBound (lockFPS : bool) (ctx : Context) :
  Forall registersBound (drawsOf (gpuLog (RenderScene lockFPS) ctx)).
Proof.
  destruct ctx as [rt ds vp vs ps bs dss rs res smp].
  set (draws := drawsOf (gpuLog (RenderScene lockFPS) _)).
  vm_compute in draws. subst draws.
  repeat (constructor;
          [intros shader Hps; cbn [pixelShader] in Hps; injection Hps as <-;
           split; [intros Htex; first [discriminate Htex | split; reflexivity]|];
           split; [intros Heq; first [discriminate Heq | repeat split; reflexivity]|];
           split; [intros Heq; first [discriminate Heq | repeat split; reflexivity]|];
           intros Heq; first [discriminate Heq | reflexivity]|]).
  constructor.
Qed.

(** X14. Over any number of frames, from any context: at every draw the
    registers the bound pixel shader reads hold what the shader expects,
    and t0 holds the texture of the very model being drawn. *)
Theorem registers_bound_at_every_draw (locks : list bool) (ctx0 : Context) :
  Forall registersBound (drawsOf (gpuLog (RenderFrames locks) ctx0)).
Proof.
  revert ctx0. induction locks as [|lockFPS locks IH]; intros ctx0.
  - constructor.
  - rewrite RenderFrames_step, gpuLog_app, drawsOf_app. apply Forall_app. split.
    + apply RenderScene_registersBound.
    + apply IH.
Qed.

Lemma presents_app (a b : list Entry) : presents (a ++ b) = presents a ++ presents b.
Proof. unfold presents. apply flat_map_app. Qed.

(** X15. One present per frame, in frame order, waiting for the vertical sync
    exactly in the frames for which [lockFPS] is set. *)
Theorem one_present_per_frame (locks : list bool) (ctx0 : Context) :
  presents (gpuLog (RenderFrames locks) ctx0)
  = map (fun lockFPS : bool => if lockFPS then 1%nat else 0%nat) locks.
Proof.
  revert ctx0. induction locks as [|lockFPS locks IH]; intros ctx0; [reflexivity|].
  rewrite RenderFrames_step, gpuLog_app, presents_app, IH.
  assert (Hframe : presents (gpuLog (RenderScene lockFPS) ctx0)
                   = [if lockFPS then 1%nat else 0%nat]).
  { destruct ctx0 as [rt ds vp vs ps bs dss rs res smp].
    set (log := gpuLog (RenderScene lockFPS) _). vm_compute in log. subst log.
    reflexivity. }
  rewrite Hframe. reflexivity.
Qed.

(** One frame from the fresh context has eighteen draws. *)
Example draws_of_one_frame :
  Datatypes.length (drawViews (RenderFrames [true]) freshContext None) = 18%nat.
Proof. vm_compute. reflexivity. Qed.

End PassFacts.

(** ** The lighting shaders: unlit pixels and back faces *)

Module ShaderFacts.
Import ShadowMapping_ps LightingTerms LightingFacts ShaderTerms.

Lemma Qltb_lt (a b : Q) : Qltb a b = true -> a < b.
Proof.
  unfold Qltb. intros Hlt. apply Qnot_le_lt. intros Hle.
  apply Qle_bool_iff in Hle. rewrite Hle in Hlt. discriminate Hlt.
Qed.

Lemma Qmax_negative (a : Q) : Qltb a 0 = true -> Qmax a 0 = 0.
Proof.
  intros Hlt. apply Qltb_lt in Hlt.
  unfold Qmax, GenericMinMax.gmax.
  assert (Hcmp : (a ?= 0) = Lt) by (apply Qlt_alt; exact Hlt).
  rewrite Hcmp. reflexivity.
Qed.

#[export] Instance Q_MaxLaws : MaxLaws Q.
Proof. split. exact Qmax_negative. Qed.

Lemma max32_negative (a : binary32) :
  SFltb a (lit 0) = true -> max32 a (lit 0) = lit 0.
Proof.
  set (zero := lit 0).
  assert (Hzero : zero = S754_zero false) by reflexivity.
  clearbody zero. subst zero. intros Hlt. unfold max32.
  destruct a as [s|s| |s m e]; try discriminate Hlt; cbn [isNaN];
    rewrite Hlt; reflexivity.
Qed.

#[export] Instance binary32_MaxLaws : MaxLaws binary32.
Proof. split. exact max32_negative. Qed.

Lemma reaches_false_noLight {F : Type} {S : Scalar F}
    (sqrt : F -> F) (pow : F -> F -> F) (SamplerState : Type)
    (PointClamp : SamplerState) (cb : PerFrameConstants F)
    (wp wn cd lp lf : float3 F) (c : F) (V P : float4x4 F) (col : float3 F)
    (T : Texture2D F SamplerState) :
  reaches sqrt PointClamp wp lp lf c V P T = false ->
  spotLight sqrt pow PointClamp cb wp wn cd lp lf c V P col T = noLight.
Proof.
  unfold reaches. intros Hno. apply andb_false_iff in Hno.
  destruct Hno as [Hcone | Hdepth].
  - now apply spotLight_cone_fails.
  - now apply spotLight_depth_fails.
Qed.

(** X16. In exact arithmetic: a pixel that neither light reaches (outside the
    cone, or not nearer to the light than the shadow map's depth) comes out
    as the ambient colour times the texture colour, with alpha 1; the
    specular channel of the texture plays no part. *)
Theorem unlit_pixel_is_ambient
    (sqrt : Q -> Q) (pow : Q -> Q -> Q) (SamplerState : Type)
    (DiffuseSpecularMap : Texture2D Q SamplerState) (TexSampler : SamplerState)
    (ShadowMapLight1 ShadowMapLight2 : Texture2D Q SamplerState)
    (PointClamp : SamplerState) (cb : PerFrameConstants Q)
    (input : LightingPixelShaderInput Q) :
  reaches sqrt PointClamp (worldPosition input)
    (gLight1Position cb) (gLight1Facing cb) (gLight1CosHalfAngle cb)
    (gLight1ViewMatrix cb) (gLight1ProjectionMatrix cb) ShadowMapLight1 = false ->
  reaches sqrt PointClamp (worldPosition input)
    (gLight2Position cb) (gLight2Facing cb) (gLight2CosHalfAngle cb)
    (gLight2ViewMatrix cb) (gLight2ProjectionMatrix cb) ShadowMapLight2 = false ->
  eq4 (main sqrt pow DiffuseSpecularMap TexSampler ShadowMapLight1 ShadowMapLight2
            PointClamp cb input)
      (float4_of (vmul (gAmbientColour cb)
                       (rgb (Sample DiffuseSpecularMap TexSampler (uv input))))
                 1).
Proof.
  intros Hno1 Hno2. unfold main, light1, light2.
  rewrite !reaches_false_noLight by assumption.
  unfold noLight, eq4. cbn.
  split; [|split; [|split]]; ring.
Qed.

Lemma unlit_pixel_is_ambient_witness :
  eq4 (main rootQ powQ (flatQ (1 # 2) 1 (1 # 4) 1) Scene.gAnisotropic4xSampler
            (flatQ 0 0 0 0) (flatQ 0 0 0 0) Scene.gPointSampler constantsQ pixelQ)
      (float4_of (vmul (gAmbientColour constantsQ)
                       (rgb (Sample (flatQ (1 # 2) 1 (1 # 4) 1)
                                    Scene.gAnisotropic4xSampler (uv pixelQ))))
                 1).
Proof.
  apply unlit_pixel_is_ambient; vm_compute; reflexivity.
Defined.

Lemma scaled_zero (c m d : Q) : m == 0 -> c * m / d == 0.
Proof. intros Hm. unfold Qdiv. rewrite Hm. ring. Qed.

Lemma times_zero (c p : Q) : c == 0 -> c * p == 0.
Proof. intros Hc. rewrite Hc. ring. Qed.

(** X17. In exact arithmetic: the spotlight block gives a surface that faces
    away from the light, [dot(N, L) <= 0], no diffuse and no specular
    light, whatever the cone and the shadow map say. *)
Theorem facing_away_no_light
    (sqrt : Q -> Q) (pow : Q -> Q -> Q) (SamplerState : Type)
    (PointClamp : SamplerState) (cb : PerFrameConstants Q)
    (wp wn cd lp lf : float3 Q) (c : Q) (V P : float4x4 Q) (col : float3 Q)
    (ShadowMapLight : Texture2D Q SamplerState) :
  dot wn (Ldir sqrt lp wp) <= 0 ->
  eq3 (fst (spotLight sqrt pow PointClamp cb wp wn cd lp lf c V P col ShadowMapLight))
      (splat3 0) /\
  eq3 (snd (spotLight sqrt pow PointClamp cb wp wn cd lp lf c V P col ShadowMapLight))
      (splat3 0).
Proof.
  intros Haway.
  assert (Hmax : Qmax (dot wn (Ldir sqrt lp wp)) 0 == 0)
    by (apply Q.max_r; exact Haway).
  unfold spotLight. fold (Ldir sqrt lp wp).
  assert (Hnone : eq3 (splat3 (lit 0)) (splat3 0))
    by (unfold eq3; cbn; split; [|split]; apply Qeq_refl).
  destruct (fltb _ _); [destruct (fltb _ _)|];
    try (split; exact Hnone).
  unfold eq3. cbn [fst snd vdiv vscale zip3 map3 splat3 f3x f3y f3z lit fmul fdiv
                   fmax Q_Scalar].
  split; (split; [|split]);
    first [ apply scaled_zero; exact Hmax
          | apply times_zero, scaled_zero; exact Hmax ].
Qed.

Lemma facing_away_no_light_witness :
  dot (renormalised rootQ undersideQ)
      (Ldir rootQ (gLight1Position constantsQ) (worldPosition undersideQ)) <= 0 /\
  eq3 (fst (light1 rootQ powQ (flatQ 1 1 1 1) Scene.gPointSampler constantsQ undersideQ))
      (splat3 0) /\
  eq3 (snd (light1 rootQ powQ (flatQ 1 1 1 1) Scene.gPointSampler constantsQ undersideQ))
      (splat3 0).
Proof.
  split.
  - vm_compute. discriminate.
  - apply (@facing_away_no_light rootQ powQ Scene.SamplerState Scene.gPointSampler
             constantsQ (worldPosition undersideQ) (renormalised rootQ undersideQ)
             (cameraDirection rootQ constantsQ undersideQ)
             (gLight1Position constantsQ) (gLight1Facing constantsQ)
             (gLight1CosHalfAngle constantsQ) (gLight1ViewMatrix constantsQ)
             (gLight1ProjectionMatrix constantsQ) (gLight1Colour constantsQ)
             (flatQ 1 1 1 1)).
    vm_compute. discriminate.
Defined.

(** X19. The cell shader has no test at all: a surface that faces away from a
    light, [dot(N, L) < 0], still receives from it the light's colour at
    the cell map's level for 0, over the distance. *)
Theorem cell_shading_facing_away {F : Type} {S : Scalar F} {M : MaxLaws F}
    (sqrt : F -> F) (pow : F -> F -> F) (SamplerState : Type)
    (CellMap : Texture2D F SamplerState) (PointSampleClamp : SamplerState)
    (cb : PerFrameConstants F) (wp wn cd lp col : float3 F) :
  fltb (dot wn (Ldir sqrt lp wp)) (lit 0) = true ->
  fst (CellShading_ps.cellLight sqrt pow CellMap PointSampleClamp cb wp wn cd lp col)
  = vdivs (vscale col (chan_r (Sample CellMap PointSampleClamp (splat2 (lit 0)))))
          (length sqrt (vsub lp wp)).
Proof.
  intros Haway. unfold CellShading_ps.cellLight. cbn [fst].
  change (vdivs (vsub lp wp) (length sqrt (vsub lp wp))) with (Ldir sqrt lp wp).
  rewrite (fmax_negative _ Haway). reflexivity.
Qed.

Lemma cell_shading_facing_away_witness :
  fst (CellShading_ps.light1 Fixtures.sqrt32 Fixtures.pow32 twoBands
         Scene.gPointSampler Fixtures.constants underside)
  = Fixtures.vec (1 # 40) (1 # 40) (1 # 40).
Proof.
  refine (eq_trans
            (@cell_shading_facing_away binary32 _ binary32_MaxLaws
               Fixtures.sqrt32 Fixtures.pow32 Scene.SamplerState twoBands
               Scene.gPointSampler Fixtures.constants
               (worldPosition underside)
               (CellShading_ps.renormalised Fixtures.sqrt32 underside)
               (CellShading_ps.cameraDirection Fixtures.sqrt32 Fixtures.constants underside)
               (gLight1Position Fixtures.constants)
               (gLight1Colour Fixtures.constants) _) _).
  - vm_compute. reflexivity.
  - vm_compute. reflexivity.
Defined.

End ShaderFacts.
